(** * Lead orchestrator: a shallow embedding of the orchestration sequence

    The development follows the TypeScript sources:
    - [src/ai/classifier.ts]            classifyLead, generatePersonalizedMessage
    - [src/communication/whatsapp.ts]   sendWhatsApp
    - [src/communication/email.ts]      sendEmail
    - [src/services/taskService.ts]     createTask
    - [src/services/enrichmentService.ts] enrichLead
    - [src/services/crmService.ts]      syncToCRM
    - [src/workflows/leadOrchestration.ts] leadOrchestrationWorkflow
    - [src/routes/dashboard.ts]         approve-lead, reject-lead

    Every function of the sources that awaits an external service becomes a
    computation in a state-and-exception monad over a [World]: the three
    tables of the store, the requests handed to the outbound providers, the
    logger's output, a call counter and a clock.  What the outside answers
    (does the n-th call fail, what does the model return, how long does the
    call take) is read from an environment [Env], over which every theorem
    quantifies. *)

From Stdlib Require Import ZArith QArith Qround String Ascii List Lia Bool.
From stdpp Require Import base list strings.
Import ListNotations.

#[local] Open Scope string_scope.
#[local] Open Scope Z_scope.

(** ** Enumerations *)

(** [ClassificationSchema.persona] *)
Inductive Persona := HOMEOWNER | ARCHITECT | CONTRACTOR | DEALER | UNKNOWN.

(** [ClassificationSchema.intent] *)
Inductive Intent :=
  | PRICE_INQUIRY | SAMPLE_REQUEST | TECHNICAL_SPECS | DESIGN_HELP
  | INSTALLATION_QUERY | DEALER_LOCATOR | COMPLAINT | GENERAL_INQUIRY.

(** [extractedEntities.urgency] *)
Inductive Urgency := URGENCY_LOW | URGENCY_MEDIUM | URGENCY_HIGH.

(** The status column of a Lead.  The schema file is not among the sources;
    the constructors are the string literals the sources write or query. *)
Inductive LeadStatus :=
  | NEW | CONTACTED | QUALIFIED | NURTURING | HOT | CONVERTED | LOST | SPAM.

(** [CreateTaskInput.priority]; the Lead's priority column takes the same
    literals. *)
Inductive Priority := LOW | MEDIUM | HIGH | URGENT.

(** [CreateTaskInput.type] *)
Inductive TaskType :=
  | CALL_LEAD | SEND_QUOTE | SCHEDULE_MEETING | SEND_SAMPLES
  | FOLLOW_UP | APPROVE_DISCOUNT | REVIEW_LEAD.

Inductive TaskStatus := PENDING | IN_PROGRESS | COMPLETED | CANCELLED.

Inductive InteractionType := INITIAL_RESPONSE | TECHNICAL_INFO | I_FOLLOW_UP.
Inductive Channel := WHATSAPP | EMAIL.
Inductive Direction := OUTBOUND | INBOUND.
Inductive InteractionStatus := SENT | DELIVERED.

#[global] Instance Persona_eq_dec : EqDecision Persona.
Proof. solve_decision. Defined.
#[global] Instance Intent_eq_dec : EqDecision Intent.
Proof. solve_decision. Defined.
#[global] Instance LeadStatus_eq_dec : EqDecision LeadStatus.
Proof. solve_decision. Defined.
#[global] Instance Priority_eq_dec : EqDecision Priority.
Proof. solve_decision. Defined.
#[global] Instance TaskType_eq_dec : EqDecision TaskType.
Proof. solve_decision. Defined.
#[global] Instance TaskStatus_eq_dec : EqDecision TaskStatus.
Proof. solve_decision. Defined.

(** ** Time *)

(** [Date.now()] and [new Date()] : milliseconds since the epoch. *)
Definition Time := Z.

Definition MINUTE : Z := 60 * 1000.
Definition DAY : Z := 24 * 60 * 60 * 1000.

(** ** JavaScript numbers, as far as the sources use them

    A lead score is a JavaScript number that the schema bounds to [0,1]; it
    is embedded as the rational it denotes.  [parseFloat] may also give
    [NaN] or an infinity, which [JsNumber] keeps apart. *)
Inductive JsNumber := NaN | PosInfinity | NegInfinity | Num (q : Q).

(** [score >= threshold] with a finite left operand. *)
Definition js_ge (score : Q) (threshold : JsNumber) : bool :=
  match threshold with
  | NaN => false
  | PosInfinity => false
  | NegInfinity => true
  | Num t => Qle_bool t score
  end.

(** *** parseFloat

    The built-in on ASCII input: leading white space is skipped, then the
    longest prefix that is a decimal literal is read (sign, digits, fraction,
    exponent, or [Infinity]); anything after it is ignored, and no such
    prefix gives [NaN].  The value is the exact rational of the literal. *)

Definition is_js_space (c : ascii) : bool :=
  let n := nat_of_ascii c in
  ((9 <=? n) && (n <=? 13))%nat || (n =? 32)%nat.

Definition digit_of (c : ascii) : option Z :=
  let n := nat_of_ascii c in
  if ((48 <=? n) && (n <=? 57))%nat then Some (Z.of_nat n - 48) else None.

Fixpoint skip_spaces (s : string) : string :=
  match s with
  | String c r => if is_js_space c then skip_spaces r else s
  | EmptyString => s
  end.

(** [read_digits acc n s] reads the digits at the head of [s]: their value
    appended to [acc], how many were read added to [n], and the rest. *)
Fixpoint read_digits (acc : Z) (n : nat) (s : string) : Z * nat * string :=
  match s with
  | String c r =>
      match digit_of c with
      | Some d => read_digits (10 * acc + d) (S n) r
      | None => (acc, n, s)
      end
  | EmptyString => (acc, n, s)
  end.

Definition pow10 (e : Z) : Q :=
  if 0 <=? e then inject_Z (10 ^ e) else / inject_Z (10 ^ (- e)).

(** The exponent part, which counts only when it has a digit. *)
Definition read_exponent (s : string) : Z :=
  match s with
  | String c r =>
      if (Ascii.eqb c "e" || Ascii.eqb c "E")%bool then
        let '(neg, r') :=
          match r with
          | String "-" r' => (true, r')
          | String "+" r' => (false, r')
          | _ => (false, r)
          end in
        let '(e, n, _) := read_digits 0 0%nat r' in
        match n with
        | O => 0
        | S _ => if neg then - e else e
        end
      else 0
  | EmptyString => 0
  end.

Definition read_unsigned (s : string) : JsNumber :=
  if String.prefix "Infinity" s then PosInfinity else
  let '(ip, n1, r1) := read_digits 0 0%nat s in
  let '(fp, n2, r2) :=
    match r1 with
    | String "." r => read_digits 0 0%nat r
    | _ => (0, 0%nat, r1)
    end in
  match (n1 + n2)%nat with
  | O => NaN
  | S _ =>
      let mantissa := (inject_Z ip + inject_Z fp * pow10 (- Z.of_nat n2))%Q in
      Num (Qred (mantissa * pow10 (read_exponent r2)))
  end.

Definition js_neg (x : JsNumber) : JsNumber :=
  match x with
  | NaN => NaN
  | PosInfinity => NegInfinity
  | NegInfinity => PosInfinity
  | Num q => Num (Qred (- q))
  end.

Definition parseFloat (s : string) : JsNumber :=
  match skip_spaces s with
  | String "-" r => js_neg (read_unsigned r)
  | String "+" r => read_unsigned r
  | r => read_unsigned r
  end.

(** [a || b] on an optional string: [undefined] and the empty string are
    falsy. *)
Definition or_default (a : option string) (b : string) : string :=
  match a with
  | Some (String c r) => String c r
  | _ => b
  end.

(** [!a] on an optional string. *)
Definition falsy (a : option string) : bool :=
  match a with
  | Some (String _ _) => false
  | _ => true
  end.

(** ** Data model *)

(** [extractedEntities] of the classification schema: all optional. *)
Record ExtractedEntities := mkEntities {
  location : option string;
  projectSize : option string;
  budget : option string;
  materialType : option string;
  urgency : option Urgency }.

(** [Classification], the type inferred from [ClassificationSchema]. *)
Record Classification := mkClassification {
  persona : Persona;
  intent : Intent;
  leadScore : Q;
  reasoning : string;
  extractedEntities : ExtractedEntities }.

(** The argument of [leadOrchestrationWorkflow]. *)
Record LeadData := mkLeadData {
  name : string;
  email : string;
  phone : string;
  inquiry : string;
  in_materialType : option string;
  source : option string;
  ipAddress : option string;
  userAgent : option string }.

(** A row of the Lead table.  Its [l_id] is the row's position in the
    table: leads are never deleted, and the store hands out a fresh key at
    each insert. *)
Record Lead := mkLead {
  l_id : nat;
  l_name : string;
  l_email : string;
  l_phone : string;
  l_inquiry : string;
  l_materialType : option string;
  l_source : string;
  l_ipAddress : option string;
  l_userAgent : option string;
  l_status : LeadStatus;
  l_persona : option Persona;
  l_intent : option Intent;
  l_leadScore : option Q;
  l_location : option string;
  l_projectSize : option string;
  l_budget : option string;
  l_priority : option Priority;
  l_nurtureStage : option Z;
  l_whatsappSent : bool;
  l_emailSent : bool;
  l_lastContactedAt : option Time;
  l_assignedTo : option string;
  l_linkedinUrl : option string;
  l_companyName : option string;
  l_yearsExperience : option Z;
  l_crmId : option string;
  l_crmSyncedAt : option Time;
  l_createdAt : Time;
  l_updatedAt : Time }.

(** Template literals that interpolate numbers or [JSON.stringify] are kept
    as the template and its arguments. *)
Inductive TaskTitle :=
  | HighValueArchitectLead (lead_name : string)
  | CallForPriceQuote (lead_name : string)
  | FollowUpCheckEngagement
  | NurtureDay (day : Z) (message : string).

Inductive TaskDescription :=
  | HighValueBrief (score : Q) (i : Intent) (inq : string) (e : ExtractedEntities)
  | PriceQuoteBrief (material : option string) (e : ExtractedEntities)
  | FollowUpBrief
  | NurtureBrief (message : string) (p : Persona).

(** [CreateTaskInput] *)
Record CreateTaskInput := mkTaskInput {
  in_leadId : nat;
  in_title : TaskTitle;
  in_description : TaskDescription;
  in_type : TaskType;
  in_priority : Priority;
  in_assignedTo : option string;
  in_dueAt : option Time }.

(** A row of the Task table. *)
Record Task := mkTask {
  t_id : nat;
  t_leadId : nat;
  t_title : TaskTitle;
  t_description : TaskDescription;
  t_type : TaskType;
  t_priority : Priority;
  t_assignedTo : option string;
  t_dueAt : option Time;
  t_status : TaskStatus;
  t_notes : option string;
  t_createdAt : Time }.

(** [data] of [sendEmail] as the workflow fills it. *)
Record EmailData := mkEmailData {
  d_name : string;
  d_materialType : option string;
  d_inquiry : string }.

(** The body of a message: a WhatsApp text, or the HTML that
    [generateEmailHTML template data] renders. *)
Inductive MessageContent :=
  | Plain (text : string)
  | Html (template : string) (data : EmailData).

(** A row of the Interaction table; [i_providerRef] is the sid or the
    messageId of the [metadata] column. *)
Record Interaction := mkInteraction {
  i_leadId : nat;
  i_type : InteractionType;
  i_channel : Channel;
  i_direction : Direction;
  i_subject : option string;
  i_message : MessageContent;
  i_status : InteractionStatus;
  i_sentAt : option Time;
  i_providerRef : string }.

(** The argument of [client.messages.create]. *)
Record WaRequest := mkWaRequest {
  wa_from : string;
  wa_to : string;
  wa_body : string }.

(** [mailOptions] of [transporter.sendMail]: recipient, subject and body
    (the sender address is a constant of the process). *)
Record MailRequest := mkMailRequest {
  m_to : string;
  m_subject : string;
  m_html : MessageContent }.

(** [EmailOptions] *)
Record EmailOptions := mkEmailOptions {
  o_to : string;
  o_subject : string;
  o_template : string;
  o_data : EmailData;
  o_leadId : option nat }.

(** What [syncToCRM] posts: the payload is a relabelling of the lead row and
    of its interactions. *)
Record CrmPayload := mkCrmPayload {
  crm_lead : Lead;
  crm_activities : list Interaction }.

(** ** Errors, environment, world *)

Inductive Err :=
  | PrismaError (call : nat)   (* the store rejected its call *)
  | RecordNotFound (id : nat)  (* update of a row that does not exist *)
  | AIError (call : nat)       (* generateObject failed or its answer broke the schema *)
  | TwilioError (call : nat)
  | SmtpError (call : nat)
  | AxiosError (call : nat)
  | LeadNotFound.              (* [throw new Error('Lead not found')] *)

Inductive Level := INFO | WARN | ERROR.

(** What the outside does.  External calls are numbered in the order in
    which they are issued; [calls] of the world is the number of the next. *)
Record Env := mkEnv {
  HIGH_VALUE_THRESHOLD : option string;
  CRM_API_URL : option string;
  CRM_API_KEY : option string;
  TWILIO_WHATSAPP_NUMBER : option string;
  (** does the store reject call [n] *)
  dbFails : nat -> bool;
  (** the answer of the classification model to call [n], if any *)
  modelClassification : nat -> option Classification;
  (** the answer of the message model to call [n], if any *)
  modelMessage : nat -> option string;
  (** sid of the message Twilio accepted at call [n], if it did *)
  twilioAnswer : nat -> option string;
  (** messageId of the mail the SMTP relay accepted at call [n] *)
  smtpAnswer : nat -> option string;
  (** id the CRM gave to the lead posted at call [n] *)
  crmAnswer : nat -> option string;
  (** [Math.random()] drawn at call [n] *)
  mathRandom : nat -> Q;
  (** milliseconds that pass while call [n] is pending *)
  latency : nat -> Z }.

Record World := mkWorld {
  leads : list Lead;
  tasks : list Task;
  interactions : list Interaction;
  waCalls : list WaRequest;       (* calls of client.messages.create *)
  mailCalls : list MailRequest;   (* calls of transporter.sendMail *)
  crmCalls : list CrmPayload;     (* calls of axios.post *)
  logs : list (Level * string);
  unhandled : list Err;           (* rejections nobody caught *)
  calls : nat;
  clock : Time }.

Definition set_leads (x : list Lead) (w : World) : World :=
  mkWorld x (tasks w) (interactions w) (waCalls w) (mailCalls w) (crmCalls w)
          (logs w) (unhandled w) (calls w) (clock w).
Definition set_tasks (x : list Task) (w : World) : World :=
  mkWorld (leads w) x (interactions w) (waCalls w) (mailCalls w) (crmCalls w)
          (logs w) (unhandled w) (calls w) (clock w).
Definition set_interactions (x : list Interaction) (w : World) : World :=
  mkWorld (leads w) (tasks w) x (waCalls w) (mailCalls w) (crmCalls w)
          (logs w) (unhandled w) (calls w) (clock w).
Definition set_waCalls (x : list WaRequest) (w : World) : World :=
  mkWorld (leads w) (tasks w) (interactions w) x (mailCalls w) (crmCalls w)
          (logs w) (unhandled w) (calls w) (clock w).
Definition set_mailCalls (x : list MailRequest) (w : World) : World :=
  mkWorld (leads w) (tasks w) (interactions w) (waCalls w) x (crmCalls w)
          (logs w) (unhandled w) (calls w) (clock w).
Definition set_crmCalls (x : list CrmPayload) (w : World) : World :=
  mkWorld (leads w) (tasks w) (interactions w) (waCalls w) (mailCalls w) x
          (logs w) (unhandled w) (calls w) (clock w).
Definition set_logs (x : list (Level * string)) (w : World) : World :=
  mkWorld (leads w) (tasks w) (interactions w) (waCalls w) (mailCalls w)
          (crmCalls w) x (unhandled w) (calls w) (clock w).
Definition set_unhandled (x : list Err) (w : World) : World :=
  mkWorld (leads w) (tasks w) (interactions w) (waCalls w) (mailCalls w)
          (crmCalls w) (logs w) x (calls w) (clock w).

(** ** The monad of asynchronous functions

    A computation runs from a world to an outcome and a world.  A rejected
    promise is [Throw]; what was written before the rejection stays
    written. *)
Inductive Outcome (A : Type) :=
  | Ok (a : A)
  | Throw (e : Err).
Arguments Ok {A} a.
Arguments Throw {A} e.

Definition M (A : Type) : Type := World -> Outcome A * World.

Definition ret {A} (a : A) : M A := fun w => (Ok a, w).

Definition bind {A B} (m : M A) (k : A -> M B) : M B :=
  fun w =>
    match m w with
    | (Ok a, w') => k a w'
    | (Throw e, w') => (Throw e, w')
    end.

Definition throw {A} (e : Err) : M A := fun w => (Throw e, w).

(** [try { m } catch (error) { h error }] *)
Definition try_catch {A} (m : M A) (h : Err -> M A) : M A :=
  fun w =>
    match m w with
    | (Ok a, w') => (Ok a, w')
    | (Throw e, w') => h e w'
    end.

(** A call whose promise is neither awaited nor given a handler.  The
    model runs it at the point where it is started; the caller goes on
    whatever its outcome, and a rejection ends in [unhandled]. *)
Definition detach {A} (m : M A) : M unit :=
  fun w =>
    match m w with
    | (Ok _, w') => (Ok tt, w')
    | (Throw e, w') => (Ok tt, set_unhandled (unhandled w' ++ [e]) w')
    end.

(** [m.catch(h)], not awaited. *)
Definition detach_catch {A} (m : M A) (h : Err -> M unit) : M unit :=
  fun w =>
    match m w with
    | (Ok _, w') => (Ok tt, w')
    | (Throw e, w') => h e w'
    end.

Declare Scope async_scope.
Delimit Scope async_scope with async.
Notation "x <- m ;; k" := (bind m (fun x => k))
  (at level 100, m at next level, right associativity) : async_scope.
Notation "m ;;; k" := (bind m (fun _ => k))
  (at level 100, right associativity) : async_scope.
#[local] Open Scope async_scope.

(** [logger.info], [logger.warn], [logger.error]: the level and the message;
    the pictograms of the messages and the metadata object are left out. *)
Definition logger (lv : Level) (msg : string) : M unit :=
  fun w => (Ok tt, set_logs (logs w ++ [(lv, msg)]) w).

(** [Date.now()] *)
Definition Date_now : M Time := fun w => (Ok (clock w), w).

(** ** String helpers of the enrichment stub *)

(** [s.split(sep)] for a one-character separator. *)
Fixpoint split_on (sep : ascii) (s : string) : list string :=
  match s with
  | EmptyString => [""]
  | String c r =>
      if Ascii.eqb c sep then "" :: split_on sep r
      else match split_on sep r with
           | h :: t => String c h :: t
           | [] => [String c ""]
           end
  end.

Definition upper_char (c : ascii) : ascii :=
  let n := nat_of_ascii c in
  if ((97 <=? n) && (n <=? 122))%nat then ascii_of_nat (n - 32) else c.

(** [s.toUpperCase()] on ASCII text. *)
Fixpoint toUpperCase (s : string) : string :=
  match s with
  | EmptyString => EmptyString
  | String c r => String (upper_char c) (toUpperCase r)
  end.

Definition string_in (s : string) (l : list string) : bool :=
  existsb (String.eqb s) l.

(** In an update's [data], an [undefined] field leaves the column as it is. *)
Definition or_keep {A} (new old : option A) : option A :=
  match new with
  | Some x => Some x
  | None => old
  end.

(** ** The store and the providers *)

(** [data] of [prisma.lead.create] as the workflow fills it. *)
Record LeadCreateData := mkLeadCreateData {
  c_name : string;
  c_email : string;
  c_phone : string;
  c_inquiry : string;
  c_materialType : option string;
  c_source : string;
  c_ipAddress : option string;
  c_userAgent : option string;
  c_status : LeadStatus }.

(** Modelled from the spec: the row a create leaves, the columns it does not
    name being empty (the schema file with the column defaults is not among
    the sources; the spec's data model lists the columns and says that they
    are filled in by the later steps). *)
Definition new_lead (id : nat) (now : Time) (d : LeadCreateData) : Lead :=
  mkLead id (c_name d) (c_email d) (c_phone d) (c_inquiry d)
         (c_materialType d) (c_source d) (c_ipAddress d) (c_userAgent d)
         (c_status d)
         None None None None None None None None
         false false None None None None None None None now now.

(** The [data] objects of the updates in the sources. *)

Definition data_classification (c : Classification) (p : Priority) (l : Lead) : Lead :=
  mkLead (l_id l) (l_name l) (l_email l) (l_phone l) (l_inquiry l)
         (l_materialType l) (l_source l) (l_ipAddress l) (l_userAgent l)
         (l_status l)
         (Some (persona c)) (Some (intent c)) (Some (leadScore c))
         (or_keep (location (extractedEntities c)) (l_location l))
         (or_keep (projectSize (extractedEntities c)) (l_projectSize l))
         (or_keep (budget (extractedEntities c)) (l_budget l))
         (Some p)
         (l_nurtureStage l) (l_whatsappSent l) (l_emailSent l)
         (l_lastContactedAt l) (l_assignedTo l) (l_linkedinUrl l)
         (l_companyName l) (l_yearsExperience l) (l_crmId l)
         (l_crmSyncedAt l) (l_createdAt l) (l_updatedAt l).

Definition data_status (s : LeadStatus) (l : Lead) : Lead :=
  mkLead (l_id l) (l_name l) (l_email l) (l_phone l) (l_inquiry l)
         (l_materialType l) (l_source l) (l_ipAddress l) (l_userAgent l)
         s
         (l_persona l) (l_intent l) (l_leadScore l) (l_location l)
         (l_projectSize l) (l_budget l) (l_priority l)
         (l_nurtureStage l) (l_whatsappSent l) (l_emailSent l)
         (l_lastContactedAt l) (l_assignedTo l) (l_linkedinUrl l)
         (l_companyName l) (l_yearsExperience l) (l_crmId l)
         (l_crmSyncedAt l) (l_createdAt l) (l_updatedAt l).

Definition data_nurturing (stage : Z) (l : Lead) : Lead :=
  mkLead (l_id l) (l_name l) (l_email l) (l_phone l) (l_inquiry l)
         (l_materialType l) (l_source l) (l_ipAddress l) (l_userAgent l)
         NURTURING
         (l_persona l) (l_intent l) (l_leadScore l) (l_location l)
         (l_projectSize l) (l_budget l) (l_priority l)
         (Some stage) (l_whatsappSent l) (l_emailSent l)
         (l_lastContactedAt l) (l_assignedTo l) (l_linkedinUrl l)
         (l_companyName l) (l_yearsExperience l) (l_crmId l)
         (l_crmSyncedAt l) (l_createdAt l) (l_updatedAt l).

Definition data_whatsappSent (now : Time) (l : Lead) : Lead :=
  mkLead (l_id l) (l_name l) (l_email l) (l_phone l) (l_inquiry l)
         (l_materialType l) (l_source l) (l_ipAddress l) (l_userAgent l)
         (l_status l)
         (l_persona l) (l_intent l) (l_leadScore l) (l_location l)
         (l_projectSize l) (l_budget l) (l_priority l)
         (l_nurtureStage l) true (l_emailSent l)
         (Some now) (l_assignedTo l) (l_linkedinUrl l)
         (l_companyName l) (l_yearsExperience l) (l_crmId l)
         (l_crmSyncedAt l) (l_createdAt l) (l_updatedAt l).

Definition data_emailSent (now : Time) (l : Lead) : Lead :=
  mkLead (l_id l) (l_name l) (l_email l) (l_phone l) (l_inquiry l)
         (l_materialType l) (l_source l) (l_ipAddress l) (l_userAgent l)
         (l_status l)
         (l_persona l) (l_intent l) (l_leadScore l) (l_location l)
         (l_projectSize l) (l_budget l) (l_priority l)
         (l_nurtureStage l) (l_whatsappSent l) true
         (Some now) (l_assignedTo l) (l_linkedinUrl l)
         (l_companyName l) (l_yearsExperience l) (l_crmId l)
         (l_crmSyncedAt l) (l_createdAt l) (l_updatedAt l).

Definition data_enrichment (li co : option string) (ye : option Z) (l : Lead) : Lead :=
  mkLead (l_id l) (l_name l) (l_email l) (l_phone l) (l_inquiry l)
         (l_materialType l) (l_source l) (l_ipAddress l) (l_userAgent l)
         (l_status l)
         (l_persona l) (l_intent l) (l_leadScore l) (l_location l)
         (l_projectSize l) (l_budget l) (l_priority l)
         (l_nurtureStage l) (l_whatsappSent l) (l_emailSent l)
         (l_lastContactedAt l) (l_assignedTo l)
         (or_keep li (l_linkedinUrl l)) (or_keep co (l_companyName l))
         (or_keep ye (l_yearsExperience l)) (l_crmId l)
         (l_crmSyncedAt l) (l_createdAt l) (l_updatedAt l).

Definition data_crm (crmId : string) (now : Time) (l : Lead) : Lead :=
  mkLead (l_id l) (l_name l) (l_email l) (l_phone l) (l_inquiry l)
         (l_materialType l) (l_source l) (l_ipAddress l) (l_userAgent l)
         (l_status l)
         (l_persona l) (l_intent l) (l_leadScore l) (l_location l)
         (l_projectSize l) (l_budget l) (l_priority l)
         (l_nurtureStage l) (l_whatsappSent l) (l_emailSent l)
         (l_lastContactedAt l) (l_assignedTo l) (l_linkedinUrl l)
         (l_companyName l) (l_yearsExperience l) (Some crmId)
         (Some now) (l_createdAt l) (l_updatedAt l).

(** [data] of the two dashboard updates: a status, the optional assignee of
    the request body, and [updatedAt: new Date()]. *)
Definition data_review (s : LeadStatus) (assignee : option string) (now : Time)
    (l : Lead) : Lead :=
  mkLead (l_id l) (l_name l) (l_email l) (l_phone l) (l_inquiry l)
         (l_materialType l) (l_source l) (l_ipAddress l) (l_userAgent l)
         s
         (l_persona l) (l_intent l) (l_leadScore l) (l_location l)
         (l_projectSize l) (l_budget l) (l_priority l)
         (l_nurtureStage l) (l_whatsappSent l) (l_emailSent l)
         (l_lastContactedAt l) (or_keep assignee (l_assignedTo l))
         (l_linkedinUrl l) (l_companyName l) (l_yearsExperience l) (l_crmId l)
         (l_crmSyncedAt l) (l_createdAt l) now.

(** Modelled from the spec: the row that the insert of a task leaves.  The
    schema file is not among the sources; the columns are those the sources
    write or order by (the dashboard orders tasks by [createdAt]), the notes
    are empty and [createdAt] is the time of the insert. *)
Definition new_task (id : nat) (now : Time) (input : CreateTaskInput)
    (s : TaskStatus) : Task :=
  mkTask id (in_leadId input) (in_title input) (in_description input)
         (in_type input) (in_priority input) (in_assignedTo input)
         (in_dueAt input) s None now.

(** [data] of the dashboard's [task.updateMany]. *)
Definition data_task_review (s : TaskStatus) (assignee notes : option string)
    (t : Task) : Task :=
  mkTask (t_id t) (t_leadId t) (t_title t) (t_description t) (t_type t)
         (t_priority t) (or_keep assignee (t_assignedTo t)) (t_dueAt t) s
         (or_keep notes (t_notes t)) (t_createdAt t).

Section WithEnv.

Variable env : Env.

(** An external call is issued: it takes the next number, and time passes
    until it settles. *)
Definition issue : M nat :=
  fun w =>
    (Ok (calls w),
     mkWorld (leads w) (tasks w) (interactions w) (waCalls w) (mailCalls w)
             (crmCalls w) (logs w) (unhandled w) (S (calls w))
             (clock w + latency env (calls w))).

(** A query to the store: rejected when the environment says so. *)
Definition query : M unit :=
  n <- issue ;;
  if dbFails env n then throw (PrismaError n) else ret tt.

(** [prisma.lead.create]: the row is stamped with the time of the call. *)
Definition prisma_lead_create (d : LeadCreateData) : M Lead :=
  now <- Date_now ;;
  query ;;;
  fun w =>
    let l := new_lead (length (leads w)) now d in
    (Ok l, set_leads (leads w ++ [l]) w).

(** [prisma.lead.update({ where: { id }, data })]: rejects when no row has
    the id. *)
Definition prisma_lead_update (id : nat) (data : Lead -> Lead) : M Lead :=
  query ;;;
  fun w =>
    match leads w !! id with
    | Some l => (Ok (data l), set_leads (<[id := data l]> (leads w)) w)
    | None => (Throw (RecordNotFound id), w)
    end.

(** [prisma.lead.findUnique] with [include: { interactions, tasks }]. *)
Definition prisma_lead_findUnique (id : nat)
    : M (option (Lead * list Interaction * list Task)) :=
  query ;;;
  fun w =>
    (Ok (match leads w !! id with
         | Some l =>
             Some (l,
                   filter (fun i => i_leadId i = id) (interactions w),
                   filter (fun t => t_leadId t = id) (tasks w))
         | None => None
         end), w).

(** [prisma.task.create] *)
Definition prisma_task_create (input : CreateTaskInput) (s : TaskStatus) : M Task :=
  now <- Date_now ;;
  query ;;;
  fun w =>
    let t := new_task (length (tasks w)) now input s in
    (Ok t, set_tasks (tasks w ++ [t]) w).

(** [prisma.task.updateMany({ where, data })] *)
Definition prisma_task_updateMany (where_ : Task -> bool) (data : Task -> Task)
    : M unit :=
  query ;;;
  fun w =>
    (Ok tt,
     set_tasks (map (fun t => if where_ t then data t else t) (tasks w)) w).

(** [prisma.interaction.create] *)
Definition prisma_interaction_create (i : Interaction) : M unit :=
  query ;;;
  fun w => (Ok tt, set_interactions (interactions w ++ [i]) w).

(** [client.messages.create]: the request leaves, Twilio accepts it or not. *)
Definition client_messages_create (req : WaRequest) : M string :=
  n <- issue ;;
  fun w =>
    let w' := set_waCalls (waCalls w ++ [req]) w in
    match twilioAnswer env n with
    | Some sid => (Ok sid, w')
    | None => (Throw (TwilioError n), w')
    end.

(** [transporter.sendMail] *)
Definition transporter_sendMail (req : MailRequest) : M string :=
  n <- issue ;;
  fun w =>
    let w' := set_mailCalls (mailCalls w ++ [req]) w in
    match smtpAnswer env n with
    | Some mid => (Ok mid, w')
    | None => (Throw (SmtpError n), w')
    end.

(** [axios.post] to the CRM *)
Definition axios_post (payload : CrmPayload) : M string :=
  n <- issue ;;
  fun w =>
    let w' := set_crmCalls (crmCalls w ++ [payload]) w in
    match crmAnswer env n with
    | Some id => (Ok id, w')
    | None => (Throw (AxiosError n), w')
    end.

(** [z.number().min(0).max(1)] of the schema *)
Definition score_in_range (s : Q) : bool :=
  Qle_bool 0 s && Qle_bool s 1.

(** [generateObject] with [ClassificationSchema]: an answer that breaks the
    schema is an error as well.  The prompt is a text built from the lead
    data; the answer is the environment's. *)
Definition generateObject_classification : M Classification :=
  n <- issue ;;
  match modelClassification env n with
  | Some c => if score_in_range (leadScore c) then ret c else throw (AIError n)
  | None => throw (AIError n)
  end.

(** [generateObject] with the one-field message schema. *)
Definition generateObject_message : M string :=
  n <- issue ;;
  match modelMessage env n with
  | Some s => ret s
  | None => throw (AIError n)
  end.

(** [await new Promise(resolve => setTimeout(resolve, ms))] *)
Definition sleep (ms : Z) : M unit :=
  fun w =>
    (Ok tt,
     mkWorld (leads w) (tasks w) (interactions w) (waCalls w) (mailCalls w)
             (crmCalls w) (logs w) (unhandled w) (calls w) (clock w + ms)).

(** [Math.random()] *)
Definition Math_random : M Q := fun w => (Ok (mathRandom env (calls w)), w).

(** ** src/ai/classifier.ts *)

(** The record [classifyLead] falls back to. *)
Definition fallbackClassification : Classification :=
  mkClassification UNKNOWN GENERAL_INQUIRY (3 # 10)
    "Classification failed, using fallback values"
    (mkEntities None None None None None).

Definition classifyLead (leadData : LeadData) : M Classification :=
  try_catch
    (logger INFO "Starting AI classification" ;;;
     result <- generateObject_classification ;;
     logger INFO "AI classification completed" ;;;
     ret result)
    (fun error =>
     logger ERROR "AI classification failed" ;;;
     ret fallbackClassification).

Definition fallbackMessage : string :=
  "Thank you for your inquiry! Our team will get back to you shortly with the information you need.".

Definition generatePersonalizedMessage (p : Persona) (i : Intent)
    (lead_name : string) (e : ExtractedEntities) : M string :=
  try_catch
    (result <- generateObject_message ;;
     ret result)
    (fun error =>
     logger ERROR "Message generation failed" ;;;
     ret fallbackMessage).

(** ** src/services/taskService.ts *)

Definition createTask (input : CreateTaskInput) : M Task :=
  try_catch
    (task <- prisma_task_create input PENDING ;;
     logger INFO "Task created" ;;;
     ret task)
    (fun error =>
     logger ERROR "Failed to create task" ;;;
     throw error).

(** ** src/communication/whatsapp.ts *)

Definition WHATSAPP_FROM : string :=
  or_default (TWILIO_WHATSAPP_NUMBER env) "whatsapp:+14155238886".

Definition sendWhatsApp (to message : string) (leadId : option nat) : M bool :=
  try_catch
    (let formattedTo :=
       if String.prefix "whatsapp:" to then to else "whatsapp:" ++ to in
     logger INFO "Sending WhatsApp message" ;;;
     result <- client_messages_create (mkWaRequest WHATSAPP_FROM formattedTo message) ;;
     logger INFO "WhatsApp message sent" ;;;
     match leadId with
     | Some leadId =>
         sentAt <- Date_now ;;
         prisma_interaction_create
           (mkInteraction leadId INITIAL_RESPONSE WHATSAPP OUTBOUND None
                          (Plain message) SENT (Some sentAt) result) ;;;
         lastContactedAt <- Date_now ;;
         prisma_lead_update leadId (data_whatsappSent lastContactedAt) ;;;
         ret tt
     | None => ret tt
     end ;;;
     ret true)
    (fun error =>
     logger ERROR "WhatsApp send failed" ;;;
     ret false).

(** ** src/communication/email.ts *)

(** [templates[template] || templates['welcome']]: the template that
    [generateEmailHTML] renders. *)
Definition resolved_template (template : string) : string :=
  if string_in template ["technical-specs"; "welcome"; "nurture-day3"]
  then template else "welcome".

Definition generateEmailHTML (template : string) (data : EmailData) : MessageContent :=
  Html (resolved_template template) data.

Definition sendEmail (options : EmailOptions) : M bool :=
  try_catch
    (logger INFO "Sending email" ;;;
     let htmlContent := generateEmailHTML (o_template options) (o_data options) in
     result <- transporter_sendMail
                 (mkMailRequest (o_to options) (o_subject options) htmlContent) ;;
     logger INFO "Email sent successfully" ;;;
     match o_leadId options with
     | Some leadId =>
         sentAt <- Date_now ;;
         prisma_interaction_create
           (mkInteraction leadId
              (if String.eqb (o_template options) "technical-specs"
               then TECHNICAL_INFO else INITIAL_RESPONSE)
              EMAIL OUTBOUND (Some (o_subject options)) htmlContent SENT
              (Some sentAt) result) ;;;
         lastContactedAt <- Date_now ;;
         prisma_lead_update leadId (data_emailSent lastContactedAt) ;;;
         ret tt
     | None => ret tt
     end ;;;
     ret true)
    (fun error =>
     logger ERROR "Email send failed" ;;;
     ret false).

(** ** src/services/enrichmentService.ts *)

Record Enrichment := mkEnrichment {
  e_linkedinUrl : option string;
  e_companyName : option string;
  e_yearsExperience : option Z }.

Definition simulateEnrichment (mail : string) : M Enrichment :=
  sleep 1000 ;;;
  let domain := split_on "@" mail !! 1%nat in
  match domain with
  | Some (String c r as domain) =>
      if negb (string_in domain ["gmail.com"; "yahoo.com"; "hotmail.com"; "outlook.com"])
      then
        random <- Math_random ;;
        ret (mkEnrichment
               (Some ("https://linkedin.com/in/" ++ default "" (split_on "@" mail !! 0%nat)))
               (Some (toUpperCase (default "" (split_on "." domain !! 0%nat))))
               (Some (Qfloor (random * 15) + 5)))
      else ret (mkEnrichment None None None)
  | _ => ret (mkEnrichment None None None)
  end.

Definition enrichLead (leadId : nat) (mail phone_ : string) : M unit :=
  try_catch
    (logger INFO "Starting lead enrichment" ;;;
     enrichedData <- simulateEnrichment mail ;;
     prisma_lead_update leadId
       (data_enrichment (e_linkedinUrl enrichedData) (e_companyName enrichedData)
                        (e_yearsExperience enrichedData)) ;;;
     logger INFO "Lead enrichment completed")
    (fun error =>
     logger ERROR "Lead enrichment failed").

(** ** src/services/crmService.ts *)

Definition syncToCRM (leadId : nat) : M bool :=
  try_catch
    (if falsy (CRM_API_URL env) || falsy (CRM_API_KEY env) then
       logger WARN "CRM credentials not configured, skipping sync" ;;;
       ret false
     else
       found <- prisma_lead_findUnique leadId ;;
       match found with
       | None => throw LeadNotFound
       | Some (lead, lead_interactions, _) =>
           logger INFO "Syncing lead to CRM" ;;;
           response <- axios_post (mkCrmPayload lead lead_interactions) ;;
           crmSyncedAt <- Date_now ;;
           prisma_lead_update leadId (data_crm response crmSyncedAt) ;;;
           logger INFO "Lead synced to CRM successfully" ;;;
           ret true
       end)
    (fun error =>
     logger ERROR "CRM sync failed" ;;;
     ret false).

(** ** src/workflows/leadOrchestration.ts *)

(** What the workflow returns. *)
Record WorkflowResult := mkResult {
  r_success : bool;
  r_leadId : nat;
  r_persona : Persona;
  r_intent : Intent;
  r_score : Q;
  r_status : LeadStatus }.

Definition nl : string := String (ascii_of_nat 10) EmptyString.

(** The acknowledgment of the high-value branch. *)
Definition acknowledgment (lead_name : string) : string :=
  "Hi " ++ lead_name ++ "! 👋" ++ nl ++ nl ++
  "Thank you for reaching out. I can see you're working on an exciting project!" ++ nl ++ nl ++
  "Our senior technical consultant will call you within the next 5 minutes to discuss your requirements in detail." ++ nl ++ nl ++
  "Meanwhile, I'm sharing our comprehensive technical catalog: [Download PDF]" ++ nl ++ nl ++
  "Looking forward to working with you!" ++ nl ++ nl ++
  "- Team [Brand Name]".

(** [for (const x of l) { await body(x) }] *)
Fixpoint for_of {A} (l : list A) (body : A -> M unit) : M unit :=
  match l with
  | [] => ret tt
  | x :: rest => body x ;;; for_of rest body
  end.

Definition scheduleFollowUp (leadId : nat) (daysFromNow : Z) : M unit :=
  now <- Date_now ;;
  let dueDate := now + daysFromNow * 24 * 60 * 60 * 1000 in
  createTask (mkTaskInput leadId FollowUpCheckEngagement FollowUpBrief
                          FOLLOW_UP MEDIUM None (Some dueDate)) ;;;
  logger INFO "Follow-up scheduled".

Definition nurtureSchedule : list (Z * string) :=
  [ (1, "design_inspiration");
    (3, "budget_calculator");
    (5, "customer_testimonials");
    (7, "dealer_locator") ].

Definition startNurtureCampaign (leadId : nat) (p : Persona) : M unit :=
  for_of nurtureSchedule
    (fun stage =>
     now <- Date_now ;;
     let dueDate := now + fst stage * 24 * 60 * 60 * 1000 in
     createTask (mkTaskInput leadId (NurtureDay (fst stage) (snd stage))
                             (NurtureBrief (snd stage) p)
                             FOLLOW_UP LOW None (Some dueDate)) ;;;
     ret tt) ;;;
  logger INFO "Nurture campaign started".

(** The priority expression of the classification update:
    [leadScore >= 0.8 ? 'HIGH' : leadScore >= 0.5 ? 'MEDIUM' : 'LOW']. *)
Definition priorityOfScore (score : Q) : Priority :=
  if Qle_bool (8 # 10) score then HIGH
  else if Qle_bool (1 # 2) score then MEDIUM
  else LOW.

(** [parseFloat(process.env.HIGH_VALUE_THRESHOLD || '0.8')] *)
Definition highValueThreshold : JsNumber :=
  parseFloat (or_default (HIGH_VALUE_THRESHOLD env) "0.8").

(** The condition of the first routing branch. *)
Definition isHighValueArchitect (p : Persona) (score : Q) : bool :=
  bool_decide (p = ARCHITECT) && js_ge score highValueThreshold.

Definition leadOrchestrationWorkflow (leadData : LeadData) : M WorkflowResult :=
  try_catch
    (logger INFO "Starting lead orchestration workflow" ;;;
     (* STEP 1: Create lead in database *)
     lead <- prisma_lead_create
               (mkLeadCreateData (name leadData) (email leadData) (phone leadData)
                  (inquiry leadData) (in_materialType leadData)
                  (or_default (source leadData) "website")
                  (ipAddress leadData) (userAgent leadData) NEW) ;;
     logger INFO "Lead created in database" ;;;
     (* STEP 2: AI Classification *)
     classification <- classifyLead leadData ;;
     prisma_lead_update (l_id lead)
       (data_classification classification
          (priorityOfScore (leadScore classification))) ;;;
     logger INFO "AI classification completed" ;;;
     (* STEP 3: Lead Enrichment (Async - don't wait) *)
     detach_catch (enrichLead (l_id lead) (email leadData) (phone leadData))
       (fun err => logger ERROR "Lead enrichment failed") ;;;
     (* STEP 4: Intelligent Routing Decision *)
     (if isHighValueArchitect (persona classification) (leadScore classification) then
        logger INFO "High-value architect detected - routing to sales manager" ;;;
        now <- Date_now ;;
        createTask
          (mkTaskInput (l_id lead) (HighValueArchitectLead (name leadData))
             (HighValueBrief (leadScore classification) (intent classification)
                (inquiry leadData) (extractedEntities classification))
             REVIEW_LEAD URGENT None (Some (now + 5 * 60 * 1000))) ;;;
        sendWhatsApp (phone leadData) (acknowledgment (name leadData))
                     (Some (l_id lead)) ;;;
        prisma_lead_update (l_id lead) (data_status HOT) ;;;
        ret tt
      else if bool_decide (intent classification = TECHNICAL_SPECS) then
        logger INFO "Technical specs requested - auto-sending" ;;;
        message <- generatePersonalizedMessage (persona classification)
                     (intent classification) (name leadData)
                     (extractedEntities classification) ;;
        sendWhatsApp (phone leadData) message (Some (l_id lead)) ;;;
        sendEmail
          (mkEmailOptions (email leadData)
             ("Technical Specifications - " ++
              or_default (in_materialType leadData) "Materials")
             "technical-specs"
             (mkEmailData (name leadData) (in_materialType leadData)
                          (inquiry leadData))
             (Some (l_id lead))) ;;;
        prisma_lead_update (l_id lead) (data_status CONTACTED) ;;;
        detach (scheduleFollowUp (l_id lead) 3)
      else if bool_decide (intent classification = PRICE_INQUIRY) then
        logger INFO "Price inquiry - sending pricing info" ;;;
        message <- generatePersonalizedMessage (persona classification)
                     (intent classification) (name leadData)
                     (extractedEntities classification) ;;
        sendWhatsApp (phone leadData) message (Some (l_id lead)) ;;;
        prisma_lead_update (l_id lead) (data_status CONTACTED) ;;;
        now <- Date_now ;;
        createTask
          (mkTaskInput (l_id lead) (CallForPriceQuote (name leadData))
             (PriceQuoteBrief (in_materialType leadData)
                              (extractedEntities classification))
             CALL_LEAD
             (if Qle_bool (1 # 2) (leadScore classification) then HIGH else MEDIUM)
             None (Some (now + 24 * 60 * 60 * 1000))) ;;;
        ret tt
      else
        logger INFO "Starting nurture sequence" ;;;
        message <- generatePersonalizedMessage (persona classification)
                     (intent classification) (name leadData)
                     (extractedEntities classification) ;;
        sendWhatsApp (phone leadData) message (Some (l_id lead)) ;;;
        prisma_lead_update (l_id lead) (data_nurturing 1) ;;;
        detach (startNurtureCampaign (l_id lead) (persona classification))) ;;;
     (* STEP 5: Sync to CRM *)
     detach_catch (syncToCRM (l_id lead))
       (fun err => logger ERROR "CRM sync failed") ;;;
     logger INFO "Lead orchestration workflow completed" ;;;
     ret (mkResult true (l_id lead) (persona classification)
                   (intent classification) (leadScore classification)
                   (l_status lead)))
    (fun error =>
     logger ERROR "Lead orchestration workflow failed" ;;;
     throw error).

(** ** src/routes/dashboard.ts *)

(** What a handler answers: [res.json] with the updated lead, or status 500. *)
Inductive Response :=
  | Json200 (message : string) (lead : Lead)
  | Json500 (error : string).

(** A handler catches everything and answers; it never rejects. *)
Definition handler (m : M Response) (failure : string) : World -> Response * World :=
  fun w =>
    match m w with
    | (Ok r, w') => (r, w')
    | (Throw e, w') =>
        (Json500 failure, set_logs (logs w' ++ [(ERROR, failure)]) w')
    end.

(** [POST /api/dashboard/approve-lead/:id] with body [{ assignedTo, notes }] *)
Definition approve_lead (id : nat) (assignedTo notes : option string)
    : World -> Response * World :=
  handler
    (updatedAt <- Date_now ;;
     lead <- prisma_lead_update id (data_review QUALIFIED assignedTo updatedAt) ;;
     prisma_task_updateMany
       (fun t => bool_decide (t_leadId t = id) && bool_decide (t_status t = PENDING))
       (data_task_review IN_PROGRESS assignedTo notes) ;;;
     logger INFO "Lead approved and assigned" ;;;
     ret (Json200 "Lead approved successfully" lead))
    "Failed to approve lead".

(** [POST /api/dashboard/reject-lead/:id] with body [{ reason }] *)
Definition reject_lead (id : nat) (reason : option string)
    : World -> Response * World :=
  handler
    (updatedAt <- Date_now ;;
     lead <- prisma_lead_update id
               (data_review
                  (if bool_decide (reason = Some "spam") then SPAM else LOST)
                  None updatedAt) ;;
     prisma_task_updateMany
       (fun t => bool_decide (t_leadId t = id) && bool_decide (t_status t = PENDING))
       (data_task_review CANCELLED None
          (Some ("Rejected: " ++ default "undefined" reason))) ;;;
     logger INFO "Lead rejected" ;;;
     ret (Json200 "Lead rejected" lead))
    "Failed to reject lead".

End WithEnv.

(** * Further operations of the sources *)

Section MoreOperations.

Variable env : Env.

(** ** src/services/crmService.ts, [updateCRMStatus] *)

(** [prisma.lead.findUnique] with [select: { crmId: true }]: [None] when no
    row has the id, else the row's crmId column. *)
Definition prisma_lead_findUnique_crmId (id : nat) : M (option (option string)) :=
  query env ;;;
  fun w => (Ok (l_crmId <$> leads w !! id), w).

(** [axios.patch] to the CRM.  The world keeps the payloads of the posts
    only; of a patch it keeps that the call was issued. *)
Definition axios_patch (crmId status : string) : M unit :=
  n <- issue env ;;
  match crmAnswer env n with
  | Some _ => ret tt
  | None => throw (AxiosError n)
  end.

Definition updateCRMStatus (leadId : nat) (status : string) : M bool :=
  try_catch
    (lead <- prisma_lead_findUnique_crmId leadId ;;
     match lead with
     | Some (Some (String c r as crmId)) =>
         axios_patch crmId status ;;;
         logger INFO "CRM status updated" ;;;
         ret true
     | _ =>
         (* !lead?.crmId *)
         logger WARN "Lead not synced to CRM yet" ;;;
         ret false
     end)
    (fun error =>
     logger ERROR "CRM status update failed" ;;;
     ret false).

(** ** src/routes/webhook.ts, [POST /api/webhook/lead] *)

(** The request as the handler reads it: the body after the validation
    chains have run (they trim name, phone, inquiry and materialType), the
    address and the two headers, and the errors [validationResult] holds. *)
Record LeadRequest := mkLeadRequest {
  body_name : string;
  body_email : string;
  body_phone : string;
  body_inquiry : string;
  body_materialType : option string;
  req_ip : option string;
  header_x_forwarded_for : option string;
  header_user_agent : option string;
  validationErrors : list string }.

Inductive WebhookResponse :=
  | Accepted200 (leadId : nat) (estimatedResponseTime : string)
  | Invalid400 (errors : list string)
  | Failed500 (message : string).

(** [a || b] where [b] may be undefined as well. *)
Definition or_else (a b : option string) : option string :=
  match a with
  | Some (String c r) => a
  | _ => b
  end.

Definition webhook_lead (req : LeadRequest) : World -> WebhookResponse * World :=
  fun w =>
    match validationErrors req with
    | _ :: _ => (Invalid400 (validationErrors req), w)
    | [] =>
        match
          (logger INFO "New lead received via webhook" ;;;
           let ipAddress := or_else (req_ip req) (header_x_forwarded_for req) in
           let userAgent := header_user_agent req in
           result <- leadOrchestrationWorkflow env
                       (mkLeadData (body_name req) (body_email req) (body_phone req)
                          (body_inquiry req) (body_materialType req)
                          (Some "website") ipAddress userAgent) ;;
           ret (Accepted200 (r_leadId result)
                  (if Qle_bool (8 # 10) (r_score result)
                   then "5 minutes" else "24 hours"))) w
        with
        | (Ok response, w') => (response, w')
        | (Throw error, w') =>
            (Failed500 "An error occurred while processing your request. Please try again.",
             set_logs (logs w' ++ [(ERROR, "Webhook processing failed")]) w')
        end
    end.

(** ** src/routes/analytics.ts, [GET /api/analytics/funnel] *)

(** [prisma.lead.count({ where })] *)
Definition prisma_lead_count (where_ : Lead -> bool) : M nat :=
  query env ;;;
  fun w => (Ok (length (List.filter where_ (leads w))), w).

(** [Promise.all] over promises that are started together: each one runs,
    whatever the others do; the results come in the order of the list, and
    a rejection of one of them rejects the whole. *)
Fixpoint Promise_all {A} (ms : list (M A)) : M (list A) :=
  match ms with
  | [] => ret []
  | m :: rest =>
      fun w =>
        match m w with
        | (Ok a, w1) =>
            match Promise_all rest w1 with
            | (Ok l, w2) => (Ok (a :: l), w2)
            | (Throw e, w2) => (Throw e, w2)
            end
        | (Throw e, w1) => (Throw e, snd (Promise_all rest w1))
        end
  end.

(** The stages of the funnel, as the handler lists them. *)
Definition funnelStatuses : list LeadStatus :=
  [NEW; CONTACTED; QUALIFIED; NURTURING; HOT; CONVERTED; LOST].

(** What the funnel answers: the count of each stage and their sum (the
    percentage of a stage is the print of count / totalLeads * 100 with two
    decimals, or 0 when the sum is 0; it is left to the caller). *)
Inductive FunnelResponse :=
  | Funnel200 (funnel : list (LeadStatus * nat)) (totalLeads : nat)
  | Funnel500 (error : string).

Definition analytics_funnel : World -> FunnelResponse * World :=
  fun w =>
    match
      (funnelData <- Promise_all
                       (map (fun status =>
                               count <- prisma_lead_count
                                          (fun l => bool_decide (l_status l = status)) ;;
                               ret (status, count))
                            funnelStatuses) ;;
       let totalLeads := fold_left (fun sum stage => (sum + snd stage)%nat) funnelData 0%nat in
       ret (Funnel200 funnelData totalLeads)) w
    with
    | (Ok response, w') => (response, w')
    | (Throw error, w') =>
        (Funnel500 "Failed to fetch analytics",
         set_logs (logs w' ++ [(ERROR, "Failed to fetch funnel data")]) w')
    end.

End MoreOperations.

(** * The vocabulary of the statements *)

#[local] Open Scope list_scope.

(** [wp m w Q]: running [m] from [w] ends in an outcome and a world that
    satisfy [Q]. *)
Definition wp {A} (m : M A) (w : World) (Q : Outcome A -> World -> Prop) : Prop :=
  Q (fst (m w)) (snd (m w)).

(** The columns of a lead that classification and routing write. *)
Definition routing_view (l : Lead)
    : LeadStatus * option Priority * option Z * option Persona * option Intent * option Q :=
  (l_status l, l_priority l, l_nurtureStage l, l_persona l, l_intent l, l_leadScore l).

Definition same_leads (w w' : World) : Prop :=
  (routing_view <$> leads w') = (routing_view <$> leads w).

Record Effects := mkEffects {
  new_tasks : list Task;
  new_wa : list WaRequest;
  new_mail : list MailRequest;
  new_unhandled : list Err }.

Definition no_effects : Effects := mkEffects [] [] [] [].

Definition effects_app (a b : Effects) : Effects :=
  mkEffects (new_tasks a ++ new_tasks b) (new_wa a ++ new_wa b)
            (new_mail a ++ new_mail b) (new_unhandled a ++ new_unhandled b).

(** [extends d w w']: from [w] to [w'] exactly [d] was appended to the
    tasks, to the provider calls and to the uncaught rejections. *)
Record extends (d : Effects) (w w' : World) : Prop := mkExtends {
  ext_tasks : tasks w' = tasks w ++ new_tasks d;
  ext_wa : waCalls w' = waCalls w ++ new_wa d;
  ext_mail : mailCalls w' = mailCalls w ++ new_mail d;
  ext_unhandled : unhandled w' = unhandled w ++ new_unhandled d;
  ext_calls : (calls w <= calls w')%nat }.

(** [rejected env w w' e]: [e] is the store's rejection of a call issued
    between [w] and [w']. *)
Definition rejected (env : Env) (w w' : World) (e : Err) : Prop :=
  exists n, (calls w <= n < calls w')%nat /\ dbFails env n = true /\ e = PrismaError n.

Section Vocabulary.

Variable env : Env.

(** The task [scheduleFollowUp] creates when the clock shows [now]. *)
Definition followUpTask (tid : nat) (now : Time) (id : nat) (days : Z) : Task :=
  new_task tid now
    (mkTaskInput id FollowUpCheckEngagement FollowUpBrief FOLLOW_UP MEDIUM None
                 (Some (now + days * 24 * 60 * 60 * 1000)))
    PENDING.

(** The task of one stage of the nurture campaign. *)
Definition nurtureTask (tid : nat) (now : Time) (id : nat) (p : Persona)
    (stage : Z * string) : Task :=
  new_task tid now
    (mkTaskInput id (NurtureDay (fst stage) (snd stage))
                 (NurtureBrief (snd stage) p) FOLLOW_UP LOW None
                 (Some (now + fst stage * 24 * 60 * 60 * 1000)))
    PENDING.

(** The branch that the if-else chain of step 4 takes. *)
Inductive Route := HighValue | TechnicalSpecs | PriceInquiry | Nurture.

Definition route (p : Persona) (i : Intent) (score : Q) : Route :=
  if isHighValueArchitect env p score then HighValue
  else if bool_decide (i = TECHNICAL_SPECS) then TechnicalSpecs
  else if bool_decide (i = PRICE_INQUIRY) then PriceInquiry
  else Nurture.

Definition routedStatus (b : Route) : LeadStatus :=
  match b with
  | HighValue => HOT
  | TechnicalSpecs | PriceInquiry => CONTACTED
  | Nurture => NURTURING
  end.

Definition routedStage (b : Route) : option Z :=
  match b with
  | Nurture => Some 1
  | _ => None
  end.

(** The request [sendWhatsApp] hands to Twilio. *)
Definition waRequest (to message : string) : WaRequest :=
  mkWaRequest (WHATSAPP_FROM env)
    (if String.prefix "whatsapp:" to then to else ("whatsapp:" ++ to)%string)
    message.

Definition reviewTask (tid : nat) (now : Time) (id : nat) (ld : LeadData)
    (c : Classification) : Task :=
  new_task tid now
    (mkTaskInput id (HighValueArchitectLead (name ld))
       (HighValueBrief (leadScore c) (intent c) (inquiry ld) (extractedEntities c))
       REVIEW_LEAD URGENT None (Some (now + 5 * 60 * 1000)))
    PENDING.

Definition quoteTask (tid : nat) (now : Time) (id : nat) (ld : LeadData)
    (c : Classification) : Task :=
  new_task tid now
    (mkTaskInput id (CallForPriceQuote (name ld))
       (PriceQuoteBrief (in_materialType ld) (extractedEntities c))
       CALL_LEAD (if Qle_bool (1 # 2) (leadScore c) then HIGH else MEDIUM)
       None (Some (now + 24 * 60 * 60 * 1000)))
    PENDING.

Definition specsMail (ld : LeadData) : MailRequest :=
  mkMailRequest (email ld)
    ("Technical Specifications - " ++ or_default (in_materialType ld) "Materials")%string
    (Html "technical-specs"
          (mkEmailData (name ld) (in_materialType ld) (inquiry ld))).

(** What a normal return of the workflow has appended, by branch.  The
    follow-up and the nurture tasks are created by calls that are not
    awaited: either they are all there, or the rejection of the store is
    among the uncaught ones. *)
Definition branch_effects (ld : LeadData) (w : World) (c : Classification)
    (d : Effects) : Prop :=
  let id := length (leads w) in
  let n := length (tasks w) in
  match route (persona c) (intent c) (leadScore c) with
  | HighValue =>
      exists now,
        d = mkEffects [reviewTask n now id ld c]
                      [waRequest (phone ld) (acknowledgment (name ld))] [] []
  | TechnicalSpecs =>
      exists msg,
        new_wa d = [waRequest (phone ld) msg] /\
        new_mail d = [specsMail ld] /\
        ((exists now, new_tasks d = [followUpTask n now id 3] /\ new_unhandled d = [])
         \/ (new_tasks d = [] /\ exists e, new_unhandled d = [e]))
  | PriceInquiry =>
      exists msg now,
        d = mkEffects [quoteTask n now id ld c] [waRequest (phone ld) msg] [] []
  | Nurture =>
      exists msg,
        new_wa d = [waRequest (phone ld) msg] /\
        new_mail d = [] /\
        ((exists c1 c2 c3 c4,
            new_tasks d =
              [nurtureTask n c1 id (persona c) (1, "design_inspiration");
               nurtureTask (n + 1) c2 id (persona c) (3, "budget_calculator");
               nurtureTask (n + 2) c3 id (persona c) (5, "customer_testimonials");
               nurtureTask (n + 3) c4 id (persona c) (7, "dealer_locator")] /\
            new_unhandled d = [])
         \/ (exists e, new_unhandled d = [e]))
  end.

Definition workflow_post (ld : LeadData) (w : World)
    (o : Outcome WorkflowResult) (w' : World) : Prop :=
  match o with
  | Throw e => rejected env w w' e
  | Ok r =>
      exists c d,
        r = mkResult true (length (leads w)) (persona c) (intent c) (leadScore c) NEW /\
        score_in_range (leadScore c) = true /\
        (routing_view <$> leads w') =
          (routing_view <$> leads w) ++
          [(routedStatus (route (persona c) (intent c) (leadScore c)),
            Some (priorityOfScore (leadScore c)),
            routedStage (route (persona c) (intent c) (leadScore c)),
            Some (persona c), Some (intent c), Some (leadScore c))] /\
        extends d w w' /\
        branch_effects ld w c d
  end.




End Vocabulary.

(** * Sample inputs

    The two scenarios of the implementation guide, and environments in which
    a chosen service is down. *)

Definition emptyWorld : World := mkWorld [] [] [] [] [] [] [] [] 0 1700000000000.

Definition arjun : LeadData :=
  mkLeadData "Arjun Mehta" "arjun@designstudio.in" "+919876543210"
    "I'm an architect working on a 50-unit residential project in Mumbai. Need laminate specifications and volume pricing for 5000 sq ft."
    (Some "Laminates") (Some "website") None None.

Definition priya : LeadData :=
  mkLeadData "Priya Sharma" "priya.sharma@gmail.com" "+919123456789"
    "Looking for flooring options for my 2BHK apartment"
    (Some "Flooring") None None None.

Definition architectSpecs : Classification :=
  mkClassification ARCHITECT TECHNICAL_SPECS (95 # 100)
    "Architect, large project, immediate need"
    (mkEntities (Some "Mumbai") (Some "50 units, 5000 sq ft") None None
                (Some URGENCY_HIGH)).

Definition architectDesign : Classification :=
  mkClassification ARCHITECT DESIGN_HELP (85 # 100)
    "Architect with a smaller project"
    (mkEntities None None None None None).

Definition architectModest : Classification :=
  mkClassification ARCHITECT DESIGN_HELP (6 # 10)
    "Architect, early enquiry"
    (mkEntities None None None None None).

Definition contractorSpecs : Classification :=
  mkClassification CONTRACTOR TECHNICAL_SPECS (75 # 100)
    "Contractor asking for data sheets"
    (mkEntities (Some "Pune") None None None None).


(** An environment by the value of the threshold variable, the calls the
    store rejects, and the answers of the classification model and of
    Twilio; the other services answer. *)
Definition sampleEnv (thresholdVar : option string) (rejects : nat -> bool)
    (model : option Classification) (twilio : option string) : Env :=
  mkEnv thresholdVar None None None rejects
        (fun _ => model)
        (fun _ => Some "Sharing the details you asked for; when would be a good time to talk?")
        (fun _ => twilio)
        (fun _ => Some "<1@designstudio.in>")
        (fun _ => Some "crm-1")
        (fun _ => 1 # 2)
        (fun _ => 40).

(** Every service answers. *)
Definition calm (c : Classification) : Env :=
  sampleEnv None (fun _ => false) (Some c) (Some "SM0001").

(** The store rejects its call number [k] and no other. *)
Definition storeRejects (k : nat) (c : Classification) : Env :=
  sampleEnv None (Nat.eqb k) (Some c) (Some "SM0001").


Definition modelDown : Env :=
  sampleEnv None (fun _ => false) None (Some "SM0001").

Definition thresholdSet (v : string) (c : Classification) : Env :=
  sampleEnv (Some v) (fun _ => false) (Some c) (Some "SM0001").

(** The world after Arjun's intake in the calm environment. *)
Definition afterArjun : World :=
  snd (leadOrchestrationWorkflow (calm architectSpecs) arjun emptyWorld).


(** * Further sample inputs *)

Definition homeownerPricing : Classification :=
  mkClassification HOMEOWNER PRICE_INQUIRY (6 # 10)
    "Homeowner asking for a quote"
    (mkEntities (Some "Jaipur") None (Some "2-3 lakh") None None).

(** The message model is down; the other services answer. *)
Definition messageModelDown (c : Classification) : Env :=
  mkEnv None None None None (fun _ => false) (fun _ => Some c) (fun _ => None)
        (fun _ => Some "SM0001") (fun _ => Some "<1@designstudio.in>")
        (fun _ => Some "crm-1") (fun _ => 1 # 2) (fun _ => 40).

(** * Further vocabulary *)

(** What a sender has done to the lead it was called for, [flag] being the
    column it sets: on true the lead carries the flag and the time of the
    contact, its other columns and the other leads being as they were; on
    false no lead has changed. *)
Definition contact_post (patch : Time -> Lead -> Lead) (flag : Lead -> bool)
    (id : nat) (w : World) (o : Outcome bool) (w' : World) : Prop :=
  tasks w' = tasks w /\
  match o with
  | Ok true =>
      exists l t,
        leads w !! id = Some l /\
        leads w' = <[id := patch t l]> (leads w) /\
        flag (patch t l) = true /\
        l_lastContactedAt (patch t l) = Some t /\
        routing_view (patch t l) = routing_view l /\
        l_id (patch t l) = l_id l /\ l_email (patch t l) = l_email l /\
        l_phone (patch t l) = l_phone l
  | Ok false => leads w' = leads w
  | Throw _ => False
  end.

(** The mail Arjun's lead is sent in the technical branch. *)
Definition specsOptions : EmailOptions :=
  mkEmailOptions (email arjun) "Technical Specifications - Laminates"
    "technical-specs"
    (mkEmailData (name arjun) (in_materialType arjun) (inquiry arjun))
    (Some 0%nat).

(** The CRM is configured; every service answers. *)
Definition crmConfigured (c : Classification) : Env :=
  mkEnv None (Some "https://crm.example.com/api") (Some "secret") None
        (fun _ => false) (fun _ => Some c)
        (fun _ => Some "Sharing the details you asked for.")
        (fun _ => Some "SM0001") (fun _ => Some "<1@designstudio.in>")
        (fun _ => Some "crm-1") (fun _ => 1 # 2) (fun _ => 40).

(** What the dashboard's [task.updateMany] leaves of the table [ts]: the
    PENDING tasks of the lead [id] changed by [g], every other task as it
    was, each at its place. *)
Definition tasks_reviewed (id : nat) (g : Task -> Task) (ts ts' : list Task) : Prop :=
  length ts' = length ts /\
  forall i t, ts !! i = Some t ->
    ts' !! i = Some (if bool_decide (t_leadId t = id /\ t_status t = PENDING)
                     then g t else t).

(** The store after a review action that answered 500: no task has changed;
    no lead has changed when the store rejected the action's first call or
    has no lead [id]; otherwise the store rejected the second call, and the
    lead carries the update [data] all the same. *)
Definition review_failure (env : Env) (id : nat) (data : Time -> Lead -> Lead)
    (w w' : World) : Prop :=
  tasks w' = tasks w /\
  (dbFails env (calls w) = true \/ leads w !! id = None -> leads w' = leads w) /\
  (dbFails env (calls w) = false ->
   forall l, leads w !! id = Some l ->
     dbFails env (S (calls w)) = true /\
     leads w' = <[id := data (clock w) l]> (leads w)).

(** * The store across operations *)

(** The columns of a lead that its intake fills in. *)
Definition identity (l : Lead)
    : nat * string * string * string * string * option string * string
      * option string * option string * Time :=
  (l_id l, l_name l, l_email l, l_phone l, l_inquiry l, l_materialType l,
   l_source l, l_ipAddress l, l_userAgent l, l_createdAt l).

(** The columns that the classification update writes together. *)
Definition rating (l : Lead)
    : option Persona * option Intent * option Q * option Priority :=
  (l_persona l, l_intent l, l_leadScore l, l_priority l).

Definition core (l : Lead) := (identity l, rating l).

(** [fixes m]: [m] neither adds nor removes a lead, and leaves the identity
    and the rating of every lead as they are. *)
Definition fixes {X} (m : World -> X * World) : Prop :=
  forall w, (core <$> leads (snd (m w))) = (core <$> leads w).

(** The identity of the lead that the workflow inserts for [ld] in [w]. *)
Definition submitted (ld : LeadData) (w : World)
    : nat * string * string * string * string * option string * string
      * option string * option string * Time :=
  (length (leads w), name ld, email ld, phone ld, inquiry ld, in_materialType ld,
   or_default (source ld) "website", ipAddress ld, userAgent ld, clock w).

Definition unrated : option Persona * option Intent * option Q * option Priority :=
  (None, None, None, None).

(** A rating is either empty or complete, with a score in [0,1] and the
    priority of that score. *)
Definition rating_ok
    (r : option Persona * option Intent * option Q * option Priority) : Prop :=
  r = unrated \/
  exists p i s, score_in_range s = true /\
                r = (Some p, Some i, Some s, Some (priorityOfScore s)).

Definition lead_ok (i : nat) (l : Lead) : Prop :=
  l_id l = i /\ rating_ok (rating l).

Definition consistent (w : World) : Prop :=
  forall i l, leads w !! i = Some l -> lead_ok i l.

(** One request to an endpoint, or one call of an exported function, run to
    its end. *)
Inductive operation (env : Env) : World -> World -> Prop :=
  | op_webhook_lead req w : operation env w (snd (webhook_lead env req w))
  | op_approve_lead id assignedTo notes w :
      operation env w (snd (approve_lead env id assignedTo notes w))
  | op_reject_lead id reason w : operation env w (snd (reject_lead env id reason w))
  | op_analytics_funnel w : operation env w (snd (analytics_funnel env w))
  | op_workflow ld w : operation env w (snd (leadOrchestrationWorkflow env ld w))
  | op_sendWhatsApp to message leadId w :
      operation env w (snd (sendWhatsApp env to message leadId w))
  | op_sendEmail options w :
      string_in (o_template options) ["technical-specs"; "welcome"; "nurture-day3"] = true ->
      operation env w (snd (sendEmail env options w))
  | op_createTask input w : operation env w (snd (createTask env input w))
  | op_enrichLead id mail ph w : operation env w (snd (enrichLead env id mail ph w))
  | op_syncToCRM id w : operation env w (snd (syncToCRM env id w))
  | op_updateCRMStatus id status w :
      operation env w (snd (updateCRMStatus env id status w)).

(** Any number of operations, one after the other. *)
Inductive reachable (env : Env) : World -> World -> Prop :=
  | reach_here w : reachable env w w
  | reach_step w w1 w2 :
      reachable env w w1 -> operation env w1 w2 -> reachable env w w2.

(** * Vocabulary and samples for the endpoints *)

(** Text within ASCII, where [toUpperCase] is the built-in. *)
Definition ascii_text (s : string) : bool :=
  forallb (fun c => (nat_of_ascii c <? 128)%nat) (list_ascii_of_string s).

(** The lead data that the webhook hands to the workflow. *)
Definition webhookData (req : LeadRequest) : LeadData :=
  mkLeadData (body_name req) (body_email req) (body_phone req)
    (body_inquiry req) (body_materialType req) (Some "website")
    (or_else (req_ip req) (header_x_forwarded_for req)) (header_user_agent req).

(** [prisma.lead.count({ where: { status } })] on a table. *)
Definition count_status (s : LeadStatus) (ls : list Lead) : nat :=
  length (List.filter (fun l => bool_decide (l_status l = s)) ls).

(** Arjun's form as the webhook receives it, valid. *)
Definition arjunRequest : LeadRequest :=
  mkLeadRequest (name arjun) (email arjun) (phone arjun) (inquiry arjun)
    (in_materialType arjun) (Some "203.0.113.7") None (Some "Mozilla/5.0") [].

(** Arjun's row after his intake. *)
Definition arjunStored : Lead :=
  default (new_lead 0 0 (mkLeadCreateData "" "" "" "" None "" None None NEW))
          (leads afterArjun !! 0%nat).

(** * Reasoning about computations *)

Lemma wp_run {A} (m : M A) w Q o w' :
  wp m w Q -> m w = (o, w') -> Q o w'.
Proof. unfold wp. intros H E. rewrite E in H. exact H. Qed.

Lemma wp_mono {A} (m : M A) w (Q Q' : Outcome A -> World -> Prop) :
  wp m w Q -> (forall o w', Q o w' -> Q' o w') -> wp m w Q'.
Proof. unfold wp. auto. Qed.

Lemma wp_conj {A} (m : M A) w (Q1 Q2 : Outcome A -> World -> Prop) :
  wp m w Q1 -> wp m w Q2 -> wp m w (fun o w' => Q1 o w' /\ Q2 o w').
Proof. unfold wp. auto. Qed.

Lemma wp_ret {A} (a : A) w Q : Q (Ok a) w -> wp (ret a) w Q.
Proof. auto. Qed.

Lemma wp_throw {A} e w (Q : Outcome A -> World -> Prop) :
  Q (Throw e) w -> wp (throw e) w Q.
Proof. auto. Qed.

Lemma wp_bind {A B} (m : M A) (k : A -> M B) w Q :
  wp m w (fun o w1 =>
            match o with
            | Ok a => wp (k a) w1 Q
            | Throw e => Q (Throw e) w1
            end) ->
  wp (bind m k) w Q.
Proof. unfold wp, bind. destruct (m w) as [[a|e] w1]; auto. Qed.

Lemma wp_try_catch {A} (m : M A) (h : Err -> M A) w Q :
  wp m w (fun o w1 =>
            match o with
            | Ok a => Q (Ok a) w1
            | Throw e => wp (h e) w1 Q
            end) ->
  wp (try_catch m h) w Q.
Proof. unfold wp, try_catch. destruct (m w) as [[a|e] w1]; auto. Qed.

Lemma wp_detach {A} (m : M A) w Q :
  wp m w (fun o w1 =>
            match o with
            | Ok _ => Q (Ok tt) w1
            | Throw e => Q (Ok tt) (set_unhandled (unhandled w1 ++ [e]) w1)
            end) ->
  wp (detach m) w Q.
Proof. unfold wp, detach. destruct (m w) as [[a|e] w1]; auto. Qed.

Lemma wp_detach_catch {A} (m : M A) (h : Err -> M unit) w Q :
  wp m w (fun o w1 =>
            match o with
            | Ok _ => Q (Ok tt) w1
            | Throw e => wp (h e) w1 Q
            end) ->
  wp (detach_catch m h) w Q.
Proof. unfold wp, detach_catch. destruct (m w) as [[a|e] w1]; auto. Qed.

Lemma wp_logger lv msg w Q :
  Q (Ok tt) (set_logs (logs w ++ [(lv, msg)]) w) -> wp (logger lv msg) w Q.
Proof. auto. Qed.

Lemma wp_Date_now w Q : Q (Ok (clock w)) w -> wp Date_now w Q.
Proof. auto. Qed.

(** ** What a run adds to the world *)

Lemma extends_refl w : extends no_effects w w.
Proof. split; simpl; rewrite ?app_nil_r; auto. Qed.

Lemma extends_trans d1 d2 w w1 w2 :
  extends d1 w w1 -> extends d2 w1 w2 -> extends (effects_app d1 d2) w w2.
Proof.
  intros [] []. split; simpl; rewrite ?app_assoc; try congruence. lia.
Qed.

Lemma same_leads_refl w : same_leads w w.
Proof. reflexivity. Qed.

Lemma same_leads_trans w w1 w2 :
  same_leads w w1 -> same_leads w1 w2 -> same_leads w w2.
Proof. unfold same_leads. congruence. Qed.

Lemma same_leads_lookup w w' i l :
  same_leads w w' -> leads w !! i = Some l ->
  exists l', leads w' !! i = Some l' /\ routing_view l' = routing_view l.
Proof.
  unfold same_leads. intros E H.
  assert ((routing_view <$> leads w') !! i = Some (routing_view l)) as H'.
  { rewrite E. rewrite list_lookup_fmap, H. reflexivity. }
  rewrite list_lookup_fmap in H'.
  destruct (leads w' !! i) as [l'|]; simpl in H'; [|discriminate].
  exists l'. split; [reflexivity|congruence].
Qed.

Lemma rejected_widen env w0 w w' w1 e :
  (calls w0 <= calls w)%nat -> (calls w' <= calls w1)%nat ->
  rejected env w w' e -> rejected env w0 w1 e.
Proof. intros L L' (n & R & F & E). exists n. repeat split; auto; lia. Qed.

Lemma extends_quiet_r d w w1 w2 :
  extends d w w1 -> extends no_effects w1 w2 -> extends d w w2.
Proof.
  intros [] []. simpl in *. rewrite app_nil_r in *.
  split; try congruence. lia.
Qed.

Lemma extends_quiet_l d w w1 w2 :
  extends no_effects w w1 -> extends d w1 w2 -> extends d w w2.
Proof.
  intros [] []. simpl in *. rewrite app_nil_r in *.
  split; try congruence. lia.
Qed.

Lemma app_singleton_neq {A} (l : list A) (x : A) : l ++ [x] <> l.
Proof.
  intros E. apply (f_equal length) in E. rewrite length_app in E. simpl in E. lia.
Qed.

Lemma lookup_app_last {A} (l : list A) (x : A) : (l ++ [x]) !! length l = Some x.
Proof. rewrite lookup_app_r by lia. rewrite Nat.sub_diag. reflexivity. Qed.

Lemma map_insert_same_view (ls : list Lead) i l l' :
  ls !! i = Some l -> routing_view l' = routing_view l ->
  (routing_view <$> <[i := l']> ls) = (routing_view <$> ls).
Proof.
  intros H E. rewrite list_fmap_insert, E.
  apply list_insert_id. rewrite list_lookup_fmap, H. reflexivity.
Qed.

Create HintDb frames.

Ltac wp_step :=
  lazymatch goal with
  | |- wp (bind _ _) _ _ => apply wp_bind
  | |- wp (try_catch _ _) _ _ => apply wp_try_catch
  | |- wp (detach_catch _ _) _ _ => apply wp_detach_catch
  | |- wp (detach _) _ _ => apply wp_detach
  | |- wp (ret _) _ _ => apply wp_ret
  | |- wp (throw _) _ _ => apply wp_throw
  | |- wp Date_now _ _ => apply wp_Date_now
  end.

Ltac wp_go := repeat (wp_step; cbv beta iota).

Ltac conjs := repeat match goal with |- _ /\ _ => split end.

(** Closes an [extends] goal from an [extends] fact about the same worlds
    up to fields that the step did not touch. *)
Ltac ext_solve :=
  match goal with
  | X : extends _ _ _ |- extends _ _ _ =>
      destruct X; split; simpl in *; rewrite ?app_nil_r in *; auto; congruence
  end.

Section Specs.

Variable env : Env.

(** Uses a specification at the head of the goal and names what it gives. *)
Ltac wp_use spec :=
  eapply wp_mono; [apply spec|]; cbv beta.

Lemma logger_spec lv msg w :
  wp (logger lv msg) w (fun o w' =>
    o = Ok tt /\ leads w' = leads w /\ interactions w' = interactions w /\
    clock w' = clock w /\ calls w' = calls w /\
    logs w' = logs w ++ [(lv, msg)] /\ extends no_effects w w').
Proof.
  unfold wp, logger. simpl. repeat split; simpl; rewrite ?app_nil_r; auto.
Qed.

Lemma query_spec w :
  wp (query env) w (fun o w' =>
    leads w' = leads w /\ interactions w' = interactions w /\
    logs w' = logs w /\ calls w' = S (calls w) /\
    extends no_effects w w' /\
    match o with
    | Ok _ => dbFails env (calls w) = false
    | Throw e => dbFails env (calls w) = true /\ e = PrismaError (calls w)
    end).
Proof.
  unfold wp, query, bind, issue. simpl.
  destruct (dbFails env (calls w)) eqn:F; simpl;
    repeat split; simpl; rewrite ?app_nil_r; auto.
Qed.

Lemma query_rejected w w' e :
  dbFails env (calls w) = true -> e = PrismaError (calls w) ->
  calls w' = S (calls w) -> rejected env w w' e.
Proof. intros F E C. exists (calls w). repeat split; auto; lia. Qed.

Lemma prisma_lead_create_spec d w :
  wp (prisma_lead_create env d) w (fun o w' =>
    extends no_effects w w' /\
    match o with
    | Ok l => l = new_lead (length (leads w)) (clock w) d /\
              leads w' = leads w ++ [l] /\ dbFails env (calls w) = false
    | Throw e => rejected env w w' e /\ leads w' = leads w /\
                 dbFails env (calls w) = true /\ e = PrismaError (calls w)
    end).
Proof.
  unfold prisma_lead_create. wp_step. wp_step. wp_step.
  wp_use query_spec. intros [[]|e] w' (L & I & Lg & C & X & O).
  - unfold wp; simpl. rewrite L. conjs; auto. ext_solve.
  - destruct O as [F ->]. conjs; auto. eapply query_rejected; eauto.
Qed.

Lemma prisma_lead_update_spec id f w :
  wp (prisma_lead_update env id f) w (fun o w' =>
    extends no_effects w w' /\
    (interactions w' = interactions w /\ logs w' = logs w /\
     calls w' = S (calls w) /\
     (dbFails env (calls w) = true -> o = Throw (PrismaError (calls w)))) /\
    match o with
    | Ok l' => exists l, leads w !! id = Some l /\ l' = f l /\
                         leads w' = <[id := f l]> (leads w)
    | Throw e => leads w' = leads w /\
                 (rejected env w w' e \/ (leads w !! id = None /\ e = RecordNotFound id))
    end).
Proof.
  unfold prisma_lead_update. wp_step.
  wp_use query_spec. intros [[]|e] w' (L & I & Lg & C & X & O).
  - unfold wp. rewrite L. destruct (leads w !! id) as [l|] eqn:E; simpl.
    + conjs; auto; [ext_solve|congruence|]. exists l. auto.
    + conjs; auto. congruence.
  - destruct O as [F ->]. conjs; auto. left. eapply query_rejected; eauto.
Qed.

Lemma prisma_task_create_spec input s w :
  wp (prisma_task_create env input s) w (fun o w' =>
    leads w' = leads w /\ interactions w' = interactions w /\
    match o with
    | Ok t => t = new_task (length (tasks w)) (clock w) input s /\
              extends (mkEffects [t] [] [] []) w w'
    | Throw e => rejected env w w' e /\ extends no_effects w w'
    end).
Proof.
  unfold prisma_task_create. wp_step. wp_step. wp_step.
  wp_use query_spec. intros [[]|e] w' (L & I & Lg & C & X & O).
  - unfold wp; simpl.
    assert (tasks w' = tasks w) as T
      by (destruct X as [T ? ? ? ?]; simpl in T; rewrite app_nil_r in T; exact T).
    rewrite T. conjs; auto. ext_solve.
  - destruct O as [F ->]. conjs; auto. eapply query_rejected; eauto.
Qed.

Lemma prisma_interaction_create_spec i w :
  wp (prisma_interaction_create env i) w (fun o w' =>
    leads w' = leads w /\ extends no_effects w w' /\
    logs w' = logs w /\
    match o with
    | Ok _ => interactions w' = interactions w ++ [i] /\
              dbFails env (calls w) = false
    | Throw e => interactions w' = interactions w /\
                 dbFails env (calls w) = true
    end).
Proof.
  unfold prisma_interaction_create. wp_step.
  wp_use query_spec. intros [[]|e] w' (L & I & Lg & C & X & O).
  - unfold wp; simpl. rewrite I. conjs; auto. ext_solve.
  - destruct O as [F ->]. conjs; auto.
Qed.

Lemma createTask_spec input w :
  wp (createTask env input) w (fun o w' =>
    leads w' = leads w /\ interactions w' = interactions w /\
    match o with
    | Ok t => t = new_task (length (tasks w)) (clock w) input PENDING /\
              extends (mkEffects [t] [] [] []) w w'
    | Throw e => rejected env w w' e /\ extends no_effects w w'
    end).
Proof.
  unfold createTask. wp_step. wp_step.
  wp_use prisma_task_create_spec. intros [t|e] w1 (L & I & O).
  - destruct O as [-> X]. wp_step.
    wp_use logger_spec. intros o w2 (-> & L2 & I2 & _ & _ & _ & X2).
    wp_step. conjs; try congruence. eapply extends_quiet_r; eauto.
  - destruct O as [R X]. wp_step.
    wp_use logger_spec. intros o w2 (-> & L2 & I2 & _ & _ & _ & X2).
    wp_step. conjs; try congruence.
    + eapply rejected_widen; [| |exact R]; [lia|apply X2].
    + eapply extends_quiet_r; eauto.
Qed.

Lemma leads_eq_same w w' : leads w' = leads w -> same_leads w w'.
Proof. unfold same_leads. intros ->. reflexivity. Qed.

#[local] Hint Resolve same_leads_refl extends_refl leads_eq_same : frames.
#[local] Hint Resolve same_leads_trans extends_quiet_r : frames.

Lemma update_same_leads w w' id l l' :
  leads w !! id = Some l -> leads w' = <[id := l']> (leads w) ->
  routing_view l' = routing_view l -> same_leads w w'.
Proof.
  unfold same_leads. intros H -> E. eapply map_insert_same_view; eauto.
Qed.

(** Chains the frame facts of the steps taken so far. *)
Ltac ext_chain :=
  lazymatch goal with
  | |- extends _ ?w ?w => apply extends_refl
  | H : extends no_effects ?w1 ?w2 |- extends _ _ ?w2 =>
      eapply extends_quiet_r; [|exact H]; ext_chain
  | H : extends ?d ?w1 ?w2 |- extends ?d _ ?w2 =>
      first [exact H | eapply extends_quiet_l; [|exact H]; ext_chain]
  end.

Ltac leads_chain :=
  lazymatch goal with
  | |- same_leads ?w ?w => apply same_leads_refl
  | H : same_leads ?w1 ?w2 |- same_leads _ ?w2 =>
      eapply same_leads_trans; [|exact H]; leads_chain
  | H : leads ?w2 = leads ?w1 |- same_leads _ ?w2 =>
      eapply same_leads_trans; [|apply leads_eq_same, H]; leads_chain
  end.

Ltac frame := conjs; first [ext_chain | leads_chain | eauto].

(** A logger step: the world it leaves is named, its frame facts kept. *)
Ltac wp_log :=
  eapply wp_mono; [apply logger_spec|]; cbv beta;
  let o := fresh "o" in let w := fresh "w" in
  let L := fresh "L" in let X := fresh "X" in
  intros o w (-> & L & _ & _ & _ & _ & X).

Lemma issue_spec w :
  wp (issue env) w (fun o w' =>
    o = Ok (calls w) /\ leads w' = leads w /\ interactions w' = interactions w /\
    logs w' = logs w /\ calls w' = S (calls w) /\ extends no_effects w w').
Proof.
  unfold wp, issue. simpl. conjs; auto. split; simpl; rewrite ?app_nil_r; auto.
Qed.

Lemma generateObject_classification_spec w :
  wp (generateObject_classification env) w (fun o w' =>
    same_leads w w' /\ extends no_effects w w' /\
    match o with
    | Ok c => score_in_range (leadScore c) = true
    | Throw _ => True
    end).
Proof.
  unfold generateObject_classification. wp_step.
  wp_use issue_spec. intros o w' (-> & L & _ & _ & _ & X).
  destruct (modelClassification env (calls w)) as [c|]; [|wp_step; auto with frames].
  destruct (score_in_range (leadScore c)) eqn:S; wp_step; auto with frames.
Qed.

Lemma classifyLead_spec leadData w :
  wp (classifyLead env leadData) w (fun o w' =>
    same_leads w w' /\ extends no_effects w w' /\
    exists c, o = Ok c /\ score_in_range (leadScore c) = true).
Proof.
  unfold classifyLead. wp_step. wp_step.
  wp_use logger_spec. intros o w1 (-> & L1 & _ & _ & _ & _ & X1).
  wp_step.
  wp_use generateObject_classification_spec. intros [c|e] w2 (L2 & X2 & O).
  - wp_step. wp_use logger_spec. intros o w3 (-> & L3 & _ & _ & _ & _ & X3).
    wp_step. conjs; eauto 6 with frames.
  - wp_step. wp_use logger_spec. intros o w3 (-> & L3 & _ & _ & _ & _ & X3).
    wp_step. conjs; eauto 6 with frames.
Qed.

Lemma generatePersonalizedMessage_spec p i n e w :
  wp (generatePersonalizedMessage env p i n e) w (fun o w' =>
    same_leads w w' /\ extends no_effects w w' /\ exists msg, o = Ok msg).
Proof.
  unfold generatePersonalizedMessage, generateObject_message.
  wp_step. wp_step. wp_step.
  wp_use issue_spec. intros o w1 (-> & L & _ & _ & _ & X).
  destruct (modelMessage env (calls w)) as [s|]; wp_step.
  - wp_step. conjs; eauto with frames.
  - wp_step. wp_use logger_spec. intros o w3 (-> & L3 & _ & _ & _ & _ & X3).
    wp_step. conjs; eauto 6 with frames.
Qed.

Lemma client_messages_create_spec req w :
  wp (client_messages_create env req) w (fun o w' =>
    leads w' = leads w /\ interactions w' = interactions w /\
    calls w' = S (calls w) /\ logs w' = logs w /\
    extends (mkEffects [] [req] [] []) w w' /\
    match o with
    | Ok sid => twilioAnswer env (calls w) = Some sid
    | Throw e => twilioAnswer env (calls w) = None
    end).
Proof.
  unfold client_messages_create. wp_step.
  wp_use issue_spec. intros o w1 (-> & L & I & Lg & C & X).
  unfold wp. destruct X.
  destruct (twilioAnswer env (calls w)) as [sid|]; simpl; conjs; auto;
    split; simpl in *; rewrite ?app_nil_r in *; auto; congruence.
Qed.

Lemma transporter_sendMail_spec req w :
  wp (transporter_sendMail env req) w (fun o w' =>
    leads w' = leads w /\ interactions w' = interactions w /\
    calls w' = S (calls w) /\ logs w' = logs w /\
    extends (mkEffects [] [] [req] []) w w' /\
    match o with
    | Ok mid => smtpAnswer env (calls w) = Some mid
    | Throw e => smtpAnswer env (calls w) = None
    end).
Proof.
  unfold transporter_sendMail. wp_step.
  wp_use issue_spec. intros o w1 (-> & L & I & Lg & C & X).
  unfold wp. destruct X.
  destruct (smtpAnswer env (calls w)) as [mid|]; simpl; conjs; auto;
    split; simpl in *; rewrite ?app_nil_r in *; auto; congruence.
Qed.

(** After the provider call, a sender logs the interaction and marks the
    lead; whatever the store does, the routing columns stay. *)
Lemma sender_log_spec (i : Time -> Interaction) id (f : Time -> Lead -> Lead) w :
  (forall t l, routing_view (f t l) = routing_view l) ->
  wp (sentAt <- Date_now ;;
      prisma_interaction_create env (i sentAt) ;;;
      lastContactedAt <- Date_now ;;
      prisma_lead_update env id (f lastContactedAt) ;;;
      ret tt) w
     (fun o w' => same_leads w w' /\ extends no_effects w w').
Proof.
  intros Hf. wp_step. wp_step. wp_step.
  wp_use prisma_interaction_create_spec. intros [[]|e] w1 (L1 & X1 & O1);
    [|frame].
  wp_step. wp_step. wp_step.
  wp_use prisma_lead_update_spec. intros [l'|e] w2 (X2 & _ & O2).
  - destruct O2 as (l & Hl & -> & L2). wp_step.
    assert (same_leads w1 w2) by (eapply update_same_leads; eauto).
    frame.
  - destruct O2 as (L2 & _). frame.
Qed.

Lemma sendWhatsApp_spec to message id w :
  wp (sendWhatsApp env to message (Some id)) w (fun o w' =>
    same_leads w w' /\
    extends (mkEffects []
               [mkWaRequest (WHATSAPP_FROM env)
                  (if String.prefix "whatsapp:" to then to
                   else ("whatsapp:" ++ to)%string)
                  message] [] []) w w' /\
    exists b, o = Ok b).
Proof.
  unfold sendWhatsApp. wp_step. wp_step. wp_log. wp_step.
  wp_use client_messages_create_spec. intros [sid|e] w2 (L2 & _ & _ & _ & X2 & _).
  - wp_step. wp_log. wp_step.
    wp_use (sender_log_spec
              (fun sentAt => mkInteraction id INITIAL_RESPONSE WHATSAPP OUTBOUND None
                               (Plain message) SENT (Some sentAt) sid)
              id data_whatsappSent).
    { reflexivity. }
    intros [[]|e] w4 (L4 & X4).
    + wp_step. frame.
    + wp_step. wp_log. wp_step. frame.
  - wp_step. wp_log. wp_step. frame.
Qed.

Lemma sendEmail_spec options id w :
  o_leadId options = Some id ->
  wp (sendEmail env options) w (fun o w' =>
    same_leads w w' /\
    extends (mkEffects [] []
               [mkMailRequest (o_to options) (o_subject options)
                  (generateEmailHTML (o_template options) (o_data options))] [])
            w w' /\
    exists b, o = Ok b).
Proof.
  intros Hid. unfold sendEmail. rewrite Hid. wp_step. wp_step. wp_log. wp_step.
  wp_use transporter_sendMail_spec. intros [mid|e] w2 (L2 & _ & _ & _ & X2 & _).
  - wp_step. wp_log. wp_step.
    wp_use (sender_log_spec
              (fun sentAt =>
                 mkInteraction id
                   (if String.eqb (o_template options) "technical-specs"
                    then TECHNICAL_INFO else INITIAL_RESPONSE)
                   EMAIL OUTBOUND (Some (o_subject options))
                   (generateEmailHTML (o_template options) (o_data options))
                   SENT (Some sentAt) mid)
              id data_emailSent).
    { reflexivity. }
    intros [[]|e] w4 (L4 & X4).
    + wp_step. frame.
    + wp_step. wp_log. wp_step. frame.
  - wp_step. wp_log. wp_step. frame.
Qed.

Lemma simulateEnrichment_spec mail w :
  wp (simulateEnrichment env mail) w (fun o w' =>
    leads w' = leads w /\ extends no_effects w w' /\ exists x, o = Ok x).
Proof.
  assert (extends no_effects w (sleep 1000 w).2) as X.
  { split; simpl; rewrite ?app_nil_r; auto. }
  unfold wp, simulateEnrichment, bind, Math_random, ret.
  change (sleep 1000 w) with ((Ok tt, (sleep 1000 w).2)).
  cbv iota beta.
  repeat case_match; simpl; conjs; eauto.
Qed.

Lemma enrichLead_spec id mail ph w :
  wp (enrichLead env id mail ph) w (fun o w' =>
    same_leads w w' /\ extends no_effects w w' /\ o = Ok tt).
Proof.
  unfold enrichLead. wp_step. wp_step. wp_log. wp_step.
  wp_use simulateEnrichment_spec. intros o w2 (L2 & X2 & x & ->).
  wp_step.
  wp_use prisma_lead_update_spec. intros [l'|e] w3 (X3 & _ & O3).
  - destruct O3 as (l & Hl & -> & L3).
    assert (same_leads w2 w3) by (eapply update_same_leads; eauto).
    wp_log. frame.
  - destruct O3 as (L3 & _). wp_log. frame.
Qed.

Lemma prisma_lead_findUnique_spec id w :
  wp (prisma_lead_findUnique env id) w (fun o w' =>
    leads w' = leads w /\ extends no_effects w w').
Proof.
  unfold prisma_lead_findUnique. wp_step.
  wp_use query_spec. intros [[]|e] w' (L & I & Lg & C & X & O).
  - unfold wp; simpl. auto.
  - auto.
Qed.

Lemma axios_post_spec payload w :
  wp (axios_post env payload) w (fun o w' =>
    leads w' = leads w /\ extends no_effects w w').
Proof.
  unfold axios_post. wp_step.
  wp_use issue_spec. intros o w1 (-> & L & I & _ & C & X).
  unfold wp. destruct (crmAnswer env (calls w)); simpl; conjs; auto; ext_solve.
Qed.

Lemma syncToCRM_spec id w :
  wp (syncToCRM env id) w (fun o w' =>
    same_leads w w' /\ extends no_effects w w' /\ exists b, o = Ok b).
Proof.
  unfold syncToCRM. wp_step.
  destruct (falsy (CRM_API_URL env) || falsy (CRM_API_KEY env)).
  { wp_step. wp_log. wp_step. frame. }
  wp_step.
  wp_use prisma_lead_findUnique_spec. intros [found|e] w1 (L1 & X1);
    [|wp_step; wp_log; wp_step; frame].
  destruct found as [[[lead its] ts]|];
    [|wp_step; wp_step; wp_log; wp_step; frame].
  wp_step. wp_log. wp_step.
  wp_use axios_post_spec. intros [response|e] w3 (L3 & X3);
    [|wp_step; wp_log; wp_step; frame].
  wp_go.
  wp_use prisma_lead_update_spec. intros [l'|e] w4 (X4 & _ & O4).
  - destruct O4 as (l & Hl & -> & L4).
    assert (same_leads w3 w4) by (eapply update_same_leads; eauto).
    wp_step. wp_log. wp_step. frame.
  - destruct O4 as (L4 & _). wp_step. wp_log. wp_step. frame.
Qed.

Lemma scheduleFollowUp_spec id days w :
  wp (scheduleFollowUp env id days) w (fun o w' =>
    leads w' = leads w /\
    match o with
    | Ok _ => extends (mkEffects [followUpTask (length (tasks w)) (clock w) id days]
                                 [] [] []) w w'
    | Throw e => rejected env w w' e /\ extends no_effects w w'
    end).
Proof.
  unfold scheduleFollowUp. wp_step. wp_step. wp_step.
  wp_use createTask_spec. intros [t|e] w1 (L1 & _ & O1).
  - destruct O1 as [-> X1]. wp_log. split; [congruence|].
    eapply extends_quiet_r; eauto.
  - auto.
Qed.

Lemma nurture_stage_spec id p stage w :
  wp (now <- Date_now ;;
      createTask env
        (mkTaskInput id (NurtureDay (fst stage) (snd stage))
           (NurtureBrief (snd stage) p) FOLLOW_UP LOW None
           (Some (now + fst stage * 24 * 60 * 60 * 1000))) ;;;
      ret tt) w
     (fun o w' =>
        leads w' = leads w /\
        match o with
        | Ok _ => extends (mkEffects [nurtureTask (length (tasks w)) (clock w) id p stage]
                                     [] [] []) w w'
        | Throw e => rejected env w w' e /\ extends no_effects w w'
        end).
Proof.
  wp_step. wp_step. wp_step.
  wp_use createTask_spec. intros [t|e] w1 (L1 & _ & O1).
  - destruct O1 as [-> X1]. wp_step. auto.
  - auto.
Qed.

Lemma extends_length_tasks d w w' :
  extends d w w' -> length (tasks w') = (length (tasks w) + length (new_tasks d))%nat.
Proof. intros []. rewrite ext_tasks0, length_app. reflexivity. Qed.

Lemma startNurtureCampaign_spec id p w :
  wp (startNurtureCampaign env id p) w (fun o w' =>
    leads w' = leads w /\
    match o with
    | Ok _ =>
        exists c1 c2 c3 c4,
          extends
            (mkEffects
               [nurtureTask (length (tasks w)) c1 id p (1, "design_inspiration");
                nurtureTask (length (tasks w) + 1) c2 id p (3, "budget_calculator");
                nurtureTask (length (tasks w) + 2) c3 id p (5, "customer_testimonials");
                nurtureTask (length (tasks w) + 3) c4 id p (7, "dealer_locator")]
               [] [] []) w w'
    | Throw e =>
        rejected env w w' e /\ exists ts, extends (mkEffects ts [] [] []) w w'
    end).
Proof.
  unfold startNurtureCampaign, nurtureSchedule. cbn [for_of].
  wp_step. wp_step.
  wp_use nurture_stage_spec. intros [[]|e] w1 (L1 & O1);
    [|destruct O1; split; [congruence|split; eauto]].
  pose proof (extends_length_tasks _ _ _ O1) as N1. simpl in N1.
  wp_step.
  wp_use nurture_stage_spec. intros [[]|e] w2 (L2 & O2).
  2:{ destruct O2 as [R2 X2]. split; [congruence|]. split.
      - eapply rejected_widen; [apply O1|reflexivity|exact R2].
      - eexists. eapply extends_quiet_r; eauto. }
  pose proof (extends_trans _ _ _ _ _ O1 O2) as X12. simpl in X12.
  pose proof (extends_length_tasks _ _ _ X12) as N2. simpl in N2.
  wp_step.
  wp_use nurture_stage_spec. intros [[]|e] w3 (L3 & O3).
  2:{ destruct O3 as [R3 X3]. split; [congruence|]. split.
      - eapply rejected_widen; [apply X12|reflexivity|exact R3].
      - eexists. eapply extends_quiet_r; eauto. }
  pose proof (extends_trans _ _ _ _ _ X12 O3) as X13. simpl in X13.
  pose proof (extends_length_tasks _ _ _ X13) as N3. simpl in N3.
  wp_step.
  wp_use nurture_stage_spec. intros [[]|e] w4 (L4 & O4).
  2:{ destruct O4 as [R4 X4]. split; [congruence|]. split.
      - eapply rejected_widen; [apply X13|reflexivity|exact R4].
      - eexists. eapply extends_quiet_r; eauto. }
  pose proof (extends_trans _ _ _ _ _ X13 O4) as X14. simpl in X14.
  wp_step. wp_log. split; [congruence|].
  exists (clock w), (clock w1), (clock w2), (clock w3).
  rewrite N1, N2, N3 in X14.
  eapply extends_quiet_r; eauto.
Qed.

(** ** The orchestration sequence as a whole *)

Lemma view_after_update (w w' : World) base v id l (f : Lead -> Lead) :
  (routing_view <$> leads w) = base ++ [v] -> id = length base ->
  leads w !! id = Some l -> leads w' = <[id := f l]> (leads w) ->
  routing_view l = v /\
  (routing_view <$> leads w') = base ++ [routing_view (f l)].
Proof.
  intros V -> Hl ->.
  assert ((routing_view <$> leads w) !! length base = Some (routing_view l)) as H
    by (rewrite list_lookup_fmap, Hl; reflexivity).
  rewrite V, lookup_app_last in H. injection H as <-.
  split; [reflexivity|].
  rewrite list_fmap_insert, V.
  rewrite insert_app_r_alt by lia. rewrite Nat.sub_diag. reflexivity.
Qed.

Lemma view_found (w : World) base v id :
  (routing_view <$> leads w) = base ++ [v] -> id = length base ->
  exists l, leads w !! id = Some l /\ routing_view l = v.
Proof.
  intros V ->.
  assert ((routing_view <$> leads w) !! length base = Some v) as H
    by (rewrite V; apply lookup_app_last).
  rewrite list_lookup_fmap in H.
  destruct (leads w !! length base) as [l|]; simpl in H; [|discriminate].
  exists l. split; congruence.
Qed.

Lemma view_same_leads (w w' : World) base v :
  (routing_view <$> leads w) = base ++ [v] -> same_leads w w' ->
  (routing_view <$> leads w') = base ++ [v].
Proof. unfold same_leads. congruence. Qed.

(** Brings every frame fact down to the call counters. *)
Ltac calls_le :=
  repeat match goal with
         | H : extends _ _ _ |- _ => apply ext_calls in H
         end;
  lia.

(** The workflow's own handler: log and rethrow. *)
Ltac rethrown :=
  wp_step; wp_log; wp_step; cbv beta iota; unfold workflow_post;
  match goal with
  | R : rejected _ _ _ _ |- _ =>
      eapply rejected_widen; [| |exact R]; calls_le
  end.

(** Carries the frame [X] and the view [V] of the run so far over the step
    that was just taken. *)
Ltac carry_frame X :=
  match type of X with
  | extends _ _ ?wk =>
      match goal with
      | Y : extends _ wk _ |- _ =>
          let Z := fresh "X" in
          pose proof (extends_trans _ _ _ _ _ X Y) as Z;
          unfold effects_app, no_effects in Z;
          cbn [new_tasks new_wa new_mail new_unhandled app] in Z;
          clear X Y; rename Z into X
      end
  end.

Ltac carry_view V :=
  match type of V with
  | (routing_view <$> leads ?wa) = _ =>
      match goal with
      | H : same_leads wa ?wb |- _ =>
          apply (view_same_leads _ wb) in V; [clear H|exact H]
      | H : leads ?wb = leads wa |- _ =>
          apply (view_same_leads _ wb) in V; [clear H|apply leads_eq_same; exact H]
      end
  end.

Ltac carry X V := carry_frame X; try carry_view V.

(** Step 5 and the return. *)
Lemma workflow_tail_spec id (r : WorkflowResult) w :
  wp (detach_catch (syncToCRM env id)
        (fun err => logger ERROR "CRM sync failed") ;;;
      logger INFO "Lead orchestration workflow completed" ;;;
      ret r) w
     (fun o w' => o = Ok r /\ same_leads w w' /\ extends no_effects w w').
Proof.
  wp_step. wp_step.
  wp_use syncToCRM_spec. intros o w1 (S1 & X1 & b & ->).
  wp_step. wp_log. wp_step. frame.
Qed.

(** An update of the lead that the run has created. *)
Lemma update_routed_spec id base v (f : Lead -> Lead) v' w :
  routing_view <$> leads w = base ++ [v] -> id = length base ->
  (forall l, routing_view l = v -> routing_view (f l) = v') ->
  wp (prisma_lead_update env id f) w (fun o w' =>
    extends no_effects w w' /\
    match o with
    | Ok _ => routing_view <$> leads w' = base ++ [v']
    | Throw e => rejected env w w' e
    end).
Proof.
  intros V Hid Hf.
  wp_use prisma_lead_update_spec. intros [l'|e] w' (X & _ & O); split; auto.
  - destruct O as (l & Hl & -> & L).
    destruct (view_after_update _ _ _ _ _ _ _ V Hid Hl L) as [Vl V'].
    rewrite V', (Hf l Vl). reflexivity.
  - destruct O as (L & [R|[N _]]); [exact R|].
    destruct (view_found _ _ _ _ V Hid) as (l & Hl & _). congruence.
Qed.

(** Rewrites the number of tasks of the current world to that of the
    world the run started from. *)
Ltac tasks_len X :=
  let N := fresh "N" in
  pose proof (extends_length_tasks _ _ _ X) as N;
  cbn [new_tasks length] in N; rewrite ?Nat.add_0_r in N;
  rewrite ?N in *; clear N.

(** A call that is not awaited, with the world it leaves named. *)
Lemma wp_detach_frame {A} (m : M A) w Q :
  wp m w (fun o w1 =>
            forall w2, leads w2 = leads w1 ->
              extends (match o with
                       | Ok _ => no_effects
                       | Throw e => mkEffects [] [] [] [e]
                       end) w1 w2 ->
              Q (Ok tt) w2) ->
  wp (detach m) w Q.
Proof.
  intros H. apply wp_detach. eapply wp_mono; [exact H|].
  intros [a|e] w1 H1; apply H1; auto using extends_refl.
  split; simpl; rewrite ?app_nil_r; auto.
Qed.

(** Closes the case of a normal return from the frame and the view. *)
Ltac route_known :=
  unfold branch_effects, route;
  repeat match goal with
         | H : isHighValueArchitect _ _ _ = _ |- _ => rewrite H
         | H : bool_decide _ = _ |- _ => rewrite H
         end.

Ltac returned c V X :=
  unfold workflow_post; exists c; eexists;
  split; [reflexivity|];
  split; [assumption|];
  split; [rewrite V; route_known; reflexivity|];
  split; [exact X|];
  route_known.

Ltac view_eq :=
  let l := fresh "l" in let E := fresh "E" in
  intros l E; unfold routing_view in *; simpl; congruence.

Lemma leadOrchestrationWorkflow_spec ld w :
  wp (leadOrchestrationWorkflow env ld) w (workflow_post env ld w).
Proof.
  unfold leadOrchestrationWorkflow.
  wp_step. wp_step. wp_log. wp_step.
  wp_use prisma_lead_create_spec. intros [lead|e] w1 (X1 & O1).
  2:{ destruct O1 as (R & _ & _ & _). rethrown. }
  destruct O1 as (-> & L1 & _). rewrite L in L1. rewrite L in *.
  cbn [l_id new_lead l_status].
  set (id := length (leads w)) in *.
  assert (id = length (routing_view <$> leads w)) as Hid
    by (unfold id; rewrite length_fmap; reflexivity).
  assert (routing_view <$> leads w1 =
          (routing_view <$> leads w) ++ [(NEW, None, None, None, None, None)]) as V.
  { rewrite L1, fmap_app. reflexivity. }
  clear L1 L. carry_frame X.
  wp_step. wp_log. carry X V.
  wp_step.
  wp_use classifyLead_spec. intros o wC (SC & XC & c & -> & Hc). carry X V.
  wp_step.
  wp_use (update_routed_spec id _ _
            (data_classification c (priorityOfScore (leadScore c)))
            (NEW, Some (priorityOfScore (leadScore c)), @None Z,
             Some (persona c), Some (intent c), Some (leadScore c)) _ V Hid);
    [view_eq|].
  intros [?|e] wU (XU & OU); [|rethrown].
  clear V; rename OU into V. carry_frame X.
  wp_step. wp_log. carry X V.
  wp_step. wp_step.
  wp_use enrichLead_spec. intros o wE (SE & XE & ->). carry X V.
  wp_step.
  destruct (isHighValueArchitect env (persona c) (leadScore c)) eqn:HV.
  - (* high-value architect *)
    wp_step. wp_log. carry X V.
    wp_go.
    wp_use createTask_spec. intros [t|e] wT (LT & _ & OT).
    2:{ destruct OT as [R XT]. rethrown. }
    destruct OT as [-> XT]. tasks_len X. carry X V.
    wp_step.
    wp_use sendWhatsApp_spec. intros o wW (SW & XW & b & ->). carry X V.
    wp_step.
    wp_use (update_routed_spec id _ _ (data_status HOT)
              (HOT, Some (priorityOfScore (leadScore c)), @None Z,
               Some (persona c), Some (intent c), Some (leadScore c)) _ V Hid);
      [view_eq|].
    intros [?|e] wS (XS & OS); [|rethrown].
    clear V; rename OS into V. carry_frame X.
    wp_step.
    wp_use workflow_tail_spec. intros o wF (-> & SF & XF). carry X V.
    returned c V X. eexists. reflexivity.
  - destruct (bool_decide (intent c = TECHNICAL_SPECS)) eqn:HT;
      [|destruct (bool_decide (intent c = PRICE_INQUIRY)) eqn:HP].
    + (* technical specifications *)
      wp_step. wp_log. carry X V.
      wp_step.
      wp_use generatePersonalizedMessage_spec.
      intros o wG (SG & XG & msg & ->). carry X V.
      wp_step.
      wp_use sendWhatsApp_spec. intros o wW (SW & XW & b & ->). carry X V.
      wp_step.
      eapply wp_mono; [apply sendEmail_spec with (id := id); reflexivity|].
      cbv beta.
      intros o wM (SM & XM & b' & ->). carry X V.
      wp_step.
      wp_use (update_routed_spec id _ _ (data_status CONTACTED)
                (CONTACTED, Some (priorityOfScore (leadScore c)), @None Z,
                 Some (persona c), Some (intent c), Some (leadScore c)) _ V Hid);
        [view_eq|].
      intros [?|e] wS (XS & OS); [|rethrown].
      clear V; rename OS into V. carry_frame X.
      apply wp_detach_frame.
      wp_use scheduleFollowUp_spec. intros [[]|e] wD (LD & OD) wD' LD' XD'.
      * tasks_len X. carry X V. carry X V.
        wp_use workflow_tail_spec. intros o wF (-> & SF & XF). carry X V.
        returned c V X.
        eexists. split; [reflexivity|]. split; [reflexivity|].
        left. eexists. split; reflexivity.
      * destruct OD as [R XD]. carry X V. carry X V.
        wp_use workflow_tail_spec. intros o wF (-> & SF & XF). carry X V.
        returned c V X.
        eexists. split; [reflexivity|]. split; [reflexivity|].
        right. split; [reflexivity|]. eexists. reflexivity.
    + (* price inquiry *)
      wp_step. wp_log. carry X V.
      wp_step.
      wp_use generatePersonalizedMessage_spec.
      intros o wG (SG & XG & msg & ->). carry X V.
      wp_step.
      wp_use sendWhatsApp_spec. intros o wW (SW & XW & b & ->). carry X V.
      wp_step.
      wp_use (update_routed_spec id _ _ (data_status CONTACTED)
                (CONTACTED, Some (priorityOfScore (leadScore c)), @None Z,
                 Some (persona c), Some (intent c), Some (leadScore c)) _ V Hid);
        [view_eq|].
      intros [?|e] wS (XS & OS); [|rethrown].
      clear V; rename OS into V. carry_frame X.
      wp_go.
      wp_use createTask_spec. intros [t|e] wT (LT & _ & OT).
      2:{ destruct OT as [R XT]. rethrown. }
      destruct OT as [-> XT]. tasks_len X. carry X V.
      wp_step.
      wp_use workflow_tail_spec. intros o wF (-> & SF & XF). carry X V.
      returned c V X. eexists. eexists. reflexivity.
    + (* nurture *)
      wp_step. wp_log. carry X V.
      wp_step.
      wp_use generatePersonalizedMessage_spec.
      intros o wG (SG & XG & msg & ->). carry X V.
      wp_step.
      wp_use sendWhatsApp_spec. intros o wW (SW & XW & b & ->). carry X V.
      wp_step.
      wp_use (update_routed_spec id _ _ (data_nurturing 1)
                (NURTURING, Some (priorityOfScore (leadScore c)), Some 1,
                 Some (persona c), Some (intent c), Some (leadScore c)) _ V Hid);
        [view_eq|].
      intros [?|e] wS (XS & OS); [|rethrown].
      clear V; rename OS into V. carry_frame X.
      apply wp_detach_frame.
      wp_use startNurtureCampaign_spec. intros [[]|e] wD (LD & OD) wD' LD' XD'.
      * destruct OD as (c1 & c2 & c3 & c4 & XD).
        tasks_len X. carry X V. carry X V.
        wp_use workflow_tail_spec. intros o wF (-> & SF & XF). carry X V.
        returned c V X.
        eexists. split; [reflexivity|]. split; [reflexivity|].
        left. exists c1, c2, c3, c4. split; reflexivity.
      * destruct OD as (R & ts & XD). carry X V. carry X V.
        wp_use workflow_tail_spec. intros o wF (-> & SF & XF). carry X V.
        returned c V X.
        eexists. split; [reflexivity|]. split; [reflexivity|].
        right. eexists. reflexivity.
Qed.

(** ** The senders in detail: what is logged and when *)




(** ** The dashboard's two status actions *)




End Specs.

(** ** Runs of the workflow *)

Lemma workflow_run env ld w o w' :
  leadOrchestrationWorkflow env ld w = (o, w') -> workflow_post env ld w o w'.
Proof. intros E. eapply wp_run; [apply leadOrchestrationWorkflow_spec|exact E]. Qed.

(** The lead a normal return has left in the store. *)
Lemma workflow_lead env ld w r w' :
  leadOrchestrationWorkflow env ld w = (Ok r, w') ->
  r_leadId r = length (leads w) /\
  r_status r = NEW /\
  score_in_range (r_score r) = true /\
  (l_status <$> leads w') =
    (l_status <$> leads w) ++
    [routedStatus (route env (r_persona r) (r_intent r) (r_score r))] /\
  exists l,
    leads w' !! r_leadId r = Some l /\
    l_status l = routedStatus (route env (r_persona r) (r_intent r) (r_score r)) /\
    l_priority l = Some (priorityOfScore (r_score r)) /\
    l_nurtureStage l = routedStage (route env (r_persona r) (r_intent r) (r_score r)) /\
    l_persona l = Some (r_persona r) /\
    l_intent l = Some (r_intent r) /\
    l_leadScore l = Some (r_score r).
Proof.
  intros E. apply workflow_run in E. simpl in E.
  destruct E as (c & d & -> & Hc & V & X & B). simpl.
  conjs; auto.
  - apply (f_equal (fmap fst)) in V. apply (f_equal (fmap fst)) in V.
    apply (f_equal (fmap fst)) in V. apply (f_equal (fmap fst)) in V.
    apply (f_equal (fmap fst)) in V.
    rewrite !fmap_app in V. rewrite <- !list_fmap_compose in V. exact V.
  - assert (length (leads w) = length (routing_view <$> leads w)) as Hid
      by (rewrite length_fmap; reflexivity).
    destruct (view_found _ _ _ _ V Hid) as (l & Hl & Vl).
    exists l. unfold routing_view in Vl. injection Vl as ? ? ? ? ? ?.
    conjs; assumption.
Qed.

(** ** Arithmetic of the two thresholds *)

Lemma Qle_bool_false (x y : Q) : Qle_bool x y = false <-> (y < x)%Q.
Proof.
  split.
  - intros H. apply Qnot_le_lt. intros L. apply Qle_bool_iff in L. congruence.
  - intros H. destruct (Qle_bool x y) eqn:E; [|reflexivity].
    apply Qle_bool_iff in E. exfalso. exact (Qlt_not_le _ _ H E).
Qed.

Lemma priorityOfScore_cases (s : Q) :
  (priorityOfScore s = HIGH <-> (8 # 10 <= s)%Q) /\
  (priorityOfScore s = MEDIUM <-> (1 # 2 <= s)%Q /\ (s < 8 # 10)%Q) /\
  (priorityOfScore s = LOW <-> (s < 1 # 2)%Q).
Proof.
  assert ((1 # 2 <= 8 # 10)%Q) as H58 by discriminate.
  unfold priorityOfScore.
  destruct (Qle_bool (8 # 10) s) eqn:H8; [|destruct (Qle_bool (1 # 2) s) eqn:H5].
  - apply Qle_bool_iff in H8.
    split; [|split]; split; try discriminate; auto.
    + intros [_ L]. exfalso. exact (Qlt_not_le _ _ L H8).
    + intros L. exfalso. apply (Qlt_not_le _ _ L).
      eapply Qle_trans; [exact H58|exact H8].
  - apply Qle_bool_false in H8. apply Qle_bool_iff in H5.
    split; [|split]; split; try discriminate; auto.
    + intros L. exfalso. exact (Qlt_not_le _ _ H8 L).
    + intros L. exfalso. exact (Qlt_not_le _ _ L H5).
  - apply Qle_bool_false in H8. apply Qle_bool_false in H5.
    split; [|split]; split; try discriminate; auto.
    + intros L. exfalso. exact (Qlt_not_le _ _ H8 L).
    + intros [L _]. exfalso. exact (Qlt_not_le _ _ H5 L).
Qed.

Lemma parseFloat_default : parseFloat "0.8" = Num (4 # 5).
Proof. reflexivity. Qed.

Lemma Qle_bool_compat (a b s : Q) : (a == b)%Q -> Qle_bool a s = Qle_bool b s.
Proof.
  intros E. destruct (Qle_bool b s) eqn:H.
  - apply Qle_bool_iff. rewrite E. apply Qle_bool_iff. exact H.
  - apply Qle_bool_false. rewrite E. apply Qle_bool_false. exact H.
Qed.

(** With the variable unset the guard compares with the same 0.8 as the
    priority expression. *)
Lemma default_guard env (p : Persona) (s : Q) :
  HIGH_VALUE_THRESHOLD env = None ->
  isHighValueArchitect env p s = bool_decide (p = ARCHITECT) && Qle_bool (8 # 10) s.
Proof.
  intros H. unfold isHighValueArchitect, highValueThreshold. rewrite H.
  cbn [or_default]. rewrite parseFloat_default. cbn [js_ge].
  f_equal. apply Qle_bool_compat. reflexivity.
Qed.

(** * The claims *)

(** ** The record the workflow returns *)

(** The status a normal return reports is the status of the row as step 1
    created it, whatever the branch wrote afterwards. *)
Lemma returned_status_is_initial env ld w r w' :
  leadOrchestrationWorkflow env ld w = (Ok r, w') ->
  r_status r = NEW /\
  exists l, leads w' !! r_leadId r = Some l /\
            (l_status l = HOT \/ l_status l = CONTACTED \/ l_status l = NURTURING).
Proof.
  intros E. destruct (workflow_lead _ _ _ _ _ E) as (_ & S & _ & _ & l & Hl & St & _).
  split; [exact S|]. exists l. split; [exact Hl|]. rewrite St.
  destruct (route env (r_persona r) (r_intent r) (r_score r)); simpl; auto.
Qed.

(** C1, at the first scenario of the guide (an architect at score 0.95, all
    services answering): the workflow returns normally with the lead's
    identifier, persona, intent and score, the lead holds status HOT in the
    store after the branch's update, and the status in the returned record
    is NEW. *)
Theorem returned_status_is_stale :
  exists w',
    leadOrchestrationWorkflow (calm architectSpecs) arjun emptyWorld =
      (Ok (mkResult true 0 ARCHITECT TECHNICAL_SPECS (95 # 100) NEW), w') /\
    l_status <$> leads w' !! 0%nat = Some HOT.
Proof.
  eexists. split; vm_compute; reflexivity.
Qed.

(** ** Priority *)

(** C3: on every normal return the lead carries the score and a priority,
    the score lies in [0,1], and the priority is HIGH exactly for scores of
    0.8 and more, MEDIUM exactly from 0.5 up to 0.8, LOW exactly below
    0.5. *)
Theorem persisted_priority_follows_thresholds env ld w r w' :
  leadOrchestrationWorkflow env ld w = (Ok r, w') ->
  exists l s p,
    leads w' !! r_leadId r = Some l /\
    l_leadScore l = Some s /\ l_priority l = Some p /\
    (0 <= s)%Q /\ (s <= 1)%Q /\
    (p = HIGH <-> (8 # 10 <= s)%Q) /\
    (p = MEDIUM <-> (1 # 2 <= s)%Q /\ (s < 8 # 10)%Q) /\
    (p = LOW <-> (s < 1 # 2)%Q).
Proof.
  intros E.
  destruct (workflow_lead _ _ _ _ _ E)
    as (_ & _ & R & _ & l & Hl & _ & P & _ & _ & _ & Sc).
  exists l, (r_score r), (priorityOfScore (r_score r)).
  unfold score_in_range in R. apply andb_true_iff in R. destruct R as [R0 R1].
  apply Qle_bool_iff in R0. apply Qle_bool_iff in R1.
  destruct (priorityOfScore_cases (r_score r)) as (H & M & L).
  conjs; assumption.
Qed.

Lemma persisted_priority_follows_thresholds_witness :
  exists l s p,
    leads afterArjun !! 0%nat = Some l /\
    l_leadScore l = Some s /\ l_priority l = Some p /\
    (0 <= s)%Q /\ (s <= 1)%Q /\
    (p = HIGH <-> (8 # 10 <= s)%Q) /\
    (p = MEDIUM <-> (1 # 2 <= s)%Q /\ (s < 8 # 10)%Q) /\
    (p = LOW <-> (s < 1 # 2)%Q).
Proof.
  apply (persisted_priority_follows_thresholds (calm architectSpecs) arjun emptyWorld
           (mkResult true 0 ARCHITECT TECHNICAL_SPECS (95 # 100) NEW) afterArjun).
  vm_compute. reflexivity.
Defined.

(** ** Classification *)

(** C4: when the call to the classification model raises, [classifyLead]
    returns the fallback record (persona UNKNOWN, intent GENERAL_INQUIRY,
    score 0.3); and whatever the call does, [classifyLead] returns
    normally. *)
Theorem classifyLead_falls_back env leadData w e w1 :
  generateObject_classification env w = (Throw e, w1) ->
  (exists w', classifyLead env leadData w = (Ok fallbackClassification, w')) /\
  persona fallbackClassification = UNKNOWN /\
  intent fallbackClassification = GENERAL_INQUIRY /\
  leadScore fallbackClassification = 3 # 10 /\
  (forall leadData2 w2, exists c w', classifyLead env leadData2 w2 = (Ok c, w')).
Proof.
  intros E. conjs; try reflexivity.
  - unfold classifyLead, try_catch, bind.
    assert (generateObject_classification env
              (snd (logger INFO "Starting AI classification" w))
            = (Throw e, set_logs (logs w ++ [(INFO, "Starting AI classification"%string)]) w1))
      as E'.
    { revert E. unfold generateObject_classification, bind, issue, logger. simpl.
      destruct (modelClassification env (calls w)) as [c|];
        [destruct (score_in_range (leadScore c))|];
        unfold ret, throw; intros [= <- <-]; reflexivity. }
    simpl in *. rewrite E'. eexists. reflexivity.
  - intros leadData2 w2.
    pose proof (classifyLead_spec env leadData2 w2) as H. unfold wp in H.
    destruct H as (_ & _ & c & Hc & _).
    exists c, (snd (classifyLead env leadData2 w2)).
    rewrite <- Hc. apply surjective_pairing.
Qed.

Lemma classifyLead_falls_back_witness :
  (exists w', classifyLead modelDown arjun emptyWorld = (Ok fallbackClassification, w')) /\
  persona fallbackClassification = UNKNOWN /\
  intent fallbackClassification = GENERAL_INQUIRY /\
  leadScore fallbackClassification = 3 # 10 /\
  (forall leadData2 w2, exists c w', classifyLead modelDown leadData2 w2 = (Ok c, w')).
Proof.
  apply (classifyLead_falls_back modelDown arjun emptyWorld (AIError 0)
           (snd (generateObject_classification modelDown emptyWorld))).
  vm_compute. reflexivity.
Defined.

(** ** The routing branches *)

Lemma workflow_effects env ld w r w' :
  leadOrchestrationWorkflow env ld w = (Ok r, w') ->
  exists c d,
    persona c = r_persona r /\ intent c = r_intent r /\ leadScore c = r_score r /\
    extends d w w' /\ branch_effects env ld w c d.
Proof.
  intros E. apply workflow_run in E. simpl in E.
  destruct E as (c & d & -> & _ & _ & X & B). exists c, d. simpl. auto.
Qed.

(** C5: with the threshold variable unset, every normal return whose
    classification is an architect at score 0.95 has taken the high-value
    branch: the lead has status HOT, exactly one task was created, URGENT
    and due five minutes after its creation, and exactly one WhatsApp
    message, the acknowledgment, was handed to the provider (and no
    mail). *)
Theorem high_value_architect_branch env ld w r w' :
  HIGH_VALUE_THRESHOLD env = None ->
  leadOrchestrationWorkflow env ld w = (Ok r, w') ->
  r_persona r = ARCHITECT ->
  (r_score r == 95 # 100)%Q ->
  (exists l, leads w' !! r_leadId r = Some l /\ l_status l = HOT) /\
  (exists t,
     tasks w' = tasks w ++ [t] /\
     t_leadId t = r_leadId r /\ t_type t = REVIEW_LEAD /\
     t_priority t = URGENT /\ t_status t = PENDING /\
     t_dueAt t = Some (t_createdAt t + 5 * MINUTE)) /\
  waCalls w' = waCalls w ++ [waRequest env (phone ld) (acknowledgment (name ld))] /\
  mailCalls w' = mailCalls w.
Proof.
  intros T E P S.
  assert (isHighValueArchitect env (r_persona r) (r_score r) = true) as HV.
  { rewrite (default_guard _ _ _ T), P. simpl.
    apply Qle_bool_iff. rewrite S. discriminate. }
  destruct (workflow_lead _ _ _ _ _ E) as (Id & _ & _ & _ & l & Hl & St & _).
  destruct (workflow_effects _ _ _ _ _ E) as (c & d & Pc & Ic & Sc & X & B).
  unfold branch_effects, route in *. rewrite Pc, Sc in B. rewrite HV in *.
  destruct B as (now & ->). destruct X as [Tk Wa Ml _ _]. simpl in *.
  rewrite app_nil_r in Ml.
  conjs; auto.
  - exists l. auto.
  - eexists. split; [exact Tk|]. rewrite Id. conjs; reflexivity.
Qed.

Lemma high_value_architect_branch_witness :
  (exists l, leads afterArjun !! 0%nat = Some l /\ l_status l = HOT) /\
  (exists t,
     tasks afterArjun = tasks emptyWorld ++ [t] /\
     t_leadId t = 0%nat /\ t_type t = REVIEW_LEAD /\
     t_priority t = URGENT /\ t_status t = PENDING /\
     t_dueAt t = Some (t_createdAt t + 5 * MINUTE)) /\
  waCalls afterArjun =
    waCalls emptyWorld ++
    [waRequest (calm architectSpecs) (phone arjun) (acknowledgment (name arjun))] /\
  mailCalls afterArjun = mailCalls emptyWorld.
Proof.
  apply (high_value_architect_branch (calm architectSpecs) arjun emptyWorld
           (mkResult true 0 ARCHITECT TECHNICAL_SPECS (95 # 100) NEW) afterArjun).
  - reflexivity.
  - vm_compute. reflexivity.
  - reflexivity.
  - reflexivity.
Defined.

(** C6: every normal return whose classification does not pass the
    high-value guard and has intent TECHNICAL_SPECS has handed one WhatsApp
    message and the technical-specifications mail to the providers and left
    the lead with status CONTACTED; and, the store not having rejected the
    follow-up's insert (no rejection is left uncaught), exactly one task was
    created, a FOLLOW_UP due exactly three days after its creation. *)
Theorem technical_specs_branch env ld w r w' :
  leadOrchestrationWorkflow env ld w = (Ok r, w') ->
  isHighValueArchitect env (r_persona r) (r_score r) = false ->
  r_intent r = TECHNICAL_SPECS ->
  unhandled w' = unhandled w ->
  (exists message, waCalls w' = waCalls w ++ [waRequest env (phone ld) message]) /\
  mailCalls w' = mailCalls w ++ [specsMail ld] /\
  (exists l, leads w' !! r_leadId r = Some l /\ l_status l = CONTACTED) /\
  (exists t,
     tasks w' = tasks w ++ [t] /\
     t_leadId t = r_leadId r /\ t_type t = FOLLOW_UP /\ t_status t = PENDING /\
     t_dueAt t = Some (t_createdAt t + 3 * DAY)).
Proof.
  intros E HV I U.
  destruct (workflow_lead _ _ _ _ _ E) as (Id & _ & _ & _ & l & Hl & St & _).
  destruct (workflow_effects _ _ _ _ _ E) as (c & d & Pc & Ic & Sc & X & B).
  unfold branch_effects, route in *. rewrite Pc, Ic, Sc in B.
  rewrite HV, I in *. simpl in *.
  destruct B as (msg & Wa & Ml & Tk). destruct X as [Tk' Wa' Ml' U' _].
  rewrite Wa in Wa'. rewrite Ml in Ml'.
  conjs; eauto.
  destruct Tk as [(now & Tk & _)|(_ & e & Un)].
  - rewrite Tk in Tk'. eexists. split; [exact Tk'|]. rewrite Id.
    conjs; reflexivity.
  - exfalso. rewrite Un, U in U'. symmetry in U'.
    exact (app_singleton_neq _ _ U').
Qed.

Lemma technical_specs_branch_witness :
  let w' := snd (leadOrchestrationWorkflow (calm contractorSpecs) arjun emptyWorld) in
  (exists message,
     waCalls w' =
       waCalls emptyWorld ++ [waRequest (calm contractorSpecs) (phone arjun) message]) /\
  mailCalls w' = mailCalls emptyWorld ++ [specsMail arjun] /\
  (exists l, leads w' !! 0%nat = Some l /\ l_status l = CONTACTED) /\
  (exists t,
     tasks w' = tasks emptyWorld ++ [t] /\
     t_leadId t = 0%nat /\ t_type t = FOLLOW_UP /\ t_status t = PENDING /\
     t_dueAt t = Some (t_createdAt t + 3 * DAY)).
Proof.
  apply (technical_specs_branch (calm contractorSpecs) arjun emptyWorld
           (mkResult true 0 CONTRACTOR TECHNICAL_SPECS (75 # 100) NEW)).
  - vm_compute. reflexivity.
  - reflexivity.
  - reflexivity.
  - vm_compute. reflexivity.
Defined.



(** ** Errors of the workflow *)

(** C2, as stated, fails: the store accepts the insert of step 1 and
    rejects the update that persists the classification (its call number
    2); the lead of step 1 is in the store and the workflow raises that
    rejection. *)
Lemma later_store_rejection_is_raised :
  exists w',
    leadOrchestrationWorkflow (storeRejects 2 architectSpecs) arjun emptyWorld =
      (Throw (PrismaError 2), w') /\
    dbFails (storeRejects 2 architectSpecs) (calls emptyWorld) = false /\
    l_status <$> leads w' = [NEW].
Proof.
  eexists. conjs; vm_compute; reflexivity.
Qed.

Lemma prisma_lead_create_calls env d w :
  wp (prisma_lead_create env d) w (fun _ w' => calls w' = S (calls w)).
Proof.
  unfold prisma_lead_create. wp_go.
  eapply wp_mono; [apply query_spec|]; cbv beta.
  intros [[]|e] w' (_ & _ & _ & C & _); [unfold wp; simpl|]; exact C.
Qed.

Lemma classifyLead_calls env leadData w :
  wp (classifyLead env leadData) w (fun _ w' => calls w' = S (calls w)).
Proof.
  unfold classifyLead, generateObject_classification. wp_go.
  eapply wp_mono; [apply logger_spec|]; cbv beta.
  intros o w1 (-> & _ & _ & _ & C1 & _). wp_go.
  eapply wp_mono; [apply issue_spec|]; cbv beta.
  intros o w2 (-> & _ & _ & _ & C2 & _). rewrite C1 in C2.
  destruct (modelClassification env (calls w1)) as [c|];
    [destruct (score_in_range (leadScore c))|]; wp_go;
    (eapply wp_mono; [apply logger_spec|]; cbv beta;
     intros o w3 (-> & _ & _ & _ & C3 & _); wp_go; congruence).
Qed.

Lemma workflow_first_call env ld w :
  wp (leadOrchestrationWorkflow env ld) w (fun o _ =>
    dbFails env (calls w) = true -> o = Throw (PrismaError (calls w))).
Proof.
  unfold leadOrchestrationWorkflow. wp_step. wp_step.
  eapply wp_mono; [apply logger_spec|]; cbv beta.
  intros o w1 (-> & _ & _ & _ & C1 & _ & _).
  wp_step.
  eapply wp_mono; [apply prisma_lead_create_spec|]; cbv beta.
  rewrite C1. intros [lead|e] w2 (_ & O).
  - destruct O as (_ & _ & F). eapply wp_mono with (Q := fun _ _ => True).
    + unfold wp. exact I.
    + intros [a|e] w3 _; [|unfold wp]; intros F'; congruence.
  - destruct O as (_ & _ & _ & ->). wp_step.
    eapply wp_mono; [apply logger_spec|]; cbv beta.
    intros o w3 (-> & _). wp_step. reflexivity.
Qed.

Lemma workflow_classification_write env ld w :
  wp (leadOrchestrationWorkflow env ld) w (fun o _ =>
    dbFails env (calls w) = false ->
    dbFails env (S (S (calls w))) = true ->
    o = Throw (PrismaError (S (S (calls w))))).
Proof.
  unfold leadOrchestrationWorkflow. wp_step. wp_step.
  eapply wp_mono; [apply logger_spec|]; cbv beta.
  intros o w1 (-> & _ & _ & _ & C1 & _).
  wp_step.
  eapply wp_mono;
    [apply wp_conj; [apply prisma_lead_create_spec|apply prisma_lead_create_calls]|];
    cbv beta.
  rewrite C1. intros [lead|e] w2 ((_ & O) & C2).
  2:{ destruct O as (_ & _ & F & _). wp_step.
      eapply wp_mono; [apply logger_spec|]; cbv beta.
      intros o w3 (-> & _). wp_step. intros F0. congruence. }
  wp_step.
  eapply wp_mono; [apply logger_spec|]; cbv beta.
  intros o w3 (-> & _ & _ & _ & C3 & _).
  wp_step.
  eapply wp_mono;
    [apply wp_conj; [apply classifyLead_spec|apply classifyLead_calls]|];
    cbv beta.
  intros o w4 ((_ & _ & c & -> & _) & C4).
  wp_step.
  eapply wp_mono; [apply prisma_lead_update_spec|]; cbv beta.
  assert (calls w4 = S (S (calls w))) as C by congruence. rewrite C.
  intros [l|e] w5 (_ & (_ & _ & _ & T) & _).
  - eapply wp_mono with (Q := fun _ _ => True); [exact I|].
    intros [a|e] w6 _; [|unfold wp]; intros _ F2; specialize (T F2); discriminate.
  - wp_step.
    eapply wp_mono; [apply logger_spec|]; cbv beta.
    intros o w6 (-> & _). wp_step. intros _ F2.
    specialize (T F2). injection T as ->. reflexivity.
Qed.

(** C2, amended: whatever the run of the workflow, it raises only a
    rejection by the store of one of its calls; it does raise when the
    store rejects the insert of step 1 (its first call), and also when the
    store accepts that insert and rejects the update that persists the
    classification (its third call, after the insert and the call to the
    model); and when the store rejects no call it returns normally, whatever
    the classification model, the message model, Twilio, the SMTP relay and
    the CRM answer. *)
Theorem workflow_raises_store_rejections_only env ld w o w' :
  leadOrchestrationWorkflow env ld w = (o, w') ->
  (forall e, o = Throw e ->
     exists n, (calls w <= n < calls w')%nat /\ dbFails env n = true /\
               e = PrismaError n) /\
  (dbFails env (calls w) = true -> o = Throw (PrismaError (calls w))) /\
  (dbFails env (calls w) = false -> dbFails env (S (S (calls w))) = true ->
   o = Throw (PrismaError (S (S (calls w))))) /\
  ((forall n, dbFails env n = false) -> exists r, o = Ok r).
Proof.
  intros E. pose proof (workflow_run _ _ _ _ _ E) as P.
  conjs.
  - intros e ->. exact P.
  - exact (wp_run _ _ _ _ _ (workflow_first_call env ld w) E).
  - exact (wp_run _ _ _ _ _ (workflow_classification_write env ld w) E).
  - intros F. destruct o as [r|e]; [eauto|].
    destruct P as (n & _ & Fn & _). rewrite F in Fn. discriminate.
Qed.

Lemma workflow_raises_store_rejections_only_witness :
  let env := storeRejects 2 architectSpecs in
  let w' := snd (leadOrchestrationWorkflow env arjun emptyWorld) in
  (forall e, Throw (A := WorkflowResult) (PrismaError 2) = Throw e ->
     exists n, (calls emptyWorld <= n < calls w')%nat /\
               dbFails env n = true /\ e = PrismaError n) /\
  (dbFails env (calls emptyWorld) = true ->
     Throw (A := WorkflowResult) (PrismaError 2) = Throw (PrismaError (calls emptyWorld))) /\
  (dbFails env (calls emptyWorld) = false ->
   dbFails env (S (S (calls emptyWorld))) = true ->
   Throw (A := WorkflowResult) (PrismaError 2) =
     Throw (PrismaError (S (S (calls emptyWorld))))) /\
  ((forall n, dbFails env n = false) ->
     exists r : WorkflowResult, Throw (PrismaError 2) = Ok r).
Proof.
  apply (workflow_raises_store_rejections_only (storeRejects 2 architectSpecs)
           arjun emptyWorld (Throw (PrismaError 2))).
  vm_compute. reflexivity.
Defined.

(** ** The senders *)




(** ** Status transitions *)




(** ** The two thresholds *)

(** C10: the guard of the high-value branch compares the score with
    [parseFloat] of the threshold variable, 0.8 when it is unset, the
    priority expression with the literal 0.8.  With the variable unset, an
    architect passes the guard exactly when the derived priority is HIGH,
    and on every normal return for an architect the lead is HOT exactly
    when its priority is HIGH;
    with the variable set the two can differ either way: at 0.9 a score of
    0.85 has priority HIGH and fails the guard, at 0.5 a score of 0.6 passes
    the guard with priority MEDIUM. *)
Theorem guard_and_priority_thresholds :
  (forall env score,
     HIGH_VALUE_THRESHOLD env = None ->
     (isHighValueArchitect env ARCHITECT score = true <->
      priorityOfScore score = HIGH)) /\
  (forall env,
     HIGH_VALUE_THRESHOLD env = None ->
     exists t, highValueThreshold env = Num t /\ (t == 8 # 10)%Q) /\
  (forall env ld w r w',
     HIGH_VALUE_THRESHOLD env = None ->
     leadOrchestrationWorkflow env ld w = (Ok r, w') ->
     r_persona r = ARCHITECT ->
     exists l, leads w' !! r_leadId r = Some l /\
               (l_status l = HOT <-> l_priority l = Some HIGH)) /\
  (let env := thresholdSet "0.9" architectDesign in
   priorityOfScore (85 # 100) = HIGH /\
   isHighValueArchitect env ARCHITECT (85 # 100) = false /\
   exists r w',
     leadOrchestrationWorkflow env arjun emptyWorld = (Ok r, w') /\
     r_persona r = ARCHITECT /\
     (l_status <$> leads w' !! r_leadId r) = Some NURTURING /\
     (l_priority <$> leads w' !! r_leadId r) = Some (Some HIGH)) /\
  (let env := thresholdSet "0.5" architectModest in
   priorityOfScore (6 # 10) = MEDIUM /\
   isHighValueArchitect env ARCHITECT (6 # 10) = true /\
   exists r w',
     leadOrchestrationWorkflow env arjun emptyWorld = (Ok r, w') /\
     r_persona r = ARCHITECT /\
     (l_status <$> leads w' !! r_leadId r) = Some HOT /\
     (l_priority <$> leads w' !! r_leadId r) = Some (Some MEDIUM)).
Proof.
  cbv zeta. conjs.
  - intros env score T. rewrite (default_guard _ _ _ T). simpl.
    unfold priorityOfScore. destruct (Qle_bool (8 # 10) score).
    + split; reflexivity.
    + split; [discriminate|]. destruct (Qle_bool (1 # 2) score); discriminate.
  - intros env T. unfold highValueThreshold. rewrite T. cbn [or_default].
    rewrite parseFloat_default. eexists. split; reflexivity.
  - intros env ld w r w' T E P.
    destruct (workflow_lead _ _ _ _ _ E) as (_ & _ & _ & _ & l & Hl & St & Pr & _).
    exists l. split; [exact Hl|]. rewrite St, Pr. unfold route, priorityOfScore.
    rewrite (default_guard _ _ _ T), P. simpl.
    destruct (Qle_bool (8 # 10) (r_score r)); simpl; [split; reflexivity|].
    split.
    + destruct (bool_decide (r_intent r = TECHNICAL_SPECS));
        [|destruct (bool_decide (r_intent r = PRICE_INQUIRY))]; discriminate.
    + destruct (Qle_bool (1 # 2) (r_score r)); discriminate.
  - reflexivity.
  - reflexivity.
  - do 2 eexists. conjs; vm_compute; reflexivity.
  - reflexivity.
  - reflexivity.
  - do 2 eexists. conjs; vm_compute; reflexivity.
Qed.

Lemma guard_and_priority_thresholds_witness :
  isHighValueArchitect (calm architectSpecs) ARCHITECT (95 # 100) = true <->
  priorityOfScore (95 # 100) = HIGH.
Proof.
  apply (proj1 guard_and_priority_thresholds (calm architectSpecs) (95 # 100)).
  reflexivity.
Defined.

(** * Further properties of the sources *)

(** ** The price branch of the workflow *)

(** X1: every normal return whose classification fails the high-value guard
    and has intent PRICE_INQUIRY has handed one WhatsApp message and no mail
    to the providers, left the lead with status CONTACTED and created
    exactly one task, a CALL_LEAD due 24 hours after its creation, whose
    priority is HIGH for a score of 0.5 and more and MEDIUM below; nothing
    is left uncaught. *)
Theorem price_inquiry_branch env ld w r w' :
  leadOrchestrationWorkflow env ld w = (Ok r, w') ->
  isHighValueArchitect env (r_persona r) (r_score r) = false ->
  r_intent r = PRICE_INQUIRY ->
  (exists message, waCalls w' = waCalls w ++ [waRequest env (phone ld) message]) /\
  mailCalls w' = mailCalls w /\
  unhandled w' = unhandled w /\
  (exists l, leads w' !! r_leadId r = Some l /\ l_status l = CONTACTED) /\
  (exists t,
     tasks w' = tasks w ++ [t] /\
     t_leadId t = r_leadId r /\ t_type t = CALL_LEAD /\ t_status t = PENDING /\
     t_dueAt t = Some (t_createdAt t + 1 * DAY) /\
     (t_priority t = HIGH <-> (1 # 2 <= r_score r)%Q) /\
     (t_priority t = MEDIUM <-> (r_score r < 1 # 2)%Q)).
Proof.
  intros E HV I.
  destruct (workflow_lead _ _ _ _ _ E) as (Id & _ & _ & _ & l & Hl & St & _).
  destruct (workflow_effects _ _ _ _ _ E) as (c & d & Pc & Ic & Sc & X & B).
  unfold branch_effects, route in *. rewrite Pc, Ic, Sc in B.
  rewrite HV, I in *. simpl in *.
  destruct B as (msg & now & ->). destruct X as [Tk Wa Ml U _]. simpl in *.
  rewrite app_nil_r in Ml, U.
  conjs; eauto.
  eexists. split; [exact Tk|]. rewrite Id. cbn. rewrite Sc.
  conjs; try reflexivity.
  - destruct (Qle_bool (1 # 2) (r_score r)) eqn:H5.
    + apply Qle_bool_iff in H5. split; auto.
    + apply Qle_bool_false in H5. split; [discriminate|].
      intros L. exfalso. exact (Qlt_not_le _ _ H5 L).
  - destruct (Qle_bool (1 # 2) (r_score r)) eqn:H5.
    + apply Qle_bool_iff in H5. split; [discriminate|].
      intros L. exfalso. exact (Qlt_not_le _ _ L H5).
    + apply Qle_bool_false in H5. split; auto.
Qed.

Lemma price_inquiry_branch_witness :
  let env := calm homeownerPricing in
  let w' := snd (leadOrchestrationWorkflow env priya emptyWorld) in
  (exists message,
     waCalls w' = waCalls emptyWorld ++ [waRequest env (phone priya) message]) /\
  mailCalls w' = mailCalls emptyWorld /\
  unhandled w' = unhandled emptyWorld /\
  (exists l, leads w' !! 0%nat = Some l /\ l_status l = CONTACTED) /\
  (exists t,
     tasks w' = tasks emptyWorld ++ [t] /\
     t_leadId t = 0%nat /\ t_type t = CALL_LEAD /\ t_status t = PENDING /\
     t_dueAt t = Some (t_createdAt t + 1 * DAY) /\
     (t_priority t = HIGH <-> (1 # 2 <= 6 # 10)%Q) /\
     (t_priority t = MEDIUM <-> (6 # 10 < 1 # 2)%Q)).
Proof.
  apply (price_inquiry_branch (calm homeownerPricing) priya emptyWorld
           (mkResult true 0 HOMEOWNER PRICE_INQUIRY (6 # 10) NEW)).
  - vm_compute. reflexivity.
  - reflexivity.
  - reflexivity.
Defined.

(** ** The classifier's message generator *)

(** X2: [generatePersonalizedMessage] never raises: it makes one call to the
    model and returns the model's message, or the fixed fallback text when
    the call fails; it writes nothing to the store and calls no provider. *)
Theorem generatePersonalizedMessage_falls_back env p i lead_name e w :
  exists w',
    generatePersonalizedMessage env p i lead_name e w =
      (Ok (default fallbackMessage (modelMessage env (calls w))), w') /\
    calls w' = S (calls w) /\
    leads w' = leads w /\ tasks w' = tasks w /\ interactions w' = interactions w /\
    waCalls w' = waCalls w /\ mailCalls w' = mailCalls w.
Proof.
  cbv [generatePersonalizedMessage generateObject_message try_catch bind issue
       logger ret throw].
  cbn [calls clock].
  destruct (modelMessage env (calls w)); simpl; eexists; split;
    try reflexivity; simpl; conjs; reflexivity.
Qed.

(** ** The task service *)

(** X3: [createTask] makes one insert.  When the store accepts it, the task
    returned is the row inserted: PENDING, without notes, with the fields of
    the input, the next identifier of the table and the time of the call as
    its creation time, appended to the table.  When the store rejects it,
    [createTask] raises that rejection and the table is as it was.  Leads
    and interactions are not touched. *)
Theorem createTask_outcome env input w o w' :
  createTask env input w = (o, w') ->
  leads w' = leads w /\ interactions w' = interactions w /\
  calls w' = S (calls w) /\
  match o with
  | Ok t =>
      dbFails env (calls w) = false /\
      tasks w' = tasks w ++ [t] /\
      t_id t = length (tasks w) /\ t_status t = PENDING /\ t_notes t = None /\
      t_createdAt t = clock w /\
      t_leadId t = in_leadId input /\ t_type t = in_type input /\
      t_priority t = in_priority input /\ t_dueAt t = in_dueAt input /\
      t_title t = in_title input /\ t_description t = in_description input /\
      t_assignedTo t = in_assignedTo input
  | Throw e =>
      dbFails env (calls w) = true /\ e = PrismaError (calls w) /\
      tasks w' = tasks w /\ In (ERROR, "Failed to create task"%string) (logs w')
  end.
Proof.
  cbv [createTask try_catch bind prisma_task_create Date_now query issue logger
       ret throw].
  cbn [calls clock].
  destruct (dbFails env (calls w)) eqn:F; intros H; injection H as <- <-; cbn;
    conjs; auto.
  apply in_or_app. right. left. reflexivity.
Qed.

Lemma createTask_outcome_witness :
  let env := storeRejects 9 architectSpecs in
  let input :=
    mkTaskInput 0 FollowUpCheckEngagement FollowUpBrief FOLLOW_UP MEDIUM None
                (Some (clock afterArjun + 3 * DAY)) in
  let w' := snd (createTask env input afterArjun) in
  leads w' = leads afterArjun /\ interactions w' = interactions afterArjun /\
  calls w' = S (calls afterArjun) /\
  dbFails env (calls afterArjun) = true /\
  PrismaError 9 = PrismaError (calls afterArjun) /\
  tasks w' = tasks afterArjun /\
  In (ERROR, "Failed to create task"%string) (logs w').
Proof.
  exact (createTask_outcome (storeRejects 9 architectSpecs)
           (mkTaskInput 0 FollowUpCheckEngagement FollowUpBrief FOLLOW_UP MEDIUM None
                        (Some (clock afterArjun + 3 * DAY)))
           afterArjun (Throw (PrismaError 9))
           (snd (createTask (storeRejects 9 architectSpecs)
                   (mkTaskInput 0 FollowUpCheckEngagement FollowUpBrief FOLLOW_UP
                                MEDIUM None (Some (clock afterArjun + 3 * DAY)))
                   afterArjun))
           ltac:(vm_compute; reflexivity)).
Defined.

(** ** The WhatsApp sender *)

Lemma prefix_app (p s : string) : String.prefix p (p ++ s)%string = true.
Proof.
  induction p as [|c p IH]; simpl.
  - destruct s; reflexivity.
  - destruct (Ascii.ascii_dec c c); [exact IH|congruence].
Qed.

Lemma sendWhatsApp_request env to message leadId w :
  waCalls (snd (sendWhatsApp env to message leadId w)) =
    waCalls w ++ [waRequest env to message].
Proof.
  destruct leadId as [id|].
  - pose proof (sendWhatsApp_spec env to message id w) as H. unfold wp in H.
    destruct H as (_ & [_ Wa _ _ _] & _). exact Wa.
  - cbv [sendWhatsApp client_messages_create try_catch bind issue logger ret throw].
    cbn [calls clock set_logs].
    destruct (twilioAnswer env (calls w)); reflexivity.
Qed.

(** X4: whatever the lead identifier and whatever Twilio and the store
    answer, [sendWhatsApp] hands exactly one request to Twilio; its body is
    the message, its sender the configured number or the sandbox number, and
    its destination carries the prefix [whatsapp:]: a number that has the
    prefix is passed as it is, any other gets it, so that sending to the
    formatted destination hands over the same request. *)
Theorem sendWhatsApp_destination env to message leadId w :
  exists req,
    waCalls (snd (sendWhatsApp env to message leadId w)) = waCalls w ++ [req] /\
    wa_body req = message /\
    wa_from req = or_default (TWILIO_WHATSAPP_NUMBER env) "whatsapp:+14155238886" /\
    String.prefix "whatsapp:" (wa_to req) = true /\
    (String.prefix "whatsapp:" to = true -> wa_to req = to) /\
    (String.prefix "whatsapp:" to = false -> wa_to req = ("whatsapp:" ++ to)%string) /\
    waCalls (snd (sendWhatsApp env (wa_to req) message leadId w)) = waCalls w ++ [req].
Proof.
  exists (waRequest env to message). split; [apply sendWhatsApp_request|].
  rewrite sendWhatsApp_request.
  unfold waRequest. cbn [wa_body wa_from wa_to].
  destruct (String.prefix "whatsapp:" to) eqn:P.
  - rewrite P. conjs; auto; discriminate.
  - rewrite (prefix_app "whatsapp:" to). conjs; auto; discriminate.
Qed.

(** X5: called without a lead identifier, [sendWhatsApp] makes the call to
    Twilio and no other: it returns true exactly when Twilio accepted the
    message, never raises, and leaves leads, tasks and interactions as they
    were. *)
Theorem sendWhatsApp_without_lead env to message w :
  exists w',
    sendWhatsApp env to message None w =
      (Ok (bool_decide (is_Some (twilioAnswer env (calls w)))), w') /\
    calls w' = S (calls w) /\
    leads w' = leads w /\ tasks w' = tasks w /\ interactions w' = interactions w.
Proof.
  cbv [sendWhatsApp client_messages_create try_catch bind issue logger ret throw].
  cbn [calls clock set_logs].
  destruct (twilioAnswer env (calls w)); simpl; eexists; split;
    try reflexivity; simpl; conjs; reflexivity.
Qed.

(** ** Running a small function case by case *)

(** [run_on] computes on after a case split, [run_done] reads off the
    outcome and the world of a run that has ended. *)
Ltac run_on :=
  cbv beta iota zeta;
  cbn [calls clock leads tasks interactions waCalls mailCalls crmCalls logs
       unhandled set_logs set_crmCalls set_leads set_tasks set_interactions
       set_waCalls set_mailCalls set_unhandled fst snd].

Ltac run_done :=
  let H := fresh in intros H; injection H as <- <-; cbn.

(** ** The enrichment stub *)

Lemma split_on_app (sep : ascii) (a b : string) :
  split_on sep a = [a] ->
  split_on sep (a ++ String sep b)%string = a :: split_on sep b.
Proof.
  induction a as [|c a IH]; simpl.
  - intros _. rewrite Ascii.eqb_refl. reflexivity.
  - destruct (Ascii.eqb c sep); [discriminate|].
    destruct (split_on sep a) as [|h t] eqn:S.
    + intros _. exfalso. clear IH. destruct a; simpl in S; [discriminate|].
      destruct (Ascii.eqb a sep); [discriminate|].
      destruct (split_on sep a0); discriminate.
    + intros [= -> ->]. rewrite (IH eq_refl). reflexivity.
Qed.

Lemma years_bounds (r : Q) :
  (0 <= r)%Q -> (r < 1)%Q -> 5 <= Qfloor (r * 15) + 5 <= 19.
Proof.
  intros H0 H1.
  assert (0 <= Qfloor (r * 15)).
  { change 0 with (Qfloor 0). apply Qfloor_resp_le.
    apply Qmult_le_0_compat; [exact H0|discriminate]. }
  assert (Qfloor (r * 15) < 15).
  { rewrite Zlt_Qlt. eapply Qle_lt_trans; [apply Qfloor_le|].
    change (inject_Z 15) with (1 * 15)%Q.
    apply Qmult_lt_compat_r; [reflexivity|exact H1]. }
  lia.
Qed.

Lemma simulateEnrichment_world env mail w :
  exists e, simulateEnrichment env mail w = (Ok e, snd (sleep 1000 w)).
Proof.
  cbv [simulateEnrichment bind sleep Math_random ret]. run_on.
  repeat case_match; eauto.
Qed.

(** X6: for an address [local@domain] (no [@] in the two parts, the domain
    in ASCII), the lookup takes a second, calls no service and never raises.
    It finds nothing when the domain is empty or one of gmail.com,
    yahoo.com, hotmail.com, outlook.com; otherwise it gives the profile
    address built from the local part, the first label of the domain in
    capitals as the company, and, [Math.random] drawing from [0,1), between
    5 and 19 years of experience. *)
Theorem simulateEnrichment_result env local domain w :
  split_on "@" local = [local] ->
  split_on "@" domain = [domain] ->
  ascii_text domain = true ->
  (0 <= mathRandom env (calls w))%Q -> (mathRandom env (calls w) < 1)%Q ->
  exists e w',
    simulateEnrichment env (local ++ "@" ++ domain)%string w = (Ok e, w') /\
    clock w' = clock w + 1000 /\ calls w' = calls w /\
    (domain = ""%string \/
     string_in domain ["gmail.com"; "yahoo.com"; "hotmail.com"; "outlook.com"]%string = true ->
     e = mkEnrichment None None None) /\
    (domain <> ""%string ->
     string_in domain ["gmail.com"; "yahoo.com"; "hotmail.com"; "outlook.com"]%string = false ->
     e_linkedinUrl e = Some ("https://linkedin.com/in/" ++ local)%string /\
     e_companyName e = Some (toUpperCase (default ""%string (split_on "." domain !! 0%nat))) /\
     exists years, e_yearsExperience e = Some years /\ 5 <= years <= 19).
Proof.
  intros Hl Hd _ R0 R1.
  cbv [simulateEnrichment bind sleep Math_random ret]. run_on.
  change (local ++ "@" ++ domain)%string with (local ++ String "@" domain)%string.
  rewrite (split_on_app _ _ _ Hl), Hd. cbn [lookup list_lookup default].
  destruct domain as [|c r].
  { do 2 eexists. conjs; try reflexivity; auto; congruence. }
  destruct (string_in (String c r) _) eqn:In; cbn [negb].
  - do 2 eexists. conjs; try reflexivity; auto; congruence.
  - do 2 eexists. conjs; try reflexivity.
    + intros [?|?]; congruence.
    + intros _ _. cbn. conjs; try reflexivity.
      eexists. split; [reflexivity|]. apply years_bounds; assumption.
Qed.

Lemma simulateEnrichment_result_witness :
  exists e w',
    simulateEnrichment (calm architectSpecs) ("arjun" ++ "@" ++ "designstudio.in")%string
      emptyWorld = (Ok e, w') /\
    clock w' = clock emptyWorld + 1000 /\ calls w' = calls emptyWorld /\
    ("designstudio.in"%string = ""%string \/
     string_in "designstudio.in"
       ["gmail.com"; "yahoo.com"; "hotmail.com"; "outlook.com"]%string = true ->
     e = mkEnrichment None None None) /\
    ("designstudio.in"%string <> ""%string ->
     string_in "designstudio.in"
       ["gmail.com"; "yahoo.com"; "hotmail.com"; "outlook.com"]%string = false ->
     e_linkedinUrl e = Some ("https://linkedin.com/in/" ++ "arjun")%string /\
     e_companyName e =
       Some (toUpperCase (default ""%string (split_on "." "designstudio.in" !! 0%nat))) /\
     exists years, e_yearsExperience e = Some years /\ 5 <= years <= 19).
Proof.
  apply (simulateEnrichment_result (calm architectSpecs) "arjun" "designstudio.in"
           emptyWorld).
  - reflexivity.
  - reflexivity.
  - reflexivity.
  - vm_compute. discriminate.
  - vm_compute. reflexivity.
Defined.

(** X7: [enrichLead] never raises.  It leaves tasks, interactions, provider
    calls and uncaught rejections as they were, and of the leads it changes
    at most the three enrichment columns of the lead it is called for (the
    status, priority and classification of every lead stay); when the store
    rejects its update or has no such lead, no lead changes at all. *)
Theorem enrichLead_best_effort env leadId mail ph w :
  exists w',
    enrichLead env leadId mail ph w = (Ok tt, w') /\
    tasks w' = tasks w /\ interactions w' = interactions w /\
    waCalls w' = waCalls w /\ mailCalls w' = mailCalls w /\
    unhandled w' = unhandled w /\
    (routing_view <$> leads w') = (routing_view <$> leads w) /\
    (leads w' = leads w \/
     exists l li co ye,
       leads w !! leadId = Some l /\
       leads w' = <[leadId := data_enrichment li co ye l]> (leads w)) /\
    (dbFails env (calls w) = true \/ leads w !! leadId = None -> leads w' = leads w).
Proof.
  cbv [enrichLead try_catch bind logger prisma_lead_update query issue ret throw].
  destruct (simulateEnrichment_world env mail
              (set_logs (logs w ++ [(INFO, "Starting lead enrichment"%string)]) w))
    as [e ->].
  cbv [sleep]. run_on.
  destruct (dbFails env (calls w)) eqn:F; run_on.
  { eexists. split; [reflexivity|]. cbn. conjs; auto. }
  destruct (leads w !! leadId) as [l|] eqn:L; run_on.
  - eexists. split; [reflexivity|]. cbn. conjs; auto.
    + eapply map_insert_same_view; [exact L|reflexivity].
    + right. exists l. do 3 eexists. split; reflexivity.
    + intros [?|?]; congruence.
  - eexists. split; [reflexivity|]. cbn. conjs; auto.
Qed.

(** ** The CRM *)

(** Takes the hypotheses apart; an answer that is none closes the goal. *)
Ltac break_hyps :=
  repeat match goal with
  | H : is_Some None |- _ => destruct H as [? H]; discriminate H
  | H : _ /\ _ |- _ => destruct H
  | H : exists _, _ |- _ => destruct H
  | H : _ \/ _ |- _ => destruct H
  end.

(** Closes the conjuncts of a case that the run has decided. *)
Ltac settle :=
  conjs; auto;
  try (split; intros; break_hyps; try congruence; conjs; eauto; congruence).

(** A sync that returned true: the lead it was called for now carries the
    id the CRM answered. *)
Lemma syncToCRM_synced env id w w' :
  syncToCRM env id w = (Ok true, w') ->
  exists l crm t,
    leads w !! id = Some l /\
    crmAnswer env (S (calls w)) = Some crm /\
    leads w' = <[id := data_crm crm t l]> (leads w).
Proof.
  cbv [syncToCRM try_catch bind prisma_lead_findUnique axios_post prisma_lead_update
       Date_now query issue logger ret throw].
  destruct (falsy (CRM_API_URL env) || falsy (CRM_API_KEY env)); [discriminate|].
  run_on.
  destruct (dbFails env (calls w)); run_on; [discriminate|].
  destruct (leads w !! id) as [l|] eqn:L; run_on; [|discriminate].
  destruct (crmAnswer env (S (calls w))) as [crm|]; run_on; [|discriminate].
  destruct (dbFails env (S (S (calls w)))); run_on; [discriminate|].
  rewrite L. intros [= <-]. cbn. eauto 6.
Qed.

(** X8: [syncToCRM] never raises and touches neither tasks nor
    interactions.  When one of the two CRM credentials is missing it returns
    false at once: no call is made, nothing is posted, no lead changes.  When it returns true,
    the lead existed, its columns and its interactions were posted to the
    CRM, and the lead now carries the id the CRM answered and the time of
    the sync; when it returns false, no lead has changed. *)
Theorem syncToCRM_outcome env id w o w' :
  syncToCRM env id w = (o, w') ->
  tasks w' = tasks w /\ interactions w' = interactions w /\
  (falsy (CRM_API_URL env) || falsy (CRM_API_KEY env) = true ->
   o = Ok false /\ calls w' = calls w /\ leads w' = leads w /\
   crmCalls w' = crmCalls w) /\
  match o with
  | Ok true =>
      exists l crm,
        leads w !! id = Some l /\
        crmAnswer env (S (calls w)) = Some crm /\
        crmCalls w' =
          crmCalls w ++
          [mkCrmPayload l (filter (fun i => i_leadId i = id) (interactions w))] /\
        leads w' =
          <[id := data_crm crm (clock w + latency env (calls w)
                                + latency env (S (calls w))) l]> (leads w)
  | Ok false => leads w' = leads w
  | Throw _ => False
  end.
Proof.
  cbv [syncToCRM try_catch bind prisma_lead_findUnique axios_post prisma_lead_update
       Date_now query issue logger ret throw].
  destruct (falsy (CRM_API_URL env) || falsy (CRM_API_KEY env)) eqn:C.
  { run_done. auto 10. }
  run_on.
  destruct (dbFails env (calls w)) eqn:F0; run_on.
  { run_done. conjs; auto. discriminate. }
  destruct (leads w !! id) as [l|] eqn:L; run_on.
  2:{ run_done. conjs; auto. discriminate. }
  destruct (crmAnswer env (S (calls w))) as [crm|] eqn:A; run_on.
  2:{ run_done. conjs; auto. discriminate. }
  destruct (dbFails env (S (S (calls w)))) eqn:F2; run_on.
  { run_done. conjs; auto. discriminate. }
  rewrite L.
  run_done. conjs; auto; [discriminate|].
  exists l, crm. auto.
Qed.

Lemma syncToCRM_outcome_witness :
  let env := crmConfigured architectSpecs in
  let w' := snd (syncToCRM env 0 afterArjun) in
  tasks w' = tasks afterArjun /\ interactions w' = interactions afterArjun /\
  (falsy (CRM_API_URL env) || falsy (CRM_API_KEY env) = true ->
   Ok true = Ok false /\ calls w' = calls afterArjun /\
   leads w' = leads afterArjun /\ crmCalls w' = crmCalls afterArjun) /\
  exists l crm,
    leads afterArjun !! 0%nat = Some l /\
    crmAnswer env (S (calls afterArjun)) = Some crm /\
    crmCalls w' =
      crmCalls afterArjun ++
      [mkCrmPayload l (filter (fun i => i_leadId i = 0%nat) (interactions afterArjun))] /\
    leads w' =
      <[0%nat := data_crm crm (clock afterArjun + latency env (calls afterArjun)
                               + latency env (S (calls afterArjun))) l]>
        (leads afterArjun).
Proof.
  exact (syncToCRM_outcome (crmConfigured architectSpecs) 0 afterArjun (Ok true)
           (snd (syncToCRM (crmConfigured architectSpecs) 0 afterArjun))
           ltac:(vm_compute; reflexivity)).
Defined.

(** The answer of a status update, the store answering the lookup and the
    CRM accepting the patch: whether the lead has a CRM id. *)
Lemma updateCRMStatus_answer env id status w l :
  leads w !! id = Some l ->
  dbFails env (calls w) = false ->
  is_Some (crmAnswer env (S (calls w))) ->
  fst (updateCRMStatus env id status w) =
    Ok (match l_crmId l with Some (String _ _) => true | _ => false end).
Proof.
  intros L F [a A].
  cbv [updateCRMStatus try_catch bind prisma_lead_findUnique_crmId axios_patch
       query issue logger ret throw].
  run_on. rewrite F. run_on. rewrite L. cbn [fmap option_fmap option_map].
  destruct (l_crmId l) as [[|c r]|]; run_on; try reflexivity.
  rewrite A. reflexivity.
Qed.

(** X9: [updateCRMStatus] never raises and writes nothing to the store.  It
    returns true exactly when the store answers the lookup, the lead exists
    with a non-empty CRM id, and the CRM accepts the patch.  For a lead that
    is missing or has no CRM id (none, or the empty string) it returns false
    after the lookup alone: the CRM is not called. *)
Theorem updateCRMStatus_outcome env id status w o w' :
  updateCRMStatus env id status w = (o, w') ->
  leads w' = leads w /\ tasks w' = tasks w /\ interactions w' = interactions w /\
  crmCalls w' = crmCalls w /\
  exists b,
    o = Ok b /\
    (b = true <->
       dbFails env (calls w) = false /\
       (exists l c r, leads w !! id = Some l /\ l_crmId l = Some (String c r)) /\
       is_Some (crmAnswer env (S (calls w)))) /\
    (leads w !! id = None \/
     (exists l, leads w !! id = Some l /\
                (l_crmId l = None \/ l_crmId l = Some ""%string)) ->
     b = false /\ calls w' = S (calls w)).
Proof.
  cbv [updateCRMStatus try_catch bind prisma_lead_findUnique_crmId axios_patch
       query issue logger ret throw].
  run_on.
  destruct (dbFails env (calls w)) eqn:F; run_on.
  { run_done. conjs; auto. exists false. settle. }
  destruct (leads w !! id) as [l|] eqn:L; cbn [fmap option_fmap option_map]; run_on.
  2:{ run_done. conjs; auto. exists false. settle. }
  destruct (l_crmId l) as [[|c r]|] eqn:C; run_on.
  1,3: run_done; conjs; auto; exists false; settle.
  destruct (crmAnswer env (S (calls w))) as [a|] eqn:A; run_on.
  - run_done. conjs; auto. exists true. settle.
  - run_done. conjs; auto. exists false. settle.
Qed.

Lemma updateCRMStatus_outcome_witness :
  let env := crmConfigured architectSpecs in
  let w' := snd (updateCRMStatus env 0 "HOT" afterArjun) in
  leads w' = leads afterArjun /\ tasks w' = tasks afterArjun /\
  interactions w' = interactions afterArjun /\
  crmCalls w' = crmCalls afterArjun /\
  exists b,
    Ok false = Ok b /\
    (b = true <->
       dbFails env (calls afterArjun) = false /\
       (exists l c r, leads afterArjun !! 0%nat = Some l /\
                      l_crmId l = Some (String c r)) /\
       is_Some (crmAnswer env (S (calls afterArjun)))) /\
    (leads afterArjun !! 0%nat = None \/
     (exists l, leads afterArjun !! 0%nat = Some l /\
                (l_crmId l = None \/ l_crmId l = Some ""%string)) ->
     b = false /\ calls w' = S (calls afterArjun)).
Proof.
  exact (updateCRMStatus_outcome (crmConfigured architectSpecs) 0 "HOT" afterArjun
           (Ok false)
           (snd (updateCRMStatus (crmConfigured architectSpecs) 0 "HOT" afterArjun))
           ltac:(vm_compute; reflexivity)).
Defined.

(** X10: after a sync that returned true, a status update for the same lead
    (the store and the CRM answering) returns true exactly when the id the
    CRM had answered to the sync is not the empty string: with an empty id
    the lead counts as not synced, although the sync reported success. *)
Theorem status_update_after_sync env id status w w1 :
  syncToCRM env id w = (Ok true, w1) ->
  dbFails env (calls w1) = false ->
  is_Some (crmAnswer env (S (calls w1))) ->
  exists crm,
    crmAnswer env (S (calls w)) = Some crm /\
    fst (updateCRMStatus env id status w1) = Ok (bool_decide (crm <> ""%string)).
Proof.
  intros E F A.
  destruct (syncToCRM_synced _ _ _ _ E) as (l & crm & t & L & C & L1).
  exists crm. split; [exact C|].
  assert (leads w1 !! id = Some (data_crm crm t l)) as L1'.
  { rewrite L1. apply list_lookup_insert_eq. eapply lookup_lt_Some, L. }
  rewrite (updateCRMStatus_answer _ _ _ _ _ L1' F A). cbn [l_crmId data_crm].
  destruct crm as [|c r].
  - rewrite bool_decide_eq_false_2 by auto. reflexivity.
  - rewrite bool_decide_eq_true_2 by discriminate. reflexivity.
Qed.

Lemma status_update_after_sync_witness :
  exists crm,
    crmAnswer (crmConfigured architectSpecs) (S (calls afterArjun)) = Some crm /\
    fst (updateCRMStatus (crmConfigured architectSpecs) 0 "HOT"
           (snd (syncToCRM (crmConfigured architectSpecs) 0 afterArjun))) =
      Ok (bool_decide (crm <> ""%string)).
Proof.
  apply (status_update_after_sync (crmConfigured architectSpecs) 0 "HOT" afterArjun
           (snd (syncToCRM (crmConfigured architectSpecs) 0 afterArjun))).
  - vm_compute. reflexivity.
  - vm_compute. reflexivity.
  - vm_compute. eexists. reflexivity.
Defined.

(** ** The senders and the lead *)

(** X11: [sendWhatsApp] for a lead never raises and changes no task.  It
    returns true exactly when Twilio accepts the message, the store accepts
    the insert of the interaction and the update of the lead, and the lead
    exists; the lead then has [whatsappSent] set and the time of the contact,
    its identity, status, priority and classification being as before.  When
    it returns false, no lead has changed. *)
Theorem sendWhatsApp_marks_lead env to message id w o w' :
  sendWhatsApp env to message (Some id) w = (o, w') ->
  contact_post data_whatsappSent l_whatsappSent id w o w' /\
  (o = Ok true <->
     is_Some (twilioAnswer env (calls w)) /\
     dbFails env (S (calls w)) = false /\
     dbFails env (S (S (calls w))) = false /\
     is_Some (leads w !! id)).
Proof.
  cbv [contact_post sendWhatsApp try_catch bind client_messages_create
       prisma_interaction_create prisma_lead_update Date_now query issue logger
       ret throw].
  run_on.
  destruct (twilioAnswer env (calls w)) as [sid|] eqn:T; run_on.
  2:{ run_done. settle. }
  destruct (dbFails env (S (calls w))) eqn:F1; run_on.
  { run_done. settle. }
  destruct (dbFails env (S (S (calls w)))) eqn:F2; run_on.
  { run_done. settle. }
  destruct (leads w !! id) as [l|] eqn:L; run_on.
  - run_done. conjs; auto.
    + exists l. eexists. conjs; reflexivity.
    + settle.
  - run_done. settle.
Qed.

Lemma sendWhatsApp_marks_lead_witness :
  let env := calm architectSpecs in
  let w' := snd (sendWhatsApp env (phone arjun) "Hello" (Some 0%nat) afterArjun) in
  contact_post data_whatsappSent l_whatsappSent 0 afterArjun (Ok true) w' /\
  (Ok true = Ok true <->
     is_Some (twilioAnswer env (calls afterArjun)) /\
     dbFails env (S (calls afterArjun)) = false /\
     dbFails env (S (S (calls afterArjun))) = false /\
     is_Some (leads afterArjun !! 0%nat)).
Proof.
  exact (sendWhatsApp_marks_lead (calm architectSpecs) (phone arjun) "Hello" 0
           afterArjun (Ok true)
           (snd (sendWhatsApp (calm architectSpecs) (phone arjun) "Hello" (Some 0%nat)
                   afterArjun))
           ltac:(vm_compute; reflexivity)).
Defined.

(** X12: the same for [sendEmail] with one of the three templates and a
    lead id in its options: it never raises, changes no task, returns true
    exactly when the relay accepts the mail, the store accepts the insert
    and the update, and the lead exists; the lead then has [emailSent] set
    and the time of the contact.  When it returns false, no lead has
    changed. *)
Theorem sendEmail_marks_lead env options id w o w' :
  string_in (o_template options) ["technical-specs"; "welcome"; "nurture-day3"] = true ->
  o_leadId options = Some id ->
  sendEmail env options w = (o, w') ->
  contact_post data_emailSent l_emailSent id w o w' /\
  (o = Ok true <->
     is_Some (smtpAnswer env (calls w)) /\
     dbFails env (S (calls w)) = false /\
     dbFails env (S (S (calls w))) = false /\
     is_Some (leads w !! id)).
Proof.
  intros _ O.
  cbv [contact_post sendEmail try_catch bind transporter_sendMail
       prisma_interaction_create prisma_lead_update Date_now query issue logger
       ret throw].
  rewrite O.
  run_on.
  destruct (smtpAnswer env (calls w)) as [sid|] eqn:T; run_on.
  2:{ run_done. settle. }
  destruct (dbFails env (S (calls w))) eqn:F1; run_on.
  { run_done. settle. }
  destruct (dbFails env (S (S (calls w)))) eqn:F2; run_on.
  { run_done. settle. }
  destruct (leads w !! id) as [l|] eqn:L; run_on.
  - run_done. conjs; auto.
    + exists l. eexists. conjs; reflexivity.
    + settle.
  - run_done. settle.
Qed.

Lemma sendEmail_marks_lead_witness :
  let env := storeRejects 11 architectSpecs in
  let w' := snd (sendEmail env specsOptions afterArjun) in
  contact_post data_emailSent l_emailSent 0 afterArjun (Ok false) w' /\
  (Ok false = Ok true <->
     is_Some (smtpAnswer env (calls afterArjun)) /\
     dbFails env (S (calls afterArjun)) = false /\
     dbFails env (S (S (calls afterArjun))) = false /\
     is_Some (leads afterArjun !! 0%nat)).
Proof.
  exact (sendEmail_marks_lead (storeRejects 11 architectSpecs) specsOptions 0
           afterArjun (Ok false)
           (snd (sendEmail (storeRejects 11 architectSpecs) specsOptions afterArjun))
           ltac:(reflexivity) ltac:(reflexivity) ltac:(vm_compute; reflexivity)).
Defined.

(** ** The review actions of the dashboard *)

Lemma updateMany_reviewed id g (ts : list Task) :
  tasks_reviewed id g ts
    (map (fun t => if bool_decide (t_leadId t = id) && bool_decide (t_status t = PENDING)
                   then g t else t) ts).
Proof.
  split; [apply length_map|].
  intros i t H.
  change (map ?f ts) with (f <$> ts).
  rewrite list_lookup_fmap, H. cbn. f_equal.
  repeat case_bool_decide; cbn; try reflexivity; tauto.
Qed.

Lemma reviewed_none_pending id g (ts ts' : list Task) :
  tasks_reviewed id g ts ts' ->
  (forall t, t_status (g t) <> PENDING) ->
  Forall (fun t => t_leadId t = id -> t_status t <> PENDING) ts'.
Proof.
  intros [Hlen H] G. apply Forall_lookup_2. intros i t' Ht'.
  destruct (ts !! i) as [t|] eqn:Ht.
  - rewrite (H _ _ Ht) in Ht'. injection Ht' as <-.
    case_bool_decide; [intros _; apply G|tauto].
  - apply lookup_ge_None in Ht. apply lookup_lt_Some in Ht'. lia.
Qed.

Lemma review_cases env id s a g msg msg' failure w resp w' :
  handler
    (updatedAt <- Date_now ;;
     lead <- prisma_lead_update env id (data_review s a updatedAt) ;;
     prisma_task_updateMany env
       (fun t => bool_decide (t_leadId t = id) && bool_decide (t_status t = PENDING)) g ;;;
     logger INFO msg ;;;
     ret (Json200 msg' lead)) failure w = (resp, w') ->
  interactions w' = interactions w /\ waCalls w' = waCalls w /\
  mailCalls w' = mailCalls w /\
  match resp with
  | Json200 _ lead =>
      (exists l, leads w !! id = Some l /\ lead = data_review s a (clock w) l) /\
      leads w' = <[id := lead]> (leads w) /\
      tasks_reviewed id g (tasks w) (tasks w')
  | Json500 _ => review_failure env id (data_review s a) w w'
  end.
Proof.
  cbv [handler review_failure bind prisma_lead_update prisma_task_updateMany Date_now
       query issue logger ret throw].
  run_on.
  destruct (dbFails env (calls w)) eqn:F; run_on.
  { run_done. conjs; auto. congruence. }
  destruct (leads w !! id) as [l|] eqn:L; run_on.
  2:{ run_done. conjs; auto. congruence. }
  destruct (dbFails env (S (calls w))) eqn:F1; run_on.
  { run_done. conjs; auto.
    - intros [?|?]; congruence.
    - intros _ ? [= <-]. auto. }
  run_done. conjs; eauto. apply updateMany_reviewed.
Qed.

(** X13: the approve action sends nothing and records no interaction.  When
    it answers 200, the lead existed and is now QUALIFIED, assigned as the
    request says (or as before, without an assignee in the request), and
    every task of the lead that was PENDING is IN_PROGRESS with the
    assignee and notes of the request; all other tasks and leads are as
    before.  When it answers 500, no task has changed, and the lead has
    changed exactly when it was the second call that the store rejected:
    the status then stays written. *)
Theorem approve_lead_outcome env id assignedTo notes w resp w' :
  approve_lead env id assignedTo notes w = (resp, w') ->
  interactions w' = interactions w /\ waCalls w' = waCalls w /\
  mailCalls w' = mailCalls w /\
  match resp with
  | Json200 _ lead =>
      (exists l, leads w !! id = Some l /\
                 lead = data_review QUALIFIED assignedTo (clock w) l) /\
      l_status lead = QUALIFIED /\
      leads w' = <[id := lead]> (leads w) /\
      tasks_reviewed id (data_task_review IN_PROGRESS assignedTo notes)
                     (tasks w) (tasks w') /\
      Forall (fun t => t_leadId t = id -> t_status t <> PENDING) (tasks w')
  | Json500 _ => review_failure env id (data_review QUALIFIED assignedTo) w w'
  end.
Proof.
  intros E. apply review_cases in E. destruct E as (I & W & M & E).
  conjs; auto. destruct resp as [m lead|m]; [|exact E].
  destruct E as ((l & L & ->) & L' & T). conjs; eauto.
  eapply reviewed_none_pending; [exact T|]. intros t. cbn. discriminate.
Qed.

Lemma approve_lead_outcome_witness :
  let env := storeRejects 10 architectSpecs in
  let w' := snd (approve_lead env 0 (Some "meera") None afterArjun) in
  interactions w' = interactions afterArjun /\ waCalls w' = waCalls afterArjun /\
  mailCalls w' = mailCalls afterArjun /\
  review_failure env 0 (data_review QUALIFIED (Some "meera")) afterArjun w'.
Proof.
  exact (approve_lead_outcome (storeRejects 10 architectSpecs) 0 (Some "meera") None
           afterArjun (Json500 "Failed to approve lead")
           (snd (approve_lead (storeRejects 10 architectSpecs) 0 (Some "meera") None
                   afterArjun))
           ltac:(vm_compute; reflexivity)).
Defined.

(** X14: the reject action sends nothing and records no interaction.  When
    it answers 200, the lead existed and is now SPAM if the reason is the
    string [spam] and LOST for any other or no reason, and every task of
    the lead that was PENDING is CANCELLED with the note [Rejected: ]
    followed by the reason ([undefined] without one), so that the lead has
    no PENDING task left; all other tasks and leads are as before.  When it
    answers 500, no task has changed, and the lead has changed exactly when
    it was the second call that the store rejected. *)
Theorem reject_lead_outcome env id reason w resp w' :
  reject_lead env id reason w = (resp, w') ->
  interactions w' = interactions w /\ waCalls w' = waCalls w /\
  mailCalls w' = mailCalls w /\
  match resp with
  | Json200 _ lead =>
      (exists l, leads w !! id = Some l /\
                 lead = data_review (if bool_decide (reason = Some "spam"%string)
                                     then SPAM else LOST) None (clock w) l) /\
      (l_status lead = SPAM <-> reason = Some "spam"%string) /\
      (l_status lead = LOST <-> reason <> Some "spam"%string) /\
      leads w' = <[id := lead]> (leads w) /\
      tasks_reviewed id
        (data_task_review CANCELLED None
           (Some ("Rejected: " ++ default "undefined" reason)%string))
        (tasks w) (tasks w') /\
      Forall (fun t => t_leadId t = id -> t_status t <> PENDING) (tasks w')
  | Json500 _ =>
      review_failure env id
        (data_review (if bool_decide (reason = Some "spam"%string) then SPAM else LOST)
                     None) w w'
  end.
Proof.
  intros E. apply review_cases in E. destruct E as (I & W & M & E).
  conjs; auto. destruct resp as [m lead|m]; [|exact E].
  destruct E as ((l & L & ->) & L' & T). conjs; eauto.
  - cbn. case_bool_decide; split; congruence.
  - cbn. case_bool_decide; split; congruence.
  - eapply reviewed_none_pending; [exact T|]. intros t. cbn. discriminate.
Qed.

Lemma reject_lead_outcome_witness :
  let resp := fst (reject_lead (calm architectSpecs) 0 (Some "spam") afterArjun) in
  let w' := snd (reject_lead (calm architectSpecs) 0 (Some "spam") afterArjun) in
  interactions w' = interactions afterArjun /\ waCalls w' = waCalls afterArjun /\
  mailCalls w' = mailCalls afterArjun /\
  match resp with
  | Json200 _ lead =>
      (exists l, leads afterArjun !! 0%nat = Some l /\
                 lead = data_review (if bool_decide (Some "spam"%string = Some "spam"%string)
                                     then SPAM else LOST) None (clock afterArjun) l) /\
      (l_status lead = SPAM <-> Some "spam"%string = Some "spam"%string) /\
      (l_status lead = LOST <-> Some "spam"%string <> Some "spam"%string) /\
      leads w' = <[0%nat := lead]> (leads afterArjun) /\
      tasks_reviewed 0
        (data_task_review CANCELLED None
           (Some ("Rejected: " ++ default "undefined" (Some "spam"%string))%string))
        (tasks afterArjun) (tasks w') /\
      Forall (fun t => t_leadId t = 0%nat -> t_status t <> PENDING) (tasks w')
  | Json500 _ =>
      review_failure (calm architectSpecs) 0
        (data_review (if bool_decide (Some "spam"%string = Some "spam"%string)
                      then SPAM else LOST) None) afterArjun w'
  end.
Proof.
  exact (reject_lead_outcome (calm architectSpecs) 0 (Some "spam") afterArjun
           (fst (reject_lead (calm architectSpecs) 0 (Some "spam") afterArjun))
           (snd (reject_lead (calm architectSpecs) 0 (Some "spam") afterArjun))
           ltac:(vm_compute; reflexivity)).
Defined.

(** ** What operations leave of the leads *)

Create HintDb fixes.

Lemma fixes_ret {A} (a : A) : fixes (ret a).
Proof. intros w. reflexivity. Qed.

Lemma fixes_throw {A} e : fixes (throw (A := A) e).
Proof. intros w. reflexivity. Qed.

Lemma fixes_bind {A B} (m : M A) (k : A -> M B) :
  fixes m -> (forall a, fixes (k a)) -> fixes (bind m k).
Proof.
  intros Hm Hk w. unfold bind. specialize (Hm w).
  destruct (m w) as [[a|e] w1]; cbn in *; [rewrite Hk|]; exact Hm.
Qed.

Lemma fixes_try_catch {A} (m : M A) (h : Err -> M A) :
  fixes m -> (forall e, fixes (h e)) -> fixes (try_catch m h).
Proof.
  intros Hm Hh w. unfold try_catch. specialize (Hm w).
  destruct (m w) as [[a|e] w1]; cbn in *; [|rewrite Hh]; exact Hm.
Qed.

Lemma fixes_detach {A} (m : M A) : fixes m -> fixes (detach m).
Proof.
  intros Hm w. unfold detach. specialize (Hm w).
  destruct (m w) as [[a|e] w1]; cbn in *; exact Hm.
Qed.

Lemma fixes_detach_catch {A} (m : M A) (h : Err -> M unit) :
  fixes m -> (forall e, fixes (h e)) -> fixes (detach_catch m h).
Proof.
  intros Hm Hh w. unfold detach_catch. specialize (Hm w).
  destruct (m w) as [[a|e] w1]; cbn in *; [|rewrite Hh]; exact Hm.
Qed.

Lemma fixes_for_of {A} (l : list A) (body : A -> M unit) :
  (forall x, fixes (body x)) -> fixes (for_of l body).
Proof.
  intros H. induction l as [|x l IH]; cbn [for_of].
  - apply fixes_ret.
  - apply fixes_bind; auto.
Qed.

Lemma fixes_handler (m : M Response) failure : fixes m -> fixes (handler m failure).
Proof.
  intros Hm w. unfold handler. specialize (Hm w).
  destruct (m w) as [[a|e] w1]; cbn in *; exact Hm.
Qed.

Lemma fixes_Promise_all {A} (ms : list (M A)) :
  Forall fixes ms -> fixes (Promise_all ms).
Proof.
  induction 1 as [|m ms Hm _ IH]; cbn [Promise_all]; [apply fixes_ret|].
  intros w. specialize (Hm w). destruct (m w) as [[a|e] w1]; cbn in *.
  - specialize (IH w1). destruct (Promise_all ms w1) as [[l|e] w2]; cbn in *; congruence.
  - rewrite IH. exact Hm.
Qed.

Lemma fixes_logger lv msg : fixes (logger lv msg).
Proof. intros w. reflexivity. Qed.

Lemma fixes_Date_now : fixes Date_now.
Proof. intros w. reflexivity. Qed.

Lemma fixes_sleep ms : fixes (sleep ms).
Proof. intros w. reflexivity. Qed.

Lemma fixes_Math_random env : fixes (Math_random env).
Proof. intros w. reflexivity. Qed.

Lemma fixes_issue env : fixes (issue env).
Proof. intros w. reflexivity. Qed.

Lemma fixes_query env : fixes (query env).
Proof.
  apply fixes_bind; [apply fixes_issue|]. intros n.
  destruct (dbFails env n); [apply fixes_throw|apply fixes_ret].
Qed.

#[local] Hint Resolve fixes_ret fixes_throw fixes_logger fixes_Date_now fixes_sleep
  fixes_Math_random fixes_issue fixes_query : fixes.

(** A primitive that reads or writes other tables than the leads. *)
Ltac fixes_prim :=
  repeat (apply fixes_bind; [solve [auto with fixes]|intros ?]);
  intros w; cbn; repeat case_match; reflexivity.

Lemma fixes_prisma_lead_update env id (f : Lead -> Lead) :
  (forall l, core (f l) = core l) -> fixes (prisma_lead_update env id f).
Proof.
  intros Hf. apply fixes_bind; [auto with fixes|]. intros _ w.
  cbn beta. destruct (leads w !! id) as [l|] eqn:L; cbn; [|reflexivity].
  rewrite list_fmap_insert, Hf. apply list_insert_id.
  rewrite list_lookup_fmap, L. reflexivity.
Qed.

Lemma fixes_prisma_lead_findUnique env id : fixes (prisma_lead_findUnique env id).
Proof. fixes_prim. Qed.

Lemma fixes_prisma_lead_findUnique_crmId env id : fixes (prisma_lead_findUnique_crmId env id).
Proof. fixes_prim. Qed.

Lemma fixes_prisma_lead_count env wh : fixes (prisma_lead_count env wh).
Proof. fixes_prim. Qed.

Lemma fixes_prisma_task_create env input s : fixes (prisma_task_create env input s).
Proof. fixes_prim. Qed.

Lemma fixes_prisma_task_updateMany env wh g : fixes (prisma_task_updateMany env wh g).
Proof. fixes_prim. Qed.

Lemma fixes_prisma_interaction_create env i : fixes (prisma_interaction_create env i).
Proof. fixes_prim. Qed.

Lemma fixes_client_messages_create env req : fixes (client_messages_create env req).
Proof. fixes_prim. Qed.

Lemma fixes_transporter_sendMail env req : fixes (transporter_sendMail env req).
Proof. fixes_prim. Qed.

Lemma fixes_axios_post env p : fixes (axios_post env p).
Proof. fixes_prim. Qed.

Lemma fixes_axios_patch env c s : fixes (axios_patch env c s).
Proof. fixes_prim. Qed.

Lemma fixes_generateObject_classification env : fixes (generateObject_classification env).
Proof. fixes_prim. Qed.

Lemma fixes_generateObject_message env : fixes (generateObject_message env).
Proof. fixes_prim. Qed.

#[local] Hint Resolve fixes_prisma_lead_findUnique fixes_prisma_lead_findUnique_crmId
  fixes_prisma_lead_count fixes_prisma_task_create fixes_prisma_task_updateMany
  fixes_prisma_interaction_create fixes_client_messages_create
  fixes_transporter_sendMail fixes_axios_post fixes_axios_patch
  fixes_generateObject_classification fixes_generateObject_message : fixes.

(** Takes a function apart along its control structure. *)
Ltac fixes_go :=
  repeat first
    [ solve [auto with fixes]
    | apply fixes_prisma_lead_update; intros ?; reflexivity
    | apply fixes_bind; [|intros ?]
    | apply fixes_try_catch; [|intros ?]
    | apply fixes_detach_catch; [|intros ?]
    | apply fixes_detach
    | apply fixes_for_of; intros ?
    | apply fixes_handler
    | match goal with
      | |- fixes (if ?b then _ else _) => destruct b
      | |- fixes (match ?x with _ => _ end) => destruct x
      end ].

Lemma fixes_classifyLead env ld : fixes (classifyLead env ld).
Proof. unfold classifyLead. fixes_go. Qed.

Lemma fixes_generatePersonalizedMessage env p i n e :
  fixes (generatePersonalizedMessage env p i n e).
Proof. unfold generatePersonalizedMessage. fixes_go. Qed.

Lemma fixes_createTask env input : fixes (createTask env input).
Proof. unfold createTask. fixes_go. Qed.

#[local] Hint Resolve fixes_classifyLead fixes_generatePersonalizedMessage
  fixes_createTask : fixes.

Lemma fixes_sendWhatsApp env to message leadId : fixes (sendWhatsApp env to message leadId).
Proof. unfold sendWhatsApp. fixes_go. Qed.

Lemma fixes_sendEmail env options : fixes (sendEmail env options).
Proof. unfold sendEmail. fixes_go. Qed.

Lemma fixes_simulateEnrichment env mail : fixes (simulateEnrichment env mail).
Proof. unfold simulateEnrichment. fixes_go. Qed.

#[local] Hint Resolve fixes_sendWhatsApp fixes_sendEmail fixes_simulateEnrichment : fixes.

Lemma fixes_enrichLead env id mail ph : fixes (enrichLead env id mail ph).
Proof. unfold enrichLead. fixes_go. Qed.

Lemma fixes_syncToCRM env id : fixes (syncToCRM env id).
Proof. unfold syncToCRM. fixes_go. Qed.

Lemma fixes_updateCRMStatus env id status : fixes (updateCRMStatus env id status).
Proof. unfold updateCRMStatus. fixes_go. Qed.

Lemma fixes_scheduleFollowUp env id days : fixes (scheduleFollowUp env id days).
Proof. unfold scheduleFollowUp. fixes_go. Qed.

Lemma fixes_startNurtureCampaign env id p : fixes (startNurtureCampaign env id p).
Proof. unfold startNurtureCampaign. fixes_go. Qed.

#[local] Hint Resolve fixes_enrichLead fixes_syncToCRM fixes_updateCRMStatus
  fixes_scheduleFollowUp fixes_startNurtureCampaign : fixes.

Lemma fixes_approve_lead env id a n : fixes (approve_lead env id a n).
Proof. unfold approve_lead. fixes_go. Qed.

Lemma fixes_reject_lead env id reason : fixes (reject_lead env id reason).
Proof. unfold reject_lead. fixes_go. Qed.

Lemma fixes_analytics_funnel env : fixes (analytics_funnel env).
Proof.
  intros w. unfold analytics_funnel.
  match goal with |- context [bind ?m ?k w] =>
    assert (fixes (bind m k)) as H
  end.
  { apply fixes_bind; [|intros ?; apply fixes_ret].
    apply fixes_Promise_all. apply Forall_map, Forall_forall. intros s _.
    fixes_go. }
  specialize (H w). cbv zeta in *.
  match goal with |- context [bind ?m ?k w] => destruct (bind m k w) as [[r|e] w1] end;
    cbn in *; exact H.
Qed.

Lemma fixes_wp {A} (m : M A) w :
  fixes m -> wp m w (fun _ w' => (core <$> leads w') = (core <$> leads w)).
Proof. intros H. apply H. Qed.

Lemma classification_write env id c w :
  wp (prisma_lead_update env id (data_classification c (priorityOfScore (leadScore c)))) w
     (fun o w' =>
        match o with
        | Ok _ =>
            exists l, leads w !! id = Some l /\
              (core <$> leads w') =
                <[id := (identity l, (Some (persona c), Some (intent c),
                                      Some (leadScore c),
                                      Some (priorityOfScore (leadScore c))))]>
                  (core <$> leads w)
        | Throw _ => leads w' = leads w
        end).
Proof.
  eapply wp_mono; [apply prisma_lead_update_spec|]; cbv beta.
  intros [l'|e] w' (_ & _ & O).
  - destruct O as (l & L & -> & ->). exists l. split; [exact L|].
    rewrite list_fmap_insert. reflexivity.
  - tauto.
Qed.

Lemma workflow_core env ld w :
  wp (leadOrchestrationWorkflow env ld) w (fun o w' =>
    if dbFails env (calls w)
    then o = Throw (PrismaError (calls w)) /\
         leads w' = leads w /\ tasks w' = tasks w /\
         waCalls w' = waCalls w /\ mailCalls w' = mailCalls w
    else exists r,
           (core <$> leads w') = (core <$> leads w) ++ [(submitted ld w, r)] /\
           rating_ok r /\
           (r = unrated -> exists e, o = Throw e)).
Proof.
  unfold leadOrchestrationWorkflow. wp_step. wp_step. apply wp_logger.
  wp_step. eapply wp_mono; [apply prisma_lead_create_spec|]; cbv beta.
  cbn [calls leads tasks waCalls mailCalls clock set_logs].
  intros [lead|e] w2 (X & O).
  2:{ destruct O as (_ & L & -> & ->). destruct X as [T W M _ _].
      cbn in T, W, M. rewrite app_nil_r in T, W, M.
      wp_step. apply wp_logger. wp_step. cbn. auto. }
  destruct O as (-> & L & ->).
  assert ((core <$> leads w2) = (core <$> leads w) ++ [(submitted ld w, unrated)]) as E2.
  { rewrite L, fmap_app. reflexivity. }
  assert (forall e w3,
            (core <$> leads w3) = (core <$> leads w) ++ [(submitted ld w, unrated)] ->
            wp (logger ERROR "Lead orchestration workflow failed" ;;;
                throw (A := WorkflowResult) e) w3
               (fun o w' =>
                  exists r,
                    (core <$> leads w') = (core <$> leads w) ++ [(submitted ld w, r)] /\
                    rating_ok r /\ (r = unrated -> exists e, o = Throw e))) as Fail.
  { intros e w3 E3. wp_step. apply wp_logger. wp_step. cbn.
    exists unrated. conjs; [exact E3|left; reflexivity|eauto]. }
  wp_step. apply wp_logger. wp_step.
  eapply wp_mono;
    [apply wp_conj; [apply classifyLead_spec|apply fixes_wp, fixes_classifyLead]|];
    cbv beta.
  cbn [leads set_logs].
  intros o w3 ((_ & _ & c & -> & Hc) & E3). rewrite E2 in E3.
  wp_step. cbn [l_id new_lead].
  eapply wp_mono; [apply classification_write|]; cbv beta.
  intros [l'|e] w4 O.
  2:{ apply Fail. rewrite O. exact E3. }
  destruct O as (l & Hl & E4).
  assert (identity l = submitted ld w) as Il.
  { assert ((core <$> leads w3) !! length (leads w) = Some (core l)) as H
      by (rewrite list_lookup_fmap, Hl; reflexivity).
    rewrite E3 in H.
    replace (length (leads w)) with (length (core <$> leads w)) in H
      by apply length_fmap.
    rewrite lookup_app_last in H.
    assert (core l = (submitted ld w, unrated)) as H' by congruence.
    exact (f_equal fst H'). }
  set (r := (Some (persona c), Some (intent c), Some (leadScore c),
             Some (priorityOfScore (leadScore c)))) in *.
  assert ((core <$> leads w4) = (core <$> leads w) ++ [(submitted ld w, r)]) as E4'.
  { rewrite E4, E3, Il.
    replace (length (leads w)) with (length (core <$> leads w) + 0)%nat
      by (rewrite length_fmap; lia).
    rewrite insert_app_r. reflexivity. }
  assert (rating_ok r) as Hr.
  { right. exists (persona c), (intent c), (leadScore c). auto. }
  eapply wp_mono; [apply fixes_wp; fixes_go|]; cbv beta.
  intros [res|e] w5 E5.
  - exists r. conjs; [congruence|exact Hr|discriminate].
  - wp_step. apply wp_logger. wp_step. cbn.
    exists r. conjs; [congruence|exact Hr|discriminate].
Qed.

(** ** The store across operations *)

Lemma core_lookup (ls : list Lead) i c :
  (core <$> ls) !! i = Some c -> exists l, ls !! i = Some l /\ core l = c.
Proof.
  rewrite list_lookup_fmap. destruct (ls !! i) as [l|]; cbn; [|discriminate].
  intros [= <-]. eauto.
Qed.

Lemma webhook_lead_run env req w :
  validationErrors req = [] ->
  webhook_lead env req w =
    match leadOrchestrationWorkflow env (webhookData req)
            (set_logs (logs w ++ [(INFO, "New lead received via webhook")]) w) with
    | (Ok result, w1) =>
        (Accepted200 (r_leadId result)
           (if Qle_bool (8 # 10) (r_score result) then "5 minutes" else "24 hours"),
         w1)
    | (Throw e, w1) =>
        (Failed500 "An error occurred while processing your request. Please try again.",
         set_logs (logs w1 ++ [(ERROR, "Webhook processing failed")]) w1)
    end.
Proof.
  intros V. unfold webhook_lead, webhookData. rewrite V.
  unfold bind, logger, ret. cbn.
  destruct (leadOrchestrationWorkflow env _ _) as [[r|e] w1]; reflexivity.
Qed.

Lemma webhook_lead_core env req w :
  (core <$> leads (snd (webhook_lead env req w))) = (core <$> leads w) \/
  exists ld r,
    (core <$> leads (snd (webhook_lead env req w))) =
      (core <$> leads w) ++ [(submitted ld w, r)] /\ rating_ok r.
Proof.
  destruct (validationErrors req) eqn:V.
  2:{ left. unfold webhook_lead. rewrite V. reflexivity. }
  rewrite (webhook_lead_run _ _ _ V).
  pose proof (workflow_core env (webhookData req)
                (set_logs (logs w ++ [(INFO, "New lead received via webhook"%string)]) w))
    as H.
  unfold wp in H. cbn [calls leads set_logs] in H.
  destruct (leadOrchestrationWorkflow env _ _) as [[res|e] w1]; cbn in H |- *.
  all: destruct (dbFails env (calls w)).
  all: try (destruct H as (_ & -> & _); left; reflexivity).
  all: destruct H as (r & E & Hr & _); right; exists (webhookData req), r; auto.
Qed.

Lemma operation_core env w w' :
  operation env w w' ->
  (core <$> leads w') = (core <$> leads w) \/
  exists ld r,
    (core <$> leads w') = (core <$> leads w) ++ [(submitted ld w, r)] /\ rating_ok r.
Proof.
  destruct 1.
  - apply webhook_lead_core.
  - left. apply fixes_approve_lead.
  - left. apply fixes_reject_lead.
  - left. apply fixes_analytics_funnel.
  - pose proof (workflow_core env ld w) as H. unfold wp in H.
    destruct (dbFails env (calls w)).
    + destruct H as (_ & -> & _). left. reflexivity.
    + destruct H as (r & E & Hr & _). right. eauto.
  - left. apply fixes_sendWhatsApp.
  - left. apply fixes_sendEmail.
  - left. apply fixes_createTask.
  - left. apply fixes_enrichLead.
  - left. apply fixes_syncToCRM.
  - left. apply fixes_updateCRMStatus.
Qed.

Lemma reachable_core env w w' :
  reachable env w w' -> (core <$> leads w) `prefix_of` (core <$> leads w').
Proof.
  induction 1 as [|w w1 w2 _ IH O]; [reflexivity|].
  etrans; [exact IH|].
  destruct (operation_core _ _ _ O) as [->|(ld & r & -> & _)];
    [reflexivity|apply prefix_app_r; reflexivity].
Qed.

Lemma core_last (w w' : World) c :
  (core <$> leads w') = (core <$> leads w) ++ [c] ->
  length (leads w') = S (length (leads w)) /\
  exists l, leads w' !! length (leads w) = Some l /\ core l = c.
Proof.
  intros E. split.
  - apply (f_equal length) in E. rewrite length_app, !length_fmap in E. cbn in E. lia.
  - apply core_lookup. rewrite E.
    replace (length (leads w)) with (length (core <$> leads w)) by apply length_fmap.
    apply lookup_app_last.
Qed.

Lemma lead_ok_core i l l' : core l = core l' -> lead_ok i l -> lead_ok i l'.
Proof.
  unfold core, lead_ok. intros E [I R].
  assert (identity l = identity l') as E1 by exact (f_equal fst E).
  assert (rating l = rating l') as E2 by exact (f_equal snd E).
  rewrite <- E2. split; [|exact R].
  unfold identity in E1. congruence.
Qed.

Lemma operation_consistent env w w' :
  operation env w w' -> consistent w -> consistent w'.
Proof.
  intros O C i l' L'.
  assert ((core <$> leads w') !! i = Some (core l')) as H
    by (rewrite list_lookup_fmap, L'; reflexivity).
  destruct (operation_core _ _ _ O) as [E|(ld & r & E & Hr)]; rewrite E in H.
  - apply core_lookup in H. destruct H as (l & L & El).
    eapply lead_ok_core; [exact El|]. apply C. exact L.
  - destruct (decide (i < length (leads w))%nat) as [Lt|Ge].
    + rewrite lookup_app_l in H by (rewrite length_fmap; exact Lt).
      apply core_lookup in H. destruct H as (l & L & El).
      eapply lead_ok_core; [exact El|]. apply C. exact L.
    + rewrite lookup_app_r in H by (rewrite length_fmap; lia).
      rewrite length_fmap in H.
      destruct (i - length (leads w))%nat as [|k] eqn:K; [|destruct k; discriminate].
      cbn in H. assert ((submitted ld w, r) = core l') as Hc by congruence.
      apply lookup_lt_Some in L'.
      assert (length (core <$> leads w') = S (length (leads w))) as Len
        by (rewrite E, length_app, length_fmap; cbn; lia).
      rewrite length_fmap in Len.
      assert (identity l' = submitted ld w) as Hi by exact (eq_sym (f_equal fst Hc)).
      assert (rating l' = r) as Hg by exact (eq_sym (f_equal snd Hc)).
      split; [|rewrite Hg; exact Hr].
      unfold identity, submitted in Hi.
      assert (l_id l' = length (leads w)) as Hid by congruence.
      lia.
Qed.

(** X15: what a run of the workflow leaves of the leads, whether it returns
    or raises.  When the store rejects the insert of step 1, the workflow
    raises that rejection and leads, tasks and provider calls are as they
    were.  Otherwise the store holds one lead more: the leads it had keep
    their identity and rating, and the new lead carries the submitted data,
    [website] as its source when none is given, and the time of the call;
    its rating is complete, or it is empty and the workflow has raised (the
    lead is not removed). *)
Theorem workflow_stores_the_submission env ld w o w' :
  leadOrchestrationWorkflow env ld w = (o, w') ->
  (dbFails env (calls w) = true ->
   o = Throw (PrismaError (calls w)) /\ leads w' = leads w /\ tasks w' = tasks w /\
   waCalls w' = waCalls w /\ mailCalls w' = mailCalls w) /\
  (dbFails env (calls w) = false ->
   length (leads w') = S (length (leads w)) /\
   (forall i l, leads w !! i = Some l ->
      exists l', leads w' !! i = Some l' /\ core l' = core l) /\
   exists l,
     leads w' !! length (leads w) = Some l /\
     identity l = submitted ld w /\
     rating_ok (rating l) /\
     (rating l = unrated -> exists e, o = Throw e)).
Proof.
  intros E. pose proof (wp_run _ _ _ _ _ (workflow_core env ld w) E) as H.
  cbv beta in H. split; intros F; rewrite F in H; [exact H|].
  destruct H as (r & Ec & Hr & U).
  destruct (core_last _ _ _ Ec) as (Len & l & L & C).
  conjs; [exact Len| |].
  - intros i l0 L0. apply core_lookup. rewrite Ec.
    rewrite lookup_app_l by (rewrite length_fmap; eapply lookup_lt_Some, L0).
    rewrite list_lookup_fmap, L0. reflexivity.
  - exists l. split; [exact L|].
    assert (rating l = r) as -> by exact (f_equal snd C).
    conjs; auto. exact (f_equal fst C).
Qed.

Lemma workflow_stores_the_submission_witness :
  let env := storeRejects 2 architectSpecs in
  let o := fst (leadOrchestrationWorkflow env arjun emptyWorld) in
  let w' := snd (leadOrchestrationWorkflow env arjun emptyWorld) in
  (dbFails env (calls emptyWorld) = true ->
   o = Throw (PrismaError (calls emptyWorld)) /\ leads w' = leads emptyWorld /\
   tasks w' = tasks emptyWorld /\
   waCalls w' = waCalls emptyWorld /\ mailCalls w' = mailCalls emptyWorld) /\
  (dbFails env (calls emptyWorld) = false ->
   length (leads w') = S (length (leads emptyWorld)) /\
   (forall i l, leads emptyWorld !! i = Some l ->
      exists l', leads w' !! i = Some l' /\ core l' = core l) /\
   exists l,
     leads w' !! length (leads emptyWorld) = Some l /\
     identity l = submitted arjun emptyWorld /\
     rating_ok (rating l) /\
     (rating l = unrated -> exists e, o = Throw e)).
Proof.
  exact (workflow_stores_the_submission (storeRejects 2 architectSpecs) arjun emptyWorld
           (fst (leadOrchestrationWorkflow (storeRejects 2 architectSpecs) arjun emptyWorld))
           (snd (leadOrchestrationWorkflow (storeRejects 2 architectSpecs) arjun emptyWorld))
           ltac:(vm_compute; reflexivity)).
Defined.



(** X17: through any sequence of operations (requests to the lead webhook,
    to the approve and reject actions and to the funnel, and calls of the
    workflow, the senders (mails with one of the three templates), the task,
    enrichment and CRM services), a stored lead stays at its place with the
    identity it was stored with and the rating it has: no operation removes
    a lead, rewrites the submitted data or rates a lead again. *)
Theorem stored_leads_are_kept env w w' i l :
  reachable env w w' ->
  leads w !! i = Some l ->
  exists l', leads w' !! i = Some l' /\ identity l' = identity l /\ rating l' = rating l.
Proof.
  intros R L. apply reachable_core in R.
  assert ((core <$> leads w) !! i = Some (core l)) as H
    by (rewrite list_lookup_fmap, L; reflexivity).
  eapply prefix_lookup_Some in H; [|exact R].
  apply core_lookup in H. destruct H as (l' & L' & E).
  exists l'. split; [exact L'|].
  split; [exact (f_equal fst E)|exact (f_equal snd E)].
Qed.

Lemma stored_leads_are_kept_witness :
  exists l',
    leads (snd (reject_lead (calm architectSpecs) 0 (Some "spam") afterArjun)) !! 0%nat
      = Some l' /\
    identity l' = identity arjunStored /\ rating l' = rating arjunStored.
Proof.
  apply (stored_leads_are_kept (calm architectSpecs) afterArjun
           (snd (reject_lead (calm architectSpecs) 0 (Some "spam") afterArjun))
           0 arjunStored).
  - eapply reach_step; [apply reach_here|apply op_reject_lead].
  - vm_compute. reflexivity.
Defined.

(** X18: consistency of the store is kept by every sequence of operations:
    when every lead is stored at the position that is its identifier and
    has a rating that is empty or complete (persona, intent, a score in
    [0,1] and the priority of that score), the same holds after the
    operations, in particular for every store reached from the empty
    one. *)
Theorem reachable_stores_are_consistent env w w' :
  consistent w -> reachable env w w' -> consistent w'.
Proof.
  intros C R. induction R as [|w w1 w2 _ IH O]; [exact C|].
  eapply operation_consistent; eauto.
Qed.

Lemma reachable_stores_are_consistent_witness :
  consistent (snd (reject_lead (calm architectSpecs) 0 (Some "spam") afterArjun)).
Proof.
  apply (reachable_stores_are_consistent (calm architectSpecs) emptyWorld).
  - intros i l H. vm_compute in H. destruct i; discriminate.
  - eapply reach_step; [|apply op_reject_lead].
    eapply reach_step; [apply reach_here|].
    exact (op_workflow (calm architectSpecs) arjun emptyWorld).
Defined.

(** ** The lead webhook *)

Lemma priority_high s : priorityOfScore s = HIGH <-> Qle_bool (8 # 10) s = true.
Proof.
  unfold priorityOfScore. destruct (Qle_bool (8 # 10) s); [tauto|].
  destruct (Qle_bool (1 # 2) s); split; discriminate.
Qed.

(** X19: the answers of the lead webhook.  With validation errors it
    answers 400 with the errors and the world is untouched: no lead is
    stored and no service is called.  Without, it answers 200 exactly when
    the workflow returns: the identifier is that of the new lead, which
    carries the fields of the body, [website] as its source, the address of
    the request or else the forwarded one, and the user agent; the estimate
    is [5 minutes] exactly when the lead's priority is HIGH, whatever its
    persona, and [24 hours] otherwise.  It answers 500 only after the store
    has rejected a call. *)
Theorem webhook_lead_response env req w resp w' :
  webhook_lead env req w = (resp, w') ->
  match resp with
  | Invalid400 errors =>
      validationErrors req <> [] /\ errors = validationErrors req /\ w' = w
  | Accepted200 id estimate =>
      validationErrors req = [] /\ id = length (leads w) /\
      exists l s,
        leads w' !! id = Some l /\
        l_name l = body_name req /\ l_email l = body_email req /\
        l_phone l = body_phone req /\ l_inquiry l = body_inquiry req /\
        l_materialType l = body_materialType req /\
        l_source l = "website"%string /\
        l_ipAddress l = or_else (req_ip req) (header_x_forwarded_for req) /\
        l_userAgent l = header_user_agent req /\
        l_leadScore l = Some s /\
        (estimate = "5 minutes"%string <-> l_priority l = Some HIGH) /\
        (estimate = "24 hours"%string <-> l_priority l <> Some HIGH)
  | Failed500 _ =>
      validationErrors req = [] /\
      exists n, (calls w <= n < calls w')%nat /\ dbFails env n = true
  end.
Proof.
  destruct (validationErrors req) eqn:V.
  2:{ unfold webhook_lead. rewrite V. intros [= <- <-]. conjs; auto; discriminate. }
  rewrite (webhook_lead_run _ _ _ V).
  set (w0 := set_logs (logs w ++ [(INFO, "New lead received via webhook"%string)]) w).
  destruct (leadOrchestrationWorkflow env (webhookData req) w0) as [[res|e] w1] eqn:E;
    intros [= <- <-].
  - destruct (workflow_lead _ _ _ _ _ E) as (Id & _ & _ & _ & l & L & _ & P & _ & _ & _ & S).
    pose proof (wp_run _ _ _ _ _ (workflow_core env (webhookData req) w0) E) as H.
    cbv beta in H.
    destruct (dbFails env (calls w0)); [destruct H as (? & _); discriminate|].
    destruct H as (r & Ec & _).
    destruct (core_last _ _ _ Ec) as (_ & l1 & L1 & C).
    rewrite Id in L. assert (l1 = l) as -> by congruence.
    assert (identity l = submitted (webhookData req) w0) as Il by exact (f_equal fst C).
    unfold identity, submitted, webhookData in Il. cbn in Il.
    injection Il as _ ? ? ? ? ? ? ? ? _.
    split; [reflexivity|]. split; [exact Id|].
    exists l, (r_score res). rewrite Id. conjs; auto.
    + rewrite P. split.
      * intros T. f_equal. apply priority_high.
        destruct (Qle_bool (8 # 10) (r_score res)); [reflexivity|discriminate].
      * intros [= T]. apply priority_high in T. rewrite T. reflexivity.
    + rewrite P. split.
      * intros T [= T']. apply priority_high in T'. rewrite T' in T. discriminate.
      * intros T. destruct (Qle_bool (8 # 10) (r_score res)) eqn:Q; [|reflexivity].
        apply priority_high in Q. congruence.
  - pose proof (workflow_run _ _ _ _ _ E) as (n & R & F & _).
    split; [reflexivity|]. exists n. split; [exact R|exact F].
Qed.

Lemma webhook_lead_response_witness :
  let resp := fst (webhook_lead (calm architectSpecs) arjunRequest emptyWorld) in
  let w' := snd (webhook_lead (calm architectSpecs) arjunRequest emptyWorld) in
  match resp with
  | Invalid400 errors =>
      validationErrors arjunRequest <> [] /\ errors = validationErrors arjunRequest /\
      w' = emptyWorld
  | Accepted200 id estimate =>
      validationErrors arjunRequest = [] /\ id = length (leads emptyWorld) /\
      exists l s,
        leads w' !! id = Some l /\
        l_name l = body_name arjunRequest /\ l_email l = body_email arjunRequest /\
        l_phone l = body_phone arjunRequest /\ l_inquiry l = body_inquiry arjunRequest /\
        l_materialType l = body_materialType arjunRequest /\
        l_source l = "website"%string /\
        l_ipAddress l =
          or_else (req_ip arjunRequest) (header_x_forwarded_for arjunRequest) /\
        l_userAgent l = header_user_agent arjunRequest /\
        l_leadScore l = Some s /\
        (estimate = "5 minutes"%string <-> l_priority l = Some HIGH) /\
        (estimate = "24 hours"%string <-> l_priority l <> Some HIGH)
  | Failed500 _ =>
      validationErrors arjunRequest = [] /\
      exists n, (calls emptyWorld <= n < calls w')%nat /\
                dbFails (calm architectSpecs) n = true
  end.
Proof.
  exact (webhook_lead_response (calm architectSpecs) arjunRequest emptyWorld
           (fst (webhook_lead (calm architectSpecs) arjunRequest emptyWorld))
           (snd (webhook_lead (calm architectSpecs) arjunRequest emptyWorld))
           ltac:(vm_compute; reflexivity)).
Defined.

(** ** The threshold variable out of range *)




(** ** The funnel *)

Lemma funnel_queries env (ss : list LeadStatus) w :
  let run :=
    Promise_all
      (map (fun status =>
              count <- prisma_lead_count env
                         (fun l => bool_decide (l_status l = status)) ;;
              ret (status, count)) ss) w in
  leads (snd run) = leads w /\ tasks (snd run) = tasks w /\
  interactions (snd run) = interactions w /\
  calls (snd run) = (calls w + length ss)%nat /\
  match fst run with
  | Ok l =>
      l = map (fun s => (s, count_status s (leads w))) ss /\
      forall n, (calls w <= n < calls w + length ss)%nat -> dbFails env n = false
  | Throw e =>
      exists n, (calls w <= n < calls w + length ss)%nat /\ dbFails env n = true
  end.
Proof.
  revert w. induction ss as [|s ss IH]; intros w; cbn [map Promise_all].
  { cbn. conjs; auto; try lia; intros n ?; lia. }
  cbv zeta in IH |- *. set (ms := map _ ss) in *.
  cbv [bind prisma_lead_count query issue ret throw]. run_on.
  destruct (dbFails env (calls w)) eqn:F; run_on.
  - match goal with |- context [Promise_all ms ?w1] =>
      specialize (IH w1); destruct (Promise_all ms w1) as [o w2]
    end.
    cbn in IH |- *. destruct IH as (L & T & I & C & _).
    conjs; auto; try lia. exists (calls w). split; [lia|exact F].
  - match goal with |- context [Promise_all ms ?w1] =>
      specialize (IH w1); destruct (Promise_all ms w1) as [[l|e] w2]
    end; cbn in IH |- *; destruct IH as (L & T & I & C & O).
    + destruct O as (-> & N). conjs; auto; try lia.
      intros n Hn. destruct (decide (n = calls w)) as [->|]; [exact F|].
      apply N. lia.
    + destruct O as (n & Hn & Fn). conjs; auto; try lia.
      exists n. split; [lia|exact Fn].
Qed.

Lemma funnel_total (ls : list Lead) :
  fold_left (fun sum (stage : LeadStatus * nat) => (sum + snd stage)%nat)
    (map (fun s => (s, count_status s ls)) funnelStatuses) 0%nat =
  length (List.filter (fun l => negb (bool_decide (l_status l = SPAM))) ls).
Proof.
  cbn. unfold count_status.
  induction ls as [|l ls IH]; [reflexivity|].
  cbn [List.filter].
  destruct (l_status l);
    repeat match goal with
    | |- context [bool_decide ?P] =>
        let b := eval vm_compute in (bool_decide P) in
        change (bool_decide P) with b
    end;
    cbn [length negb]; lia.
Qed.

(** X21: the funnel endpoint writes nothing and always issues its seven
    counts.  It answers 200 exactly when the store rejects none of them: the
    funnel lists NEW, CONTACTED, QUALIFIED, NURTURING, HOT, CONVERTED and
    LOST, in this order, each with the number of leads of that status, and
    the total is the number of leads whose status is not SPAM (leads marked
    as spam are in no stage and not in the total).  It answers 500 when the
    store rejects one of the counts. *)
Theorem analytics_funnel_counts env w resp w' :
  analytics_funnel env w = (resp, w') ->
  leads w' = leads w /\ tasks w' = tasks w /\ interactions w' = interactions w /\
  calls w' = (calls w + 7)%nat /\
  match resp with
  | Funnel200 funnel totalLeads =>
      funnel = map (fun s => (s, count_status s (leads w))) funnelStatuses /\
      totalLeads =
        length (List.filter (fun l => negb (bool_decide (l_status l = SPAM))) (leads w)) /\
      (totalLeads <= length (leads w))%nat /\
      forall n, (calls w <= n < calls w + 7)%nat -> dbFails env n = false
  | Funnel500 _ =>
      exists n, (calls w <= n < calls w + 7)%nat /\ dbFails env n = true
  end.
Proof.
  unfold analytics_funnel.
  pose proof (funnel_queries env funnelStatuses w) as H. cbv zeta in H.
  unfold bind at 1.
  destruct (Promise_all _ w) as [[l|e] w1]; cbn [fst snd] in H;
    destruct H as (L & T & I & C & O); cbn [length funnelStatuses] in C, O.
  - destruct O as (-> & N). unfold ret. cbv zeta. rewrite funnel_total.
    intros [= <- <-]. conjs; auto. apply List.filter_length_le.
  - intros [= <- <-]. cbn. conjs; auto.
Qed.

Lemma analytics_funnel_counts_witness :
  let env := calm architectSpecs in
  let w := snd (reject_lead env 0 (Some "spam") afterArjun) in
  let resp := fst (analytics_funnel env w) in
  let w' := snd (analytics_funnel env w) in
  leads w' = leads w /\ tasks w' = tasks w /\ interactions w' = interactions w /\
  calls w' = (calls w + 7)%nat /\
  match resp with
  | Funnel200 funnel totalLeads =>
      funnel = map (fun s => (s, count_status s (leads w))) funnelStatuses /\
      totalLeads =
        length (List.filter (fun l => negb (bool_decide (l_status l = SPAM))) (leads w)) /\
      (totalLeads <= length (leads w))%nat /\
      forall n, (calls w <= n < calls w + 7)%nat -> dbFails env n = false
  | Funnel500 _ =>
      exists n, (calls w <= n < calls w + 7)%nat /\ dbFails env n = true
  end.
Proof.
  exact (analytics_funnel_counts (calm architectSpecs)
           (snd (reject_lead (calm architectSpecs) 0 (Some "spam") afterArjun))
           (fst (analytics_funnel (calm architectSpecs)
                   (snd (reject_lead (calm architectSpecs) 0 (Some "spam") afterArjun))))
           (snd (analytics_funnel (calm architectSpecs)
                   (snd (reject_lead (calm architectSpecs) 0 (Some "spam") afterArjun))))
           ltac:(vm_compute; reflexivity)).
Defined.

(** ** The classifier *)

(** X22: [classifyLead] makes one call to the model, writes nothing to the
    store and never raises.  It returns the model's answer as it is when
    that satisfies the schema, the fallback record when the call fails or
    the answer breaks the schema; either way the score it returns lies in
    [0,1]. *)
Theorem classifyLead_outcome env leadData w :
  exists c w',
    classifyLead env leadData w = (Ok c, w') /\
    c = match modelClassification env (calls w) with
        | Some m => if score_in_range (leadScore m) then m else fallbackClassification
        | None => fallbackClassification
        end /\
    score_in_range (leadScore c) = true /\
    calls w' = S (calls w) /\
    leads w' = leads w /\ tasks w' = tasks w /\ interactions w' = interactions w.
Proof.
  cbv [classifyLead generateObject_classification try_catch bind issue logger ret throw].
  run_on.
  destruct (modelClassification env (calls w)) as [m|]; run_on.
  - destruct (score_in_range (leadScore m)) eqn:R; run_on;
      do 2 eexists; (split; [reflexivity|]); cbn; conjs; auto.
  - do 2 eexists. split; [reflexivity|]. cbn. conjs; auto.
Qed.
